(** * SmartChat: the conversation store and completion orchestrator

  A shallow embedding of [internal/service/chat/chat.go] and of the
  [openai] client it calls.  The Redis server, the wall clock, the UUID
  generator and the HTTP transport are the environment of the service:
  they are carried by an explicit [World] that every method threads, in
  the order in which the Go code performs its calls. *)

From Stdlib Require Import ZArith NArith String Ascii List Bool Lia.
From Stdlib Require Import Decimal DecimalString DecimalNat DecimalZ.
From Stdlib Require PrimFloat FloatOps FloatAxioms SpecFloat.
From stdpp Require Import base option list gmap strings fin_maps.

Local Open Scope string_scope.
Local Open Scope Z_scope.

(** ** Go strings

  A Go [string] is a sequence of bytes; [len] and slicing count bytes. *)

Definition byte_of (c : ascii) : N := N_of_ascii c.

(** [strings.TrimSpace] removes leading and trailing white space as
    defined by Unicode ([unicode.IsSpace]): the six ASCII blanks, U+0085,
    U+00A0 and the code points of category Z with property White_Space.
    The encoded forms below are the only valid UTF-8 encodings of these
    code points; any other byte sequence decodes to a rune that is not a
    space (possibly [utf8.RuneError]) and stops the trimming. *)

Definition asciiSpace (a : N) : bool :=
  ((a =? 0x09) || (a =? 0x0A) || (a =? 0x0B) || (a =? 0x0C) || (a =? 0x0D)
   || (a =? 0x20))%N.

(** U+0085 and U+00A0. *)
Definition isSpace2 (a b : N) : bool :=
  ((a =? 0xC2) && ((b =? 0x85) || (b =? 0xA0)))%N.

(** U+1680, U+2000..U+200A, U+2028, U+2029, U+202F, U+205F, U+3000. *)
Definition isSpace3 (a b c : N) : bool :=
  (((a =? 0xE1) && (b =? 0x9A) && (c =? 0x80))
   || ((a =? 0xE2) && (b =? 0x80)
       && (((0x80 <=? c) && (c <=? 0x8A)) || (c =? 0xA8) || (c =? 0xA9)
           || (c =? 0xAF)))
   || ((a =? 0xE2) && (b =? 0x81) && (c =? 0x9F))
   || ((a =? 0xE3) && (b =? 0x80) && (c =? 0x80)))%N.

(** [strings.TrimLeftFunc s unicode.IsSpace] on the bytes of [s]. *)
Fixpoint trimLeft (bs : list ascii) : list ascii :=
  match bs with
  | [] => []
  | a :: r1 =>
      if asciiSpace (byte_of a) then trimLeft r1
      else match r1 with
           | [] => bs
           | b :: r2 =>
               if isSpace2 (byte_of a) (byte_of b) then trimLeft r2
               else match r2 with
                    | [] => bs
                    | c :: r3 =>
                        if isSpace3 (byte_of a) (byte_of b) (byte_of c)
                        then trimLeft r3 else bs
                    end
           end
  end.

(** [strings.TrimRightFunc s unicode.IsSpace], on the reversed bytes: the
    last rune is found by walking back to the nearest lead byte, so a
    white-space rune is trimmed exactly when its encoding ends the
    string. *)
Fixpoint trimRightRev (sb : list ascii) : list ascii :=
  match sb with
  | [] => []
  | c :: r1 =>
      if asciiSpace (byte_of c) then trimRightRev r1
      else match r1 with
           | [] => sb
           | b :: r2 =>
               if isSpace2 (byte_of b) (byte_of c) then trimRightRev r2
               else match r2 with
                    | [] => sb
                    | a :: r3 =>
                        if isSpace3 (byte_of a) (byte_of b) (byte_of c)
                        then trimRightRev r3 else sb
                    end
           end
  end.

Definition strings_TrimSpace (s : string) : string :=
  string_of_list_ascii
    (rev (trimRightRev (rev (trimLeft (list_ascii_of_string s))))).

(** [utf8.RuneCountInString] on well-formed UTF-8: the characters of a
    text are its bytes that do not continue a character. *)
Definition continuation (c : ascii) : bool :=
  ((0x80 <=? byte_of c) && (byte_of c <=? 0xBF))%N.

Definition utf8_RuneCountInString (s : string) : nat :=
  length (filter (fun c => continuation c = false) (list_ascii_of_string s)).

(** A text of single-byte characters: its characters are its bytes. *)
Definition single_byte (s : string) : bool :=
  forallb (fun c => (byte_of c <? 0x80)%N) (list_ascii_of_string s).

(** ** What [encoding/json] does to a Go string

  [json.Marshal] writes a string as valid UTF-8: it walks the bytes with
  [utf8.DecodeRuneInString] and, where the bytes at hand are not a
  well-formed encoding (the rune is [utf8.RuneError] with width 1),
  writes the replacement character U+FFFD for one byte and goes on with
  the next byte.  Every other character is written as it is or as an
  escape that [json.Unmarshal] undoes, so [json_text s] is the string
  that is read back for [s].

  [rune2], [rune3] and [rune4] are the well-formed encodings of two,
  three and four bytes, by the table of package [utf8]. *)

Definition rune2 (a b : ascii) : bool :=
  ((0xC2 <=? byte_of a) && (byte_of a <=? 0xDF))%N && continuation b.

Definition rune3 (a b c : ascii) : bool :=
  (((byte_of a =? 0xE0) && (0xA0 <=? byte_of b) && (byte_of b <=? 0xBF))
   || ((0xE1 <=? byte_of a) && (byte_of a <=? 0xEC) && continuation b)
   || ((byte_of a =? 0xED) && (0x80 <=? byte_of b) && (byte_of b <=? 0x9F))
   || ((0xEE <=? byte_of a) && (byte_of a <=? 0xEF) && continuation b))%N
  && continuation c.

Definition rune4 (a b c d : ascii) : bool :=
  (((byte_of a =? 0xF0) && (0x90 <=? byte_of b) && (byte_of b <=? 0xBF))
   || ((0xF1 <=? byte_of a) && (byte_of a <=? 0xF3) && continuation b)
   || ((byte_of a =? 0xF4) && (0x80 <=? byte_of b) && (byte_of b <=? 0x8F)))%N
  && continuation c && continuation d.

(** U+FFFD in UTF-8. *)
Definition replacement : list ascii :=
  [ascii_of_nat 239; ascii_of_nat 191; ascii_of_nat 189].

Fixpoint json_bytes (bs : list ascii) : list ascii :=
  match bs with
  | [] => []
  | a :: r1 =>
      if (byte_of a <? 0x80)%N then a :: json_bytes r1
      else
        match r1 with
        | [] => replacement
        | b :: r2 =>
            if rune2 a b then a :: b :: json_bytes r2
            else
              match r2 with
              | [] => (replacement ++ json_bytes r1)%list
              | c :: r3 =>
                  if rune3 a b c then a :: b :: c :: json_bytes r3
                  else
                    match r3 with
                    | [] => (replacement ++ json_bytes r1)%list
                    | d :: r4 =>
                        if rune4 a b c d
                        then a :: b :: c :: d :: json_bytes r4
                        else (replacement ++ json_bytes r1)%list
                    end
              end
        end
  end.

Definition json_text (s : string) : string :=
  string_of_list_ascii (json_bytes (list_ascii_of_string s)).

(** ** Errors and results *)

Inductive error : Type :=
| redis_Nil                    (* redis.Nil: the key does not exist *)
| redis_WrongType              (* WRONGTYPE: the key holds another type *)
| redis_Unavailable            (* the round trip to the server failed *)
| not_authorized               (* fmt.Errorf("not authorized") *)
| json_Error                   (* an error of encoding/json *)
| openai_Error (msg : string). (* an error of openai.ChatCompletion *)

Inductive result (A : Type) : Type :=
| Ok (a : A)
| Err (e : error).
Arguments Ok {A} a.
Arguments Err {A} e.

Definition is_Ok {A} (r : result A) : bool :=
  match r with Ok _ => true | Err _ => false end.

(** ** The world the service runs in *)

(** A Redis value: a string (SET/GET) or a list (LPUSH/RPUSH/LRANGE/LREM). *)
Inductive RValue : Type :=
| RString (v : string)
| RList (l : list string).

Record World : Type := mkWorld {
  db : gmap string RValue;     (* the contents of the Redis server *)
  faults : list bool;          (* the coming round trips; true = failure *)
  now : Z;                     (* the reading of the wall clock *)
  uuid_src : nat -> string;    (* the identifiers uuid.NewString will draw *)
  uuid_ctr : nat               (* how many have been drawn *)
}.

Definition set_db (d : gmap string RValue) (w : World) : World :=
  mkWorld d (faults w) (now w) (uuid_src w) (uuid_ctr w).
Definition set_faults (fs : list bool) (w : World) : World :=
  mkWorld (db w) fs (now w) (uuid_src w) (uuid_ctr w).

(** Computations that read and write the world and may fail: a state and
    error monad. A failing computation keeps the world it reached. *)
Definition M (A : Type) : Type := World -> result A * World.

Definition ret {A} (a : A) : M A := fun w => (Ok a, w).
Definition fail {A} (e : error) : M A := fun w => (Err e, w).
Definition bind {A B} (m : M A) (k : A -> M B) : M B :=
  fun w => match m w with
           | (Ok a, w') => k a w'
           | (Err e, w') => (Err e, w')
           end.
(** [catch m] never fails: it hands the outcome of [m] to the caller, as
    Go does with its [(value, err)] pairs. *)
Definition catch {A} (m : M A) : M (result A) :=
  fun w => let '(r, w') := m w in (Ok r, w').

Notation "'let*' x := c1 'in' c2" := (bind c1 (fun x => c2))
  (at level 10, x name, c1 at level 100, c2 at level 200).

Definition time_Now : M Z :=
  fun w => (Ok (now w),
            mkWorld (db w) (faults w) (now w + 1) (uuid_src w) (uuid_ctr w)).

Definition uuid_NewString : M string :=
  fun w => (Ok (uuid_src w (uuid_ctr w)),
            mkWorld (db w) (faults w) (now w) (uuid_src w) (S (uuid_ctr w))).

(** ** The Redis client

  Every command is one round trip to the server.  A round trip that
  fails leaves the server untouched and returns a connection error. *)

Definition round_trip : M unit :=
  fun w => if hd false (faults w)
           then (Err redis_Unavailable, set_faults (tl (faults w)) w)
           else (Ok tt, set_faults (tl (faults w)) w).

(** GET *)
Definition redis_Get (key : string) : M string :=
  let* _ := round_trip in
  fun w => match db w !! key with
           | None => (Err redis_Nil, w)
           | Some (RString v) => (Ok v, w)
           | Some (RList _) => (Err redis_WrongType, w)
           end.

(** The elements of [l] from index [start] to index [stop], both
    inclusive; a negative index counts from the end of the list. *)
Definition lrange (l : list string) (start stop : Z) : list string :=
  let n := Z.of_nat (length l) in
  let start := if start <? 0 then Z.max 0 (n + start) else start in
  let stop := if stop <? 0 then n + stop else stop in
  let stop := Z.min stop (n - 1) in
  if stop <? start then []
  else take (Z.to_nat (stop - start + 1)) (drop (Z.to_nat start) l).

(** LRANGE: a key that does not exist is an empty list. *)
Definition redis_LRange (key : string) (start stop : Z) : M (list string) :=
  let* _ := round_trip in
  fun w => match db w !! key with
           | None => (Ok [], w)
           | Some (RList l) => (Ok (lrange l start stop), w)
           | Some (RString _) => (Err redis_WrongType, w)
           end.

(** RPUSH: append at the tail, creating the list if needed. *)
Definition redis_RPush (key value : string) : M unit :=
  let* _ := round_trip in
  fun w => match db w !! key with
           | None => (Ok tt, set_db (<[key := RList [value]]> (db w)) w)
           | Some (RList l) =>
               (Ok tt, set_db (<[key := RList (l ++ [value])]> (db w)) w)
           | Some (RString _) => (Err redis_WrongType, w)
           end.

(** The commands queued on a [TxPipeline]. *)
Inductive Cmd : Type :=
| pipe_Set (key value : string)
| pipe_LRem (key : string) (count : Z) (value : string)
| pipe_LPush (key value : string).

Fixpoint remove_first (n : nat) (value : string) (l : list string)
  : list string :=
  match n, l with
  | O, _ => l
  | _, [] => []
  | S n', x :: l' =>
      if String.eqb x value then remove_first n' value l'
      else x :: remove_first n value l'
  end.

(** LREM: [count = 0] removes every occurrence, [count > 0] the first
    [count] ones, [count < 0] the last [-count] ones. *)
Definition lrem (count : Z) (value : string) (l : list string) : list string :=
  if count =? 0 then filter (fun x => x <> value) l
  else if 0 <? count then remove_first (Z.to_nat count) value l
  else rev (remove_first (Z.to_nat (- count)) value (rev l)).

(** One queued command on the server; a list that becomes empty is
    deleted. *)
Definition run_cmd (c : Cmd) (d : gmap string RValue)
  : option error * gmap string RValue :=
  match c with
  | pipe_Set key value => (None, <[key := RString value]> d)
  | pipe_LRem key count value =>
      match d !! key with
      | None => (None, d)
      | Some (RList l) =>
          match lrem count value l with
          | [] => (None, delete key d)
          | l' => (None, <[key := RList l']> d)
          end
      | Some (RString _) => (Some redis_WrongType, d)
      end
  | pipe_LPush key value =>
      match d !! key with
      | None => (None, <[key := RList [value]]> d)
      | Some (RList l) => (None, <[key := RList (value :: l)]> d)
      | Some (RString _) => (Some redis_WrongType, d)
      end
  end.

(** MULTI ... EXEC: the queued commands run one after the other with no
    other client in between; a command that fails neither stops nor undoes
    the others, and [Exec] reports the first failure. *)
Fixpoint run_cmds (cs : list Cmd) (d : gmap string RValue)
  : option error * gmap string RValue :=
  match cs with
  | [] => (None, d)
  | c :: cs' =>
      let '(e, d') := run_cmd c d in
      let '(e', d'') := run_cmds cs' d' in
      (match e with Some _ => e | None => e' end, d'')
  end.

Definition pipe_Exec (cs : list Cmd) : M unit :=
  let* _ := round_trip in
  fun w => match run_cmds cs (db w) with
           | (None, d) => (Ok tt, set_db d w)
           | (Some e, d) => (Err e, set_db d w)
           end.

(** ** package openai *)

Module openai.

Definition float64 : Type := PrimFloat.float.

Record Message : Type := mkMessage { Role : string; Content : string }.

Record Usage : Type := mkUsage {
  PromptTokens : Z; CompletionTokens : Z; TotalTokens : Z }.

Record chatRequest : Type := mkRequest {
  Model : string; Messages : list Message; Temperature : float64 }.

Record chatResponse : Type := mkResponse {
  Choices : list Message; ResponseUsage : Usage }.

(** What the network does with a request, one constructor per point at
    which [ChatCompletion] can stop. *)
Inductive exchange : Type :=
| endpoint_error           (* url.JoinPath fails *)
| marshal_error            (* json.Marshal of the request fails *)
| request_error            (* http.NewRequestWithContext fails *)
| execute_error            (* HTTP.Do fails *)
| replied (StatusCode : Z) (body : option chatResponse).
                           (* a response; [None]: the body does not decode *)

Record Client : Type := mkClient {
  BaseURL : string;
  APIKey : string;
  HTTP : string -> chatRequest -> exchange
    (* the transport, given the bearer token and the request *)
}.

Definition ChatCompletion (c : Client) (model : string)
    (messages : list Message) (temperature : float64)
  : result (Message * Usage) :=
  if String.eqb (BaseURL c) "" then Err (openai_Error "missing base url")
  else
    match HTTP c (APIKey c) (mkRequest model messages temperature) with
    | endpoint_error => Err (openai_Error "build endpoint")
    | marshal_error => Err (openai_Error "marshal request")
    | request_error => Err (openai_Error "create request")
    | execute_error => Err (openai_Error "execute request")
    | replied StatusCode body =>
        if (StatusCode <? 200) || (299 <? StatusCode)
        then Err (openai_Error "openai request failed")
        else match body with
             | None => Err (openai_Error "decode response")
             | Some parsed =>
                 match Choices parsed with
                 | [] => Err (openai_Error "no choices returned")
                 | m :: _ => Ok (m, ResponseUsage parsed)
                 end
             end
    end.

End openai.

(** ** package chat

  A [time.Time] is the reading of the clock it was taken from.  The
  [Redis] handle of the Go [Service] is the server of the world; the
  [AI] client is kept. *)

Record ChatSummary : Type := mkSummary {
  ID : string; Title : string; UpdatedAt : Z }.

Record Message : Type := mkMessage {
  Role : string; Content : string; CreatedAt : Z }.

Record ChatView : Type := mkView {
  Summary : ChatSummary; Messages : list Message }.

Record Service : Type := mkService { AI : openai.Client }.

(** [encoding/json], as far as the service uses it: [Marshal] of a value
    and [Unmarshal] of a payload into a variable of the same type. *)
Class Json (A : Type) : Type := {
  json_Marshal : A -> option string;
  json_Unmarshal : string -> option A
}.

Definition userChatsKey (email : string) : string := "userchats:" +:+ email.
Definition chatMetaKey (chatID : string) : string := "chatmeta:" +:+ chatID.
Definition chatMessagesKey (chatID : string) : string :=
  "chatmessages:" +:+ chatID.
Definition chatOwnerKey (chatID : string) : string := "chatowner:" +:+ chatID.

Definition summarizeTitle (content : string) : string :=
  let trimmed := strings_TrimSpace content in
  if (32 <? String.length trimmed)%nat then String.substring 0 32 trimmed
  else trimmed.

Section Chat.

Context {JS : Json ChatSummary} {JM : Json Message}.

Definition saveChatMeta (userEmail : string) (summary : ChatSummary)
  : M unit :=
  match json_Marshal summary with
  | None => fail json_Error
  | Some payload =>
      pipe_Exec [ pipe_Set (chatMetaKey (ID summary)) payload;
                  pipe_Set (chatOwnerKey (ID summary)) userEmail;
                  pipe_LRem (userChatsKey userEmail) 0 (ID summary);
                  pipe_LPush (userChatsKey userEmail) (ID summary) ]
  end.

Definition verifyOwner (userEmail chatID : string) : M bool :=
  let* r := catch (redis_Get (chatOwnerKey chatID)) in
  match r with
  | Err redis_Nil => ret false
  | Err e => fail e
  | Ok owner => ret (String.eqb owner userEmail)
  end.

Definition touchChat (userEmail chatID lastContent : string) : M unit :=
  let* metaData := redis_Get (chatMetaKey chatID) in
  match json_Unmarshal metaData with
  | None => fail json_Error
  | Some summary =>
      let title :=
        if String.eqb (Title summary) "New chat"
           && negb (String.eqb (strings_TrimSpace lastContent) "")
        then summarizeTitle lastContent else Title summary in
      let* t := time_Now in
      saveChatMeta userEmail (mkSummary (ID summary) title t)
  end.

Definition fetchMessages (chatID : string) : M (list Message) :=
  let* r := catch (redis_LRange (chatMessagesKey chatID) 0 (-1)) in
  let* values := match r with
                 | Ok values => ret values
                 | Err redis_Nil => ret []
                 | Err e => fail e
                 end in
  ret (omap json_Unmarshal values).

Definition NewChat (userEmail title : string) : M ChatSummary :=
  let* chatID := uuid_NewString in
  let title :=
    if String.eqb (strings_TrimSpace title) "" then "New chat" else title in
  let* t := time_Now in
  let summary := mkSummary chatID title t in
  let* _ := saveChatMeta userEmail summary in
  ret summary.

(** The loop of [ListChats]: an identifier whose record cannot be read or
    decoded is skipped. *)
Fixpoint ListChats_loop (ids : list string) (summaries : list ChatSummary)
  : M (list ChatSummary) :=
  match ids with
  | [] => ret summaries
  | id :: ids' =>
      let* r := catch (redis_Get (chatMetaKey id)) in
      match r with
      | Err _ => ListChats_loop ids' summaries
      | Ok data =>
          match json_Unmarshal data with
          | None => ListChats_loop ids' summaries
          | Some summary => ListChats_loop ids' (summaries ++ [summary])
          end
      end
  end.

Definition ListChats (userEmail : string) : M (list ChatSummary) :=
  let* r := catch (redis_LRange (userChatsKey userEmail) 0 19) in
  let* ids := match r with
              | Ok ids => ret ids
              | Err redis_Nil => ret []
              | Err e => fail e
              end in
  if (length ids =? 0)%nat then ret [] else ListChats_loop ids [].

Definition EnsureChat (userEmail : string) : M ChatSummary :=
  let* summaries := ListChats userEmail in
  match summaries with
  | summary :: _ => ret summary
  | [] => NewChat userEmail "New chat"
  end.

Definition GetChat (userEmail chatID : string) : M ChatView :=
  let* ok := verifyOwner userEmail chatID in
  if negb ok then fail not_authorized
  else
    let* metaData := redis_Get (chatMetaKey chatID) in
    match json_Unmarshal metaData with
    | None => fail json_Error
    | Some summary =>
        let* messages := fetchMessages chatID in
        ret (mkView summary messages)
    end.

Definition AppendMessage (userEmail chatID role content : string)
  : M Message :=
  let* ok := verifyOwner userEmail chatID in
  if negb ok then fail not_authorized
  else
    let* t := time_Now in
    let message := mkMessage role content t in
    match json_Marshal message with
    | None => fail json_Error
    | Some payload =>
        let* _ := redis_RPush (chatMessagesKey chatID) payload in
        let* _ := touchChat userEmail chatID content in
        ret message
    end.

Definition RunCompletion (s : Service) (userEmail chatID model : string)
    (temperature : openai.float64) : M (Message * openai.Usage) :=
  let* ok := verifyOwner userEmail chatID in
  if negb ok then fail not_authorized
  else
    let* messages := fetchMessages chatID in
    let aiMessages :=
      map (fun message => openai.mkMessage (Role message) (Content message))
          messages in
    match openai.ChatCompletion (AI s) model aiMessages temperature with
    | Err e => fail e
    | Ok (response, usage) =>
        let* t := time_Now in
        let stored :=
          mkMessage (openai.Role response) (openai.Content response) t in
        match json_Marshal stored with
        | None => fail json_Error
        | Some payload =>
            let* _ := redis_RPush (chatMessagesKey chatID) payload in
            let* _ := touchChat userEmail chatID (openai.Content response) in
            ret (stored, usage)
        end
    end.

End Chat.

(** A summary and a message as [encoding/json] reads them back. *)
Definition json_summary (s : ChatSummary) : ChatSummary :=
  mkSummary (json_text (ID s)) (json_text (Title s)) (UpdatedAt s).

Definition json_message (m : Message) : Message :=
  mkMessage (json_text (Role m)) (json_text (Content m)) (CreatedAt m).

(** ** A concrete codec

  A JSON object whose fields are all strings, in the order of the
  struct; a time is written as the decimal reading of the clock.  It
  stands for [encoding/json] where a statement needs a codec to run. *)

Module jsontext.

Definition quote : ascii := ascii_of_nat 34.
Definition backslash : ascii := ascii_of_nat 92.

Fixpoint escape (s : string) : string :=
  match s with
  | EmptyString => EmptyString
  | String c r =>
      if Ascii.eqb c quote || Ascii.eqb c backslash
      then String backslash (String c (escape r))
      else String c (escape r)
  end.

(** Reads an escaped string up to its closing quote. *)
Fixpoint read_string (s : string) : option (string * string) :=
  match s with
  | EmptyString => None
  | String c r =>
      if Ascii.eqb c quote then Some (EmptyString, r)
      else if Ascii.eqb c backslash then
        match r with
        | EmptyString => None
        | String d r' =>
            match read_string r' with
            | Some (v, rest) => Some (String d v, rest)
            | None => None
            end
        end
      else match read_string r with
           | Some (v, rest) => Some (String c v, rest)
           | None => None
           end
  end.

Fixpoint expect (lit s : string) : option string :=
  match lit, s with
  | EmptyString, _ => Some s
  | String a l, String b r => if Ascii.eqb a b then expect l r else None
  | String _ _, EmptyString => None
  end.

(** The text [quote name quote : quote] that opens a field. *)
Definition opening (name : string) : string :=
  String quote (name +:+ String quote (":" +:+ String quote EmptyString)).

Definition field (name value rest : string) : string :=
  opening name +:+ escape value +:+ String quote rest.

Definition read_field (name s : string) : option (string * string) :=
  match expect (opening name) s with
  | Some s' => read_string s'
  | None => None
  end.

Definition decimal (z : Z) : string := NilZero.string_of_int (Z.to_int z).
Definition read_decimal (s : string) : option Z :=
  option_map Z.of_int (NilZero.int_of_string s).

Definition marshal_ChatSummary (s : ChatSummary) : option string :=
  Some ("{" +:+ field "id" (ID s)
          ("," +:+ field "title" (Title s)
             ("," +:+ field "updatedAt" (decimal (UpdatedAt s)) "}"))).

Definition unmarshal_ChatSummary (p : string) : option ChatSummary :=
  s1 ← expect "{" p;
  '(id, s2) ← read_field "id" s1;
  s3 ← expect "," s2;
  '(title, s4) ← read_field "title" s3;
  s5 ← expect "," s4;
  '(t, s6) ← read_field "updatedAt" s5;
  updatedAt ← read_decimal t;
  if String.eqb s6 "}" then Some (mkSummary id title updatedAt) else None.

Definition marshal_Message (m : Message) : option string :=
  Some ("{" +:+ field "role" (Role m)
          ("," +:+ field "content" (Content m)
             ("," +:+ field "createdAt" (decimal (CreatedAt m)) "}"))).

Definition unmarshal_Message (p : string) : option Message :=
  s1 ← expect "{" p;
  '(role, s2) ← read_field "role" s1;
  s3 ← expect "," s2;
  '(content, s4) ← read_field "content" s3;
  s5 ← expect "," s4;
  '(t, s6) ← read_field "createdAt" s5;
  createdAt ← read_decimal t;
  if String.eqb s6 "}" then Some (mkMessage role content createdAt) else None.

#[export] Instance json_ChatSummary : Json ChatSummary :=
  {| json_Marshal := marshal_ChatSummary;
     json_Unmarshal := unmarshal_ChatSummary |}.

#[export] Instance json_Message : Json Message :=
  {| json_Marshal := marshal_Message;
     json_Unmarshal := unmarshal_Message |}.

End jsontext.

(** The same codec with the strings written as [encoding/json] writes
    them: what is not valid UTF-8 is replaced on the way in, and on the
    way out when the text at hand was written by someone else. *)

Module gojson.

Definition marshal_ChatSummary (s : ChatSummary) : option string :=
  jsontext.marshal_ChatSummary (json_summary s).

Definition unmarshal_ChatSummary (p : string) : option ChatSummary :=
  option_map json_summary (jsontext.unmarshal_ChatSummary p).

Definition marshal_Message (m : Message) : option string :=
  jsontext.marshal_Message (json_message m).

Definition unmarshal_Message (p : string) : option Message :=
  option_map json_message (jsontext.unmarshal_Message p).

#[export] Instance json_ChatSummary : Json ChatSummary :=
  {| json_Marshal := marshal_ChatSummary;
     json_Unmarshal := unmarshal_ChatSummary |}.

#[export] Instance json_Message : Json Message :=
  {| json_Marshal := marshal_Message;
     json_Unmarshal := unmarshal_Message |}.

End gojson.

(** ** Sample worlds *)

Definition sample_uuid (n : nat) : string :=
  "c" +:+ NilZero.string_of_uint (Nat.to_uint n).

(** An empty server that always answers. *)
Definition world0 : World := mkWorld ∅ [] 1000 sample_uuid 0.

(** ** What a server holds, as the service reads it *)

(** The user's chat index, most recent first. *)
Definition index (d : gmap string RValue) (user : string) : list string :=
  match d !! userChatsKey user with
  | Some (RList l) => l
  | _ => []
  end.

(** The stored payloads of a chat's messages, oldest first. *)
Definition raw_log (d : gmap string RValue) (chatID : string) : list string :=
  match d !! chatMessagesKey chatID with
  | Some (RList l) => l
  | _ => []
  end.

(** The key holds a list or nothing: list commands on it succeed. *)
Definition list_key (d : gmap string RValue) (key : string) : Prop :=
  forall v, d !! key <> Some (RString v).

(** The server after the four commands of [saveChatMeta] have applied. *)
Definition saved (user id payload : string) (d : gmap string RValue)
  : gmap string RValue :=
  <[userChatsKey user :=
    RList (id :: filter (fun x => x <> id) (index d user))]>
    (<[chatOwnerKey id := RString user]>
       (<[chatMetaKey id := RString payload]> d)).

(** The server after the two SETs alone. *)
Definition half_saved (user id payload : string) (d : gmap string RValue)
  : gmap string RValue :=
  <[chatOwnerKey id := RString user]> (<[chatMetaKey id := RString payload]> d).

(** Every summary record has an ownership record and conversely. *)
Definition paired (d : gmap string RValue) : Prop :=
  forall id, is_Some (d !! chatMetaKey id) <-> is_Some (d !! chatOwnerKey id).

(** The world after one round trip. *)
Definition tick (w : World) : World := set_faults (tl (faults w)) w.

(** The server answers the next round trip. *)
Definition answered (w : World) : Prop := hd false (faults w) = false.

Section Reading.

Context {JS : Json ChatSummary} {JM : Json Message}.

(** The summary a chat's record decodes to, if it has one that decodes. *)
Definition resolve (d : gmap string RValue) (chatID : string)
  : option ChatSummary :=
  match d !! chatMetaKey chatID with
  | Some (RString payload) => json_Unmarshal payload
  | _ => None
  end.

(** The messages a chat's log decodes to, oldest first. *)
Definition log (d : gmap string RValue) (chatID : string) : list Message :=
  omap json_Unmarshal (raw_log d chatID).

End Reading.

(** The server after a payload has been appended to a chat's log. *)
Definition pushed (chatID payload : string) (d : gmap string RValue)
  : gmap string RValue :=
  <[chatMessagesKey chatID := RList (raw_log d chatID ++ [payload])]> d.

(** A computation that leaves the generator of identifiers as it is,
    but for the identifiers it draws. *)
Definition steady {A} (m : M A) : Prop :=
  forall w, uuid_src (snd (m w)) = uuid_src w
            /\ (uuid_ctr w <= uuid_ctr (snd (m w)))%nat.

Section Effects.

Context {JS : Json ChatSummary} {JM : Json Message}.

(** What a call of [touchChat] can do to the server: nothing (with an
    error), the whole transaction, or, when the index key does not hold
    a list, the two SETs alone (with an error). *)
Inductive touched (user chatID content : string) (d : gmap string RValue)
  : result unit -> gmap string RValue -> Prop :=
| touched_not (e : error) : touched user chatID content d (Err e) d
| touched_all (summary : ChatSummary) (t : Z) (payload : string) :
    resolve d chatID = Some summary ->
    json_Marshal
      (mkSummary (ID summary)
         (if String.eqb (Title summary) "New chat"
             && negb (String.eqb (strings_TrimSpace content) "")
          then summarizeTitle content else Title summary) t)
    = Some payload ->
    list_key d (userChatsKey user) ->
    touched user chatID content d (Ok tt)
      (saved user (ID summary) payload d)
| touched_half (summary : ChatSummary) (t : Z) (payload : string) :
    resolve d chatID = Some summary ->
    json_Marshal
      (mkSummary (ID summary)
         (if String.eqb (Title summary) "New chat"
             && negb (String.eqb (strings_TrimSpace content) "")
          then summarizeTitle content else Title summary) t)
    = Some payload ->
    touched user chatID content d (Err redis_WrongType)
      (half_saved user (ID summary) payload d).

(** What the two writes that end [AppendMessage] and [RunCompletion] can
    do: nothing when the RPUSH fails, else the append followed by what
    the touch does. *)
Inductive stored (user chatID payload content : string)
    (d : gmap string RValue)
  : result unit -> gmap string RValue -> Prop :=
| stored_not (e : error) : stored user chatID payload content d (Err e) d
| stored_then (r : result unit) (d' : gmap string RValue) :
    list_key d (chatMessagesKey chatID) ->
    touched user chatID content (pushed chatID payload d) r d' ->
    stored user chatID payload content d r d'.

(** The laws of [encoding/json] on the two records of the service.
    [json.Marshal] cannot fail on them: their fields are strings, which
    it writes whatever their bytes, and times read from the clock, whose
    years are within the range that [time.Time] writes.  [json.Unmarshal]
    gives back what was written, that is the record with its strings as
    [json_text] has them and its time; and the strings of every record
    it decodes are valid UTF-8 (it replaces what is not, too), which
    [json_text] leaves as they are. *)
Record encoding_json : Prop := {
  Marshal_summary :
    forall s : ChatSummary, exists p, json_Marshal s = Some p;
  Marshal_message :
    forall m : Message, exists p, json_Marshal m = Some p;
  Unmarshal_summary :
    forall (s : ChatSummary) (p : string),
      json_Marshal s = Some p -> json_Unmarshal p = Some (json_summary s);
  Unmarshal_message :
    forall (m : Message) (p : string),
      json_Marshal m = Some p -> json_Unmarshal p = Some (json_message m);
  Unmarshal_valid :
    forall (p : string) (s : ChatSummary),
      json_Unmarshal p = Some s -> json_summary s = s
}.

(** Every summary record that decodes carries the identifier it is
    filed under. *)
Definition consistent (d : gmap string RValue) : Prop :=
  forall chatID summary,
    resolve d chatID = Some summary -> ID summary = chatID.

(** The caller owns the chat, its summary decodes and its log is a
    list: what [GetChat] needs to answer. *)
Definition chat_ok (user chatID : string) (d : gmap string RValue) : Prop :=
  d !! chatOwnerKey chatID = Some (RString user) /\
  is_Some (resolve d chatID) /\
  list_key d (chatMessagesKey chatID).

(** The indexes hold no identifier twice and the summary records are
    filed under their own identifiers. *)
Definition well_formed (d : gmap string RValue) : Prop :=
  (forall user, NoDup (index d user)) /\ consistent d.

(** The summary records are filed under their own identifiers and that
    of [chatID] decodes to a summary titled [title]. *)
Definition titled (chatID title : string) (d : gmap string RValue) : Prop :=
  consistent d /\
  exists summary, resolve d chatID = Some summary /\ Title summary = title.

(** ** Sequences of calls *)

(** The requests that add a message to a chat. *)
Inductive Request : Type :=
| ReqAppend (role content : string)
| ReqCompletion (s : Service) (model : string)
    (temperature : openai.float64).

Definition serve (user chatID : string) (rq : Request) : M Message :=
  match rq with
  | ReqAppend role content => AppendMessage user chatID role content
  | ReqCompletion s model temperature =>
      let* r := RunCompletion s user chatID model temperature in
      ret (fst r)
  end.

(** The requests of [rqs] one after the other, each of which succeeds. *)
Fixpoint serve_all (user chatID : string) (rqs : list Request)
  : M (list Message) :=
  match rqs with
  | [] => ret []
  | rq :: rqs' =>
      let* m := serve user chatID rq in
      let* ms := serve_all user chatID rqs' in
      ret (m :: ms)
  end.

(** The calls that write to a user's index, by any user on any chat. *)
Inductive Call : Type :=
| CallNewChat (user title : string)
| CallAppendMessage (user chatID role content : string)
| CallRunCompletion (s : Service) (user chatID model : string)
    (temperature : openai.float64).

(** A call, returning the user and the chat it created or touched. *)
Definition perform (c : Call) : M (string * string) :=
  match c with
  | CallNewChat user title =>
      let* summary := NewChat user title in ret (user, ID summary)
  | CallAppendMessage user chatID role content =>
      let* _ := AppendMessage user chatID role content in
      ret (user, chatID)
  | CallRunCompletion s user chatID model temperature =>
      let* _ := RunCompletion s user chatID model temperature in
      ret (user, chatID)
  end.

(** The world after the calls of [cs], whether they succeed or fail. *)
Fixpoint run (cs : list Call) (w : World) : World :=
  match cs with
  | [] => w
  | c :: cs' => run cs' (snd (perform c w))
  end.

End Effects.

Module samples.
Import jsontext.

(** User "u" has one chat, "c0", created with an empty title. *)
Definition world1 : World := snd (NewChat "u" "" world0).

(** The same server after the summary record of "c0" has been lost. *)
Definition world1_lost : World :=
  set_db (delete (chatMetaKey "c0") (db world1)) world1.

(** The same server, about to answer one read and to fail the next. *)
Definition world1_flaky : World := set_faults [false; true] world1.

(** An empty server but for the index key of "u", which holds a string. *)
Definition world0_blocked : World :=
  set_db (<[userChatsKey "u" := RString "x"]> ∅) world0.

(** User "u" has two chats, "c1" the more recent; the summary record of
    "c1" holds text that is not a summary. *)
Definition world2 : World := snd (NewChat "u" "second" world1).
Definition world2_corrupt : World :=
  set_db (<[chatMetaKey "c1" := RString "garbage"]> (db world2)) world2.

(** A backend that always replies "fine" as the assistant, and one that is
    down. *)
Definition fine : Service :=
  mkService
    (openai.mkClient "http://ai.local/v1" "key"
       (fun _ _ =>
          openai.replied 200
            (Some (openai.mkResponse [openai.mkMessage "assistant" "fine"]
                     (openai.mkUsage 7 1 8))))).

Definition down : Service :=
  mkService
    (openai.mkClient "http://ai.local/v1" "key"
       (fun _ _ => openai.replied 503 None)).

Definition half : openai.float64 := PrimFloat.div PrimFloat.one PrimFloat.two.

End samples.

(** ** More of Go's [strings] package, on bytes *)

Fixpoint strings_HasPrefix (s prefix : string) : bool :=
  match prefix, s with
  | EmptyString, _ => true
  | String a p, String b r => Ascii.eqb a b && strings_HasPrefix r p
  | String _ _, EmptyString => false
  end.

Fixpoint strings_Contains (s substr : string) : bool :=
  strings_HasPrefix s substr
  || match s with
     | EmptyString => false
     | String _ r => strings_Contains r substr
     end.

(** [strings.Split s sep] for a separator of one byte: the pieces between
    the separators, in order; the empty string gives one empty piece. *)
Fixpoint strings_Split (s : string) (sep : ascii) : list string :=
  match s with
  | EmptyString => [EmptyString]
  | String c r =>
      if Ascii.eqb c sep then EmptyString :: strings_Split r sep
      else match strings_Split r sep with
           | piece :: pieces => String c piece :: pieces
           | [] => [String c EmptyString]
           end
  end.

(** [strings.Cut s sep] for a separator of one byte: the text before the
    first separator, the text after it, and whether there is one. *)
Fixpoint strings_Cut (s : string) (sep : ascii) : string * string * bool :=
  match s with
  | EmptyString => (EmptyString, EmptyString, false)
  | String c r =>
      if Ascii.eqb c sep then (EmptyString, r, true)
      else let '(before, after, found) := strings_Cut r sep in
           (String c before, after, found)
  end.

Fixpoint strings_Join (elems : list string) (sep : string) : string :=
  match elems with
  | [] => EmptyString
  | [e] => e
  | e :: rest => e +:+ sep +:+ strings_Join rest sep
  end.

Fixpoint trimLeftSet (cutset : list ascii) (bs : list ascii) : list ascii :=
  match bs with
  | [] => []
  | b :: r => if existsb (Ascii.eqb b) cutset then trimLeftSet cutset r else bs
  end.

(** [strings.Trim s cutset] for a cutset of ASCII characters: the leading
    and trailing bytes that are in the cutset are removed. *)
Definition strings_Trim (s cutset : string) : string :=
  let set := list_ascii_of_string cutset in
  string_of_list_ascii
    (rev (trimLeftSet set (rev (trimLeftSet set (list_ascii_of_string s))))).

(** ** package config *)

Module config.

Record OAuthConfig : Type := mkOAuth {
  ClientID : string; ClientSecret : string; RedirectURL : string }.

Record OpenAIConfig : Type := mkOpenAI {
  BaseURL : string; APIKey : string; Models : list string }.

Record Config : Type := mkConfig {
  Port : string;
  RedisURL : string;
  SessionKey : string;
  InstanceName : string;
  OAuthGoogle : OAuthConfig;
  OAuthGitHub : OAuthConfig;
  OpenAI : OpenAIConfig
}.

(** The loop of [splitCSV]. *)
Fixpoint cleaned (parts : list string) : list string :=
  match parts with
  | [] => []
  | part :: parts' =>
      let trimmed := strings_TrimSpace part in
      if String.eqb trimmed "" then cleaned parts'
      else trimmed :: cleaned parts'
  end.

Definition splitCSV (value : string) : list string :=
  if String.eqb value "" then []
  else cleaned (strings_Split value ",").

(** The slice [missing] that [Validate] builds. *)
Definition missing (c : Config) : list string :=
  (if String.eqb (RedisURL c) "" then ["REDIS_URL"] else [])
  ++ (if String.eqb (SessionKey c) "" then ["SESSION_KEY"] else [])
  ++ (if String.eqb (InstanceName c) "" then ["INSTANCE_NAME"] else [])
  ++ (if String.eqb (ClientID (OAuthGoogle c)) ""
         || String.eqb (ClientSecret (OAuthGoogle c)) ""
         || String.eqb (RedirectURL (OAuthGoogle c)) ""
      then ["OAUTH_GOOGLE_CLIENT_ID"; "OAUTH_GOOGLE_CLIENT_SECRET";
            "OAUTH_GOOGLE_REDIRECT_URL"] else [])
  ++ (if String.eqb (ClientID (OAuthGitHub c)) ""
         || String.eqb (ClientSecret (OAuthGitHub c)) ""
         || String.eqb (RedirectURL (OAuthGitHub c)) ""
      then ["OAUTH_GITHUB_CLIENT_ID"; "OAUTH_GITHUB_CLIENT_SECRET";
            "OAUTH_GITHUB_REDIRECT_URL"] else [])
  ++ (if String.eqb (BaseURL (OpenAI c)) "" then ["OPENAI_API_BASE_URL"]
      else [])
  ++ (if String.eqb (APIKey (OpenAI c)) "" then ["OPENAI_API_KEY"] else [])
  ++ (if (length (Models (OpenAI c)) =? 0)%nat then ["OPENAI_API_MODELS"]
      else []).

(** [Validate]: [None] is the nil error, [Some msg] an error with that
    message. *)
Definition Validate (c : Config) : option string :=
  if (0 <? length (missing c))%nat
  then Some ("missing required environment variables: "
             +:+ strings_Join (missing c) ", ")
  else None.

(** The environment of the process: the variables that are set. *)
Definition os_Getenv (env : gmap string string) (key : string) : string :=
  default "" (env !! key).

Definition zero_byte : ascii := ascii_of_nat 0.

(** [os.Setenv]: an empty key, a key with "=" or a zero byte, or a value
    with a zero byte is refused (EINVAL) and the environment stays. *)
Definition os_Setenv (key value : string) (env : gmap string string)
  : option (gmap string string) :=
  if String.eqb key ""
     || existsb (fun c => Ascii.eqb c "=" || Ascii.eqb c zero_byte)
          (list_ascii_of_string key)
     || existsb (Ascii.eqb zero_byte) (list_ascii_of_string value)
  then None
  else Some (<[key := value]> env).

Definition getEnv (env : gmap string string) (key fallback : string)
  : string :=
  if negb (String.eqb (os_Getenv env key) "") then os_Getenv env key
  else fallback.

(** One turn of the loop of [loadEnvFile], on a line the scanner gave. *)
Definition loadEnvLine (text : string) (env : gmap string string)
  : gmap string string :=
  let line := strings_TrimSpace text in
  if String.eqb line "" || strings_HasPrefix line "#" then env
  else
    let '(key, value, ok) := strings_Cut line "=" in
    if negb ok then env
    else
      let key := strings_TrimSpace key in
      let value := strings_TrimSpace value in
      let value := strings_Trim value
                     (String (ascii_of_nat 34) (String (ascii_of_nat 39) "")) in
      if String.eqb key "" then env
      else match env !! key with
           | Some _ => env
           | None => match os_Setenv key value env with
                     | Some env' => env'
                     | None => env
                     end
           end.

(** What opening and scanning the file gives: no such file, another error
    of [os.Open], or the lines that the scanner yields and whether it
    stops on an error. *)
Inductive envFile : Type :=
| not_exist
| open_error
| scanned (lines : list string) (scan_error : bool).

(** [loadEnvFile], returning the error message if any and the
    environment it leaves. *)
Definition loadEnvFile (file : envFile) (env : gmap string string)
  : option string * gmap string string :=
  match file with
  | not_exist => (None, env)
  | open_error => (Some "open .env", env)
  | scanned lines scan_error =>
      let env' := fold_left (fun e text => loadEnvLine text e) lines env in
      if scan_error then (Some "read .env", env') else (None, env')
  end.

(** [Load], given what [findRepoRoot] returns and the [.env] file found
    there.  The configuration is returned along with the error of
    [Validate]. *)
Definition Load (root : option string) (file : envFile)
    (env : gmap string string) : option (Config * option string) :=
  match root with
  | None => None
  | Some _ =>
      match loadEnvFile file env with
      | (Some _, _) => None
      | (None, env) =>
          let cfg :=
            mkConfig (getEnv env "PORT" "8080")
              (os_Getenv env "REDIS_URL")
              (os_Getenv env "SESSION_KEY")
              (getEnv env "INSTANCE_NAME" "")
              (mkOAuth (os_Getenv env "OAUTH_GOOGLE_CLIENT_ID")
                 (os_Getenv env "OAUTH_GOOGLE_CLIENT_SECRET")
                 (os_Getenv env "OAUTH_GOOGLE_REDIRECT_URL"))
              (mkOAuth (os_Getenv env "OAUTH_GITHUB_CLIENT_ID")
                 (os_Getenv env "OAUTH_GITHUB_CLIENT_SECRET")
                 (os_Getenv env "OAUTH_GITHUB_REDIRECT_URL"))
              (mkOpenAI (os_Getenv env "OPENAI_API_BASE_URL")
                 (os_Getenv env "OPENAI_API_KEY")
                 (splitCSV (os_Getenv env "OPENAI_API_MODELS"))) in
          Some (cfg, Validate cfg)
      end
  end.

End config.

(** ** package auth

  The [oauth2.Config] of a provider is what the handlers can do with it:
  build the URL of the provider for a state, exchange a code for a
  token, and fetch the provider's answer about the user with the token's
  client.  [A] is the type the answer is decoded into. *)

Module auth.

Definition Provider : Type := string.
Definition ProviderGoogle : Provider := "google".
Definition ProviderGitHub : Provider := "github".

(** A value or an error with its message. *)
Inductive fallible (A : Type) : Type :=
| value (a : A)
| err (msg : string).
Arguments value {A} a.
Arguments err {A} msg.

(** What the provider's API does with a request: the transport fails, or
    there is a response with a status and a body ([None]: the body does
    not decode). *)
Inductive response (A : Type) : Type :=
| transport_error
| responded (StatusCode : Z) (body : option A).
Arguments transport_error {A}.
Arguments responded {A} StatusCode body.

Record oauth2_Config (Token A : Type) : Type := mkOAuth2 {
  AuthCodeURL : string -> string;
  oauth2_Exchange : string -> option Token;
  Get : Token -> response A
}.
Arguments AuthCodeURL {Token A} _ _.
Arguments oauth2_Exchange {Token A} _ _.
Arguments Get {Token A} _ _.

(** An entry of GitHub's list of the user's addresses. *)
Record GitHubEmail : Type := mkEmail {
  Email : string; Primary : bool; Verified : bool }.

Record Service (Token : Type) : Type := mkService {
  GoogleConfig : oauth2_Config Token string;
  GitHubConfig : oauth2_Config Token (list GitHubEmail)
}.
Arguments GoogleConfig {Token} _.
Arguments GitHubConfig {Token} _.

Section Auth.

Context {Token : Type}.

Definition AuthURL (s : Service Token) (provider : Provider) (state : string)
  : fallible string :=
  if String.eqb provider ProviderGoogle
  then value (AuthCodeURL (GoogleConfig s) state)
  else if String.eqb provider ProviderGitHub
  then value (AuthCodeURL (GitHubConfig s) state)
  else err "unsupported provider".

Definition Exchange (s : Service Token) (provider : Provider) (code : string)
  : fallible Token :=
  if String.eqb provider ProviderGoogle
  then match oauth2_Exchange (GoogleConfig s) code with
       | Some token => value token
       | None => err "oauth2: cannot fetch token"
       end
  else if String.eqb provider ProviderGitHub
  then match oauth2_Exchange (GitHubConfig s) code with
       | Some token => value token
       | None => err "oauth2: cannot fetch token"
       end
  else err "unsupported provider".

Definition fetchGoogleEmail (cfg : oauth2_Config Token string)
    (token : Token) : fallible string :=
  match Get cfg token with
  | transport_error => err "google userinfo"
  | responded StatusCode body =>
      if (StatusCode <? 200) || (299 <? StatusCode)
      then err "google userinfo status"
      else match body with
           | None => err "decode google userinfo"
           | Some email =>
               if String.eqb email "" then err "google email missing"
               else value email
           end
  end.

(** The first loop of [fetchGitHubEmail]. *)
Fixpoint first_primary (emails : list GitHubEmail) : option string :=
  match emails with
  | [] => None
  | entry :: emails' =>
      if Primary entry && Verified entry && strings_Contains (Email entry) "@"
      then Some (Email entry)
      else first_primary emails'
  end.

(** The second loop of [fetchGitHubEmail]. *)
Fixpoint first_address (emails : list GitHubEmail) : option string :=
  match emails with
  | [] => None
  | entry :: emails' =>
      if strings_Contains (Email entry) "@" then Some (Email entry)
      else first_address emails'
  end.

Definition fetchGitHubEmail (cfg : oauth2_Config Token (list GitHubEmail))
    (token : Token) : fallible string :=
  match Get cfg token with
  | transport_error => err "github user emails"
  | responded StatusCode body =>
      if (StatusCode <? 200) || (299 <? StatusCode)
      then err "github user emails status"
      else match body with
           | None => err "decode github user emails"
           | Some emails =>
               match first_primary emails with
               | Some email => value email
               | None =>
                   match first_address emails with
                   | Some email => value email
                   | None => err "github email missing"
                   end
               end
           end
  end.

Definition FetchEmail (s : Service Token) (provider : Provider)
    (token : Token) : fallible string :=
  if String.eqb provider ProviderGoogle
  then fetchGoogleEmail (GoogleConfig s) token
  else if String.eqb provider ProviderGitHub
  then fetchGitHubEmail (GitHubConfig s) token
  else err "unsupported provider".

End Auth.

End auth.

(** ** package handler

  A session is the map of its values; the handlers store strings and
  floats in it.  The session of a request is looked up once and kept
  for the request, so the handlers pass it along; [None] is the session
  that [Sessions.Get] fails to give. *)

Module handler.
Import PrimFloat.

Inductive Value : Type :=
| VString (s : string)
| VFloat (f : openai.float64).

Definition Values : Type := gmap string Value.

Definition sessionUserEmail : string := "user_email".
Definition sessionChatID : string := "chat_id".
Definition sessionOAuthState : string := "oauth_state".
Definition sessionOAuthProvider : string := "oauth_provider".
Definition sessionModel : string := "model".
Definition sessionTemperature : string := "temperature".

(** The constants 0.1 and 0.5 as [float64]; 0.1 is the nearest double,
    as for the Go compiler. *)
Definition tenth : openai.float64 := 0x1.999999999999ap-4%float.
Definition half : openai.float64 := 0.5%float.

(** What a handler reads of the request, and whether saving the session
    with given values succeeds. *)
Record gin_Context : Type := mkContext {
  Param_id : string;                          (* c.Param("id") *)
  PostForm : string -> string;
  Query : string -> string;
  BindContent : option string;
    (* c.ShouldBindJSON into a struct with Content *)
  BindPreferences : option (string * string);
    (* c.ShouldBindJSON into a struct with Model and Temperature *)
  Accept : string;                            (* Header.Get("Accept") *)
  FullPath : string;
  Session : option Values;                    (* h.session(c) *)
  Save : Values -> bool                       (* session.Save succeeds *)
}.

(** What a handler writes. *)
Inductive Response : Type :=
| c_String (code : Z) (text : string)
| c_Redirect (code : Z) (location : string)
| c_JSON_messages (code : Z) (user assistant : Message)
    (usage : openai.Usage)
| c_JSON_preferences (code : Z) (model : string)
    (temperature : openai.float64)
| c_HTML_chat (code : Z) (InstanceName UserEmail : string)
    (Chat : ChatView) (Chats : list ChatSummary) (Models : list string)
    (Model : string) (Temperature : openai.float64).

(** What happens to the cookie of the session. *)
Inductive Cookie : Type :=
| kept
| written (values : Values).

(** The cookie after two handlings of it: the later write stays. *)
Definition later (first second : Cookie) : Cookie :=
  match second with
  | kept => first
  | written _ => second
  end.

Record Handler (Token : Type) : Type := mkHandler {
  Config : config.Config;
  Auth : auth.Service Token;
  Chat : Service
}.
Arguments Config {Token} _.
Arguments Auth {Token} _.
Arguments Chat {Token} _.

Definition clampTemperature (value : openai.float64) : openai.float64 :=
  if (value <? tenth)%float then tenth
  else if (1 <? value)%float then 1%float
  else value.

Definition acceptsJSON (c : gin_Context) : bool :=
  strings_Contains (Accept c) "application/json".

(** [session.Values[key].(string)] *)
Definition string_at (values : Values) (key : string) : option string :=
  match values !! key with
  | Some (VString v) => Some v
  | _ => None
  end.

Definition userEmail (session : option Values) : string :=
  match session with
  | None => ""
  | Some values => default "" (string_at values sessionUserEmail)
  end.

Definition getSessionChatID (session : option Values) : string * bool :=
  match session with
  | None => ("", false)
  | Some values =>
      match string_at values sessionChatID with
      | Some v => (v, true)
      | None => ("", false)
      end
  end.

(** [setSessionChatID]: the session after the call, and its cookie when
    the save succeeds. *)
Definition setSessionChatID (c : gin_Context) (session : option Values)
    (chatID : string) : option Values * Cookie :=
  match session with
  | None => (None, kept)
  | Some values =>
      let values := <[sessionChatID := VString chatID]> values in
      (Some values, if Save c values then written values else kept)
  end.

(** [RequireAuth]: whether the request goes on to the handler. *)
Definition RequireAuth (c : gin_Context) : bool :=
  match Session c with
  | None => false
  | Some values =>
      match values !! sessionUserEmail with
      | None => false
      | Some _ => true
      end
  end.

Section Handlers.

Context {JS : Json ChatSummary} {JM : Json Message} {Token : Type}.

(** [strconv.ParseFloat value 64]: [None] when it returns an error. *)
Variable strconv_ParseFloat : string -> option openai.float64.

Definition ensureModel (h : Handler Token) (model : string) : string :=
  let models := config.Models (config.OpenAI (Config h)) in
  if String.eqb model "" then
    match models with
    | first :: _ => first
    | [] => ""
    end
  else if existsb (String.eqb model) models then model
  else match models with
       | first :: _ => first
       | [] => model
       end.

Definition sessionPreferences (h : Handler Token) (session : option Values)
  : string * openai.float64 :=
  match session with
  | None => ("", half)
  | Some values =>
      let model := default "" (string_at values sessionModel) in
      let temperature :=
        match values !! sessionTemperature with
        | Some (VFloat v) => v
        | Some (VString v) => default half (strconv_ParseFloat v)
        | None => half
        end in
      (ensureModel h model, clampTemperature temperature)
  end.

Definition StartOAuth (h : Handler Token) (provider : auth.Provider)
    (state : string) (c : gin_Context) : Response * Cookie :=
  match Session c with
  | None => (c_String 500 "session unavailable", kept)
  | Some values =>
      let values := <[sessionOAuthState := VString state]> values in
      let values := <[sessionOAuthProvider := VString provider]> values in
      if negb (Save c values) then (c_String 500 "session save failed", kept)
      else match auth.AuthURL (Auth h) provider state with
           | auth.err _ => (c_String 500 "oauth config failed", written values)
           | auth.value url => (c_Redirect 302 url, written values)
           end
  end.

Definition HandleOAuthCallback (h : Handler Token) (provider : auth.Provider)
    (c : gin_Context) : Response * Cookie :=
  match Session c with
  | None => (c_String 500 "session unavailable", kept)
  | Some values =>
      let state := Query c "state" in
      let code := Query c "code" in
      if String.eqb state "" || String.eqb code ""
      then (c_String 400 "missing oauth state or code", kept)
      else
        let storedState := default "" (string_at values sessionOAuthState) in
        let storedProvider :=
          default "" (string_at values sessionOAuthProvider) in
        if String.eqb storedState "" || String.eqb storedProvider ""
           || negb (String.eqb storedState state)
           || negb (String.eqb storedProvider provider)
        then (c_String 400 "invalid oauth state", kept)
        else
          match auth.Exchange (Auth h) provider code with
          | auth.err _ => (c_String 400 "oauth exchange failed", kept)
          | auth.value token =>
              match auth.FetchEmail (Auth h) provider token with
              | auth.err _ => (c_String 400 "failed to fetch email", kept)
              | auth.value email =>
                  let values :=
                    <[sessionUserEmail := VString email]> values in
                  let values := <[sessionOAuthState := VString ""]> values in
                  let values :=
                    <[sessionOAuthProvider := VString ""]> values in
                  let values :=
                    match values !! sessionTemperature with
                    | None => <[sessionTemperature := VFloat half]> values
                    | Some _ => values
                    end in
                  let values :=
                    match values !! sessionModel,
                          config.Models (config.OpenAI (Config h)) with
                    | None, first :: _ =>
                        <[sessionModel := VString first]> values
                    | _, _ => values
                    end in
                  if negb (Save c values)
                  then (c_String 500 "session save failed", kept)
                  else (c_Redirect 302 "/", written values)
              end
          end
  end.

Definition ShowChat (h : Handler Token) (c : gin_Context)
  : M (Response * Cookie) :=
  let session := Session c in
  let userEmail := userEmail session in
  let chatID := Param_id c in
  let chatID :=
    if String.eqb chatID "" then fst (getSessionChatID session)
    else chatID in
  let* setup :=
    if String.eqb chatID "" then
      let* r := catch (EnsureChat userEmail) in
      match r with
      | Err _ => ret (inl (c_String 500 "chat setup failed"))
      | Ok summary =>
          ret (inr (ID summary, setSessionChatID c session (ID summary)))
      end
    else ret (inr (chatID, (session, kept))) in
  match setup with
  | inl response => ret (response, kept)
  | inr (chatID, (session, cookie)) =>
      let '(session, cookie) :=
        if negb (String.eqb (Param_id c) "")
        then let '(session', cookie') :=
               setSessionChatID c session chatID in
             (session', later cookie cookie')
        else (session, cookie) in
      let* r := catch (GetChat userEmail chatID) in
      match r with
      | Err _ => ret (c_String 400 "chat not found", cookie)
      | Ok view =>
          let* r := catch (ListChats userEmail) in
          match r with
          | Err _ => ret (c_String 500 "failed to load chats", cookie)
          | Ok chats =>
              let '(model, temperature) := sessionPreferences h session in
              ret (c_HTML_chat 200
                     (config.InstanceName (Config h)) userEmail view chats
                     (config.Models (config.OpenAI (Config h)))
                     model temperature, cookie)
          end
      end
  end.

Definition PostMessage (h : Handler Token) (c : gin_Context) : M Response :=
  let session := Session c in
  let userEmail := userEmail session in
  let chatID := Param_id c in
  if String.eqb chatID "" then ret (c_String 400 "missing chat")
  else
    let content := strings_TrimSpace (PostForm c "content") in
    let bound :=
      if String.eqb content "" then
        match BindContent c with
        | None => None
        | Some payload => Some (strings_TrimSpace payload)
        end
      else Some content in
    match bound with
    | None => ret (c_String 400 "missing message")
    | Some content =>
        if String.eqb content "" then ret (c_String 400 "empty message")
        else
          let* r := catch (AppendMessage userEmail chatID "user" content) in
          match r with
          | Err _ => ret (c_String 500 "failed to save message")
          | Ok userMessage =>
              let '(model, temperature) := sessionPreferences h session in
              let* r := catch (RunCompletion (Chat h) userEmail chatID
                                 model temperature) in
              match r with
              | Err _ => ret (c_String 400 "openai error")
              | Ok (assistantMessage, usage) =>
                  if acceptsJSON c || strings_HasPrefix (FullPath c) "/api/"
                  then ret (c_JSON_messages 200 userMessage
                              assistantMessage usage)
                  else ret (c_Redirect 302 ("/chat/" +:+ chatID))
              end
          end
    end.

Definition UpdatePreferences (h : Handler Token) (c : gin_Context)
  : Response * Cookie :=
  let model := strings_TrimSpace (PostForm c "model") in
  let tempValue := strings_TrimSpace (PostForm c "temperature") in
  let '(model, tempValue) :=
    if String.eqb model "" then
      match BindPreferences c with
      | Some (payloadModel, payloadTemperature) =>
          (strings_TrimSpace payloadModel,
           strings_TrimSpace payloadTemperature)
      | None => (model, tempValue)
      end
    else (model, tempValue) in
  let temperature := default half (strconv_ParseFloat tempValue) in
  let temperature := clampTemperature temperature in
  let model := ensureModel h model in
  match Session c with
  | None => (c_String 500 "session unavailable", kept)
  | Some values =>
      let values :=
        if negb (String.eqb model "")
        then <[sessionModel := VString model]> values else values in
      let values := <[sessionTemperature := VFloat temperature]> values in
      if negb (Save c values) then (c_String 500 "session save failed", kept)
      else if acceptsJSON c
      then (c_JSON_preferences 200 model temperature, written values)
      else (c_Redirect 302 "/", written values)
  end.

(** A handler of the group behind [RequireAuth]; [login] is the
    redirection to "/login". *)
Definition authed {A} (c : gin_Context) (login : A) (handler : M A) : M A :=
  if RequireAuth c then handler else ret login.

End Handlers.

End handler.

(** ** Sample configuration, providers and requests *)

Module requests.
Import jsontext samples.

(** A parser that reads the two texts the samples use. *)
Definition parse (value : string) : option openai.float64 :=
  if String.eqb value "2" then Some PrimFloat.two
  else if String.eqb value "0.5" then Some handler.half
  else None.

Definition cfg0 : config.Config :=
  config.mkConfig "8080" "redis://localhost:6379/0" "session-key" "smartchat"
    (config.mkOAuth "google-id" "google-secret" "http://chat.local/google")
    (config.mkOAuth "github-id" "github-secret" "http://chat.local/github")
    (config.mkOpenAI "http://ai.local/v1" "key" ["model-x"; "model-y"]).

(** Providers that accept the code "code-1"; Google knows the user as
    "u", GitHub lists three addresses for the user. *)
Definition auth0 : auth.Service string :=
  auth.mkService string
    (auth.mkOAuth2 string string
       (fun state => "https://accounts.google.test/auth?state=" +:+ state)
       (fun code => if String.eqb code "code-1" then Some "token-1" else None)
       (fun _ => auth.responded 200 (Some "u")))
    (auth.mkOAuth2 string (list auth.GitHubEmail)
       (fun state => "https://github.test/authorize?state=" +:+ state)
       (fun code => if String.eqb code "code-1" then Some "token-1" else None)
       (fun _ =>
          auth.responded 200
            (Some [auth.mkEmail "alias" true true;
                   auth.mkEmail "u@work" false false;
                   auth.mkEmail "u@home" true true]))).

Definition h0 : handler.Handler string :=
  handler.mkHandler string cfg0 auth0 fine.
Definition h_down : handler.Handler string :=
  handler.mkHandler string cfg0 auth0 down.

(** The sessions of the users "u" and "v", and one that waits for the
    callback of Google. *)
Definition session_of (user : string) : handler.Values :=
  <[handler.sessionUserEmail := handler.VString user]> ∅.

Definition pending : handler.Values :=
  <[handler.sessionOAuthState := handler.VString "state-1"]>
    (<[handler.sessionOAuthProvider := handler.VString "google"]> ∅).

(** A message posted to the API, a change of preferences, the page of
    a chat and the callback of a provider. *)
Definition post (session : handler.Values) (id content : string)
  : handler.gin_Context :=
  handler.mkContext id
    (fun key => if String.eqb key "content" then content else "")
    (fun _ => "") None None "application/json" "/api/chat/:id/message"
    (Some session) (fun _ => true).

Definition preferences (session : handler.Values)
    (model temperature : string) : handler.gin_Context :=
  handler.mkContext ""
    (fun key => if String.eqb key "model" then model
                else if String.eqb key "temperature" then temperature
                else "")
    (fun _ => "") None None "application/json" "/api/preferences"
    (Some session) (fun _ => true).

Definition page (session : handler.Values) (id : string)
  : handler.gin_Context :=
  handler.mkContext id (fun _ => "") (fun _ => "") None None "text/html"
    (if String.eqb id "" then "/" else "/chat/:id")
    (Some session) (fun _ => true).

Definition callback (session : handler.Values) (state code : string)
  : handler.gin_Context :=
  handler.mkContext "" (fun _ => "")
    (fun key => if String.eqb key "state" then state
                else if String.eqb key "code" then code
                else "")
    None None "text/html" "/auth/google/callback"
    (Some session) (fun _ => true).

(** The environment and the [.env] file of a deployment. *)
Definition env0 : gmap string string :=
  <["REDIS_URL" := "redis://env:6379/0"]> (<["PORT" := ""]> ∅).

Definition dotenv : list string :=
  [ "# settings"; "";
    "PORT=9090";
    "REDIS_URL=redis://file:6379/0";
    "SESSION_KEY = 'secret'";
    "INSTANCE_NAME=smartchat";
    "OAUTH_GOOGLE_CLIENT_ID=a"; "OAUTH_GOOGLE_CLIENT_SECRET=b";
    "OAUTH_GOOGLE_REDIRECT_URL=c";
    "OAUTH_GITHUB_CLIENT_ID=d"; "OAUTH_GITHUB_CLIENT_SECRET=e";
    "OAUTH_GITHUB_REDIRECT_URL=f";
    "OPENAI_API_BASE_URL=http://ai.local/v1";
    "OPENAI_API_KEY=key";
    "OPENAI_API_MODELS= model-x , model-y,";
    "OPENAI_API_MODELS=other" ].

End requests.

(** * Properties *)

(** ** Keys: the four families are disjoint and each is injective *)

Ltac key_neq :=
  unfold userChatsKey, chatMetaKey, chatMessagesKey, chatOwnerKey;
  let H := fresh in
  intros H; cbv beta iota delta [String.append] in H; congruence.

Ltac key_inj :=
  unfold userChatsKey, chatMetaKey, chatMessagesKey, chatOwnerKey;
  cbv beta iota delta [String.append]; congruence.

Lemma chatMetaKey_inj a b : chatMetaKey a = chatMetaKey b -> a = b.
Proof. key_inj. Qed.
Lemma chatOwnerKey_inj a b : chatOwnerKey a = chatOwnerKey b -> a = b.
Proof. key_inj. Qed.
Lemma chatMessagesKey_inj a b : chatMessagesKey a = chatMessagesKey b -> a = b.
Proof. key_inj. Qed.
Lemma userChatsKey_inj a b : userChatsKey a = userChatsKey b -> a = b.
Proof. key_inj. Qed.

Lemma meta_owner a b : chatMetaKey a <> chatOwnerKey b.
Proof. key_neq. Qed.
Lemma owner_meta a b : chatOwnerKey a <> chatMetaKey b.
Proof. key_neq. Qed.
Lemma meta_messages a b : chatMetaKey a <> chatMessagesKey b.
Proof. key_neq. Qed.
Lemma messages_meta a b : chatMessagesKey a <> chatMetaKey b.
Proof. key_neq. Qed.
Lemma meta_index a b : chatMetaKey a <> userChatsKey b.
Proof. key_neq. Qed.
Lemma index_meta a b : userChatsKey a <> chatMetaKey b.
Proof. key_neq. Qed.
Lemma owner_messages a b : chatOwnerKey a <> chatMessagesKey b.
Proof. key_neq. Qed.
Lemma messages_owner a b : chatMessagesKey a <> chatOwnerKey b.
Proof. key_neq. Qed.
Lemma owner_index a b : chatOwnerKey a <> userChatsKey b.
Proof. key_neq. Qed.
Lemma index_owner a b : userChatsKey a <> chatOwnerKey b.
Proof. key_neq. Qed.
Lemma messages_index a b : chatMessagesKey a <> userChatsKey b.
Proof. key_neq. Qed.
Lemma index_messages a b : userChatsKey a <> chatMessagesKey b.
Proof. key_neq. Qed.

Create HintDb keys.
#[export] Hint Resolve meta_owner owner_meta meta_messages messages_meta
  meta_index index_meta owner_messages messages_owner owner_index index_owner
  messages_index index_messages : keys.

(** Looks a key up through the inserts of other families. *)
Ltac lookup_keys :=
  repeat first
    [ rewrite lookup_insert_eq
    | rewrite lookup_insert_ne by auto with keys
    | rewrite lookup_delete_ne by auto with keys ].

(** ** The world *)

Lemma db_tick w : db (tick w) = db w.
Proof. reflexivity. Qed.

Lemma tick_quiet w : faults w = [] -> tick w = w.
Proof. destruct w; simpl; intros ->; reflexivity. Qed.

Lemma round_trip_eq w :
  round_trip w =
  if hd false (faults w) then (Err redis_Unavailable, tick w)
  else (Ok tt, tick w).
Proof. reflexivity. Qed.

Lemma redis_Get_eq key w :
  redis_Get key w =
  if hd false (faults w) then (Err redis_Unavailable, tick w)
  else match db w !! key with
       | None => (Err redis_Nil, tick w)
       | Some (RString v) => (Ok v, tick w)
       | Some (RList _) => (Err redis_WrongType, tick w)
       end.
Proof.
  unfold redis_Get, bind, round_trip, tick.
  destruct (hd false (faults w)); reflexivity.
Qed.

Lemma redis_LRange_eq key start stop w :
  redis_LRange key start stop w =
  if hd false (faults w) then (Err redis_Unavailable, tick w)
  else match db w !! key with
       | None => (Ok [], tick w)
       | Some (RList l) => (Ok (lrange l start stop), tick w)
       | Some (RString _) => (Err redis_WrongType, tick w)
       end.
Proof.
  unfold redis_LRange, bind, round_trip, tick.
  destruct (hd false (faults w)); reflexivity.
Qed.

Lemma redis_RPush_eq key value w :
  redis_RPush key value w =
  if hd false (faults w) then (Err redis_Unavailable, tick w)
  else match db w !! key with
       | None => (Ok tt, set_db (<[key := RList [value]]> (db w)) (tick w))
       | Some (RList l) =>
           (Ok tt, set_db (<[key := RList (l ++ [value])]> (db w)) (tick w))
       | Some (RString _) => (Err redis_WrongType, tick w)
       end.
Proof.
  unfold redis_RPush, bind, round_trip, tick.
  destruct (hd false (faults w)); reflexivity.
Qed.

(** ** The transaction of [saveChatMeta] *)

Lemma run_cmds_save user id payload (d : gmap string RValue) :
  run_cmds [ pipe_Set (chatMetaKey id) payload;
             pipe_Set (chatOwnerKey id) user;
             pipe_LRem (userChatsKey user) 0 id;
             pipe_LPush (userChatsKey user) id ] d =
  match d !! userChatsKey user with
  | Some (RString _) => (Some redis_WrongType, half_saved user id payload d)
  | _ => (None, saved user id payload d)
  end.
Proof.
  unfold saved, half_saved, index. simpl. lookup_keys.
  destruct (d !! userChatsKey user) as [[v|l]|] eqn:E.
  - lookup_keys. rewrite E. reflexivity.
  - unfold lrem. simpl.
    destruct (filter (fun x => x <> id) l) as [|x l'] eqn:F.
    + rewrite lookup_delete_eq. rewrite insert_delete_eq. reflexivity.
    + rewrite lookup_insert_eq. rewrite insert_insert_eq. reflexivity.
  - lookup_keys. rewrite E. reflexivity.
Qed.

(** ** What [encoding/json] reads back *)

Lemma json_bytes_twice (bs : list ascii) :
  json_bytes (json_bytes bs) = json_bytes bs.
Proof.
  induction bs as [bs IH] using (induction_ltof1 _ (@length ascii)).
  unfold ltof in IH.
  assert (Hrep : forall l,
             json_bytes l = l ->
             json_bytes (replacement ++ l)%list = (replacement ++ l)%list).
  { intros l Hl. cbn. rewrite Hl. reflexivity. }
  destruct bs as [|a r1]; [reflexivity|].
  cbn [json_bytes].
  destruct (byte_of a <? 0x80)%N eqn:Ea.
  { cbn [json_bytes]. rewrite Ea, IH by (simpl; lia). reflexivity. }
  destruct r1 as [|b r2]; [reflexivity|].
  destruct (rune2 a b) eqn:E2.
  { cbn [json_bytes]. rewrite Ea, E2, IH by (simpl; lia). reflexivity. }
  destruct r2 as [|c r3].
  { apply Hrep, IH. simpl; lia. }
  destruct (rune3 a b c) eqn:E3.
  { cbn [json_bytes]. rewrite Ea, E2, E3, IH by (simpl; lia).
    reflexivity. }
  destruct r3 as [|d r4].
  { apply Hrep, IH. simpl; lia. }
  destruct (rune4 a b c d) eqn:E4.
  { cbn [json_bytes]. rewrite Ea, E2, E3, E4, IH by (simpl; lia).
    reflexivity. }
  apply Hrep, IH. simpl; lia.
Qed.

Lemma json_text_twice (s : string) : json_text (json_text s) = json_text s.
Proof.
  unfold json_text.
  rewrite list_ascii_of_string_of_list_ascii, json_bytes_twice.
  reflexivity.
Qed.

(** A text of single-byte characters is read back as it is. *)
Lemma json_text_single_byte (s : string) :
  single_byte s = true -> json_text s = s.
Proof.
  unfold single_byte, json_text. intros H.
  rewrite <- (string_of_list_ascii_of_string s) at 2. f_equal.
  induction (list_ascii_of_string s) as [|a l IH]; [reflexivity|].
  cbn [forallb] in H. apply andb_true_iff in H as [Ha Hl].
  cbn [json_bytes]. rewrite Ha, (IH Hl). reflexivity.
Qed.

Lemma single_byte_substring (s : string) (n m : nat) :
  single_byte s = true -> single_byte (String.substring n m s) = true.
Proof.
  unfold single_byte. revert n m.
  induction s as [|c s IH]; intros n m H; [destruct n, m; reflexivity|].
  cbn [list_ascii_of_string forallb] in H.
  apply andb_true_iff in H as [Hc Hs].
  destruct n as [|n]; destruct m as [|m]; cbn [String.substring];
    try reflexivity.
  - cbn [list_ascii_of_string forallb]. rewrite Hc. apply IH, Hs.
  - apply IH, Hs.
  - apply IH, Hs.
Qed.

Lemma json_summary_twice (s : ChatSummary) :
  json_summary (json_summary s) = json_summary s.
Proof.
  unfold json_summary. cbn [ID Title UpdatedAt].
  rewrite !json_text_twice. reflexivity.
Qed.

Lemma json_message_twice (m : Message) :
  json_message (json_message m) = json_message m.
Proof.
  unfold json_message. cbn [Role Content CreatedAt].
  rewrite !json_text_twice. reflexivity.
Qed.

(** ** The generator of identifiers is left alone *)

Lemma steady_ret {A} (a : A) : steady (ret a).
Proof. intros w. split; [reflexivity | cbn; lia]. Qed.

Lemma steady_fail {A} (e : error) : steady (@fail A e).
Proof. intros w. split; [reflexivity | cbn; lia]. Qed.

Lemma steady_bind {A B} (m : M A) (k : A -> M B) :
  steady m -> (forall a, steady (k a)) -> steady (bind m k).
Proof.
  intros Hm Hk w. unfold bind. destruct (Hm w) as [H1 H2].
  destruct (m w) as [[a|e] w1]; cbn [snd] in *; [|auto].
  destruct (Hk a w1) as [H3 H4]. split; [congruence | lia].
Qed.

Lemma steady_catch {A} (m : M A) : steady m -> steady (catch m).
Proof.
  intros Hm w. unfold catch. destruct (Hm w) as [H1 H2].
  destruct (m w) as [r w1]; cbn [snd] in *. auto.
Qed.

Lemma steady_round_trip : steady round_trip.
Proof.
  intros w. unfold round_trip. destruct (hd false (faults w));
    (split; [reflexivity | cbn; lia]).
Qed.

Ltac steady_command :=
  apply steady_bind; [apply steady_round_trip|];
  intros _ w;
  repeat match goal with
         | |- context [match ?x with _ => _ end] => destruct x
         end;
  (split; [reflexivity | cbn; lia]).

Lemma steady_Now : steady time_Now.
Proof. intros w. split; [reflexivity | cbn; lia]. Qed.

Lemma steady_NewString : steady uuid_NewString.
Proof. intros w. split; [reflexivity | cbn; lia]. Qed.

Lemma steady_Get (key : string) : steady (redis_Get key).
Proof. unfold redis_Get. steady_command. Qed.

Lemma steady_LRange (key : string) (start stop : Z) :
  steady (redis_LRange key start stop).
Proof. unfold redis_LRange. steady_command. Qed.

Lemma steady_RPush (key value : string) : steady (redis_RPush key value).
Proof. unfold redis_RPush. steady_command. Qed.

Lemma steady_Exec (cs : list Cmd) : steady (pipe_Exec cs).
Proof. unfold pipe_Exec. steady_command. Qed.

Ltac steady_step :=
  first
    [ apply steady_ret | apply steady_fail | apply steady_Now
    | apply steady_NewString | apply steady_Get | apply steady_LRange
    | apply steady_RPush | apply steady_Exec
    | apply steady_catch
    | apply steady_bind; [|intros ?]
    | match goal with
      | |- steady (match ?x with _ => _ end) => destruct x
      end ].

Section ChatProofs.

Context {JS : Json ChatSummary} {JM : Json Message}.

Lemma saveChatMeta_eq user summary w :
  saveChatMeta user summary w =
  match json_Marshal summary with
  | None => (Err json_Error, w)
  | Some payload =>
      if hd false (faults w) then (Err redis_Unavailable, tick w)
      else match db w !! userChatsKey user with
           | Some (RString _) =>
               (Err redis_WrongType,
                set_db (half_saved user (ID summary) payload (db w)) (tick w))
           | _ => (Ok tt,
                   set_db (saved user (ID summary) payload (db w)) (tick w))
           end
  end.
Proof.
  unfold saveChatMeta.
  destruct (json_Marshal summary) as [payload|]; [|reflexivity].
  unfold pipe_Exec, bind. rewrite round_trip_eq.
  destruct (hd false (faults w)); [reflexivity|].
  rewrite run_cmds_save. rewrite db_tick.
  destruct (db w !! userChatsKey user) as [[v|l]|]; reflexivity.
Qed.

Lemma verifyOwner_eq user chatID w :
  verifyOwner user chatID w =
  if hd false (faults w) then (Err redis_Unavailable, tick w)
  else match db w !! chatOwnerKey chatID with
       | None => (Ok false, tick w)
       | Some (RString owner) => (Ok (String.eqb owner user), tick w)
       | Some (RList _) => (Err redis_WrongType, tick w)
       end.
Proof.
  unfold verifyOwner, bind, catch. rewrite redis_Get_eq.
  destruct (hd false (faults w)); [reflexivity|].
  destruct (db w !! chatOwnerKey chatID) as [[v|l]|]; reflexivity.
Qed.

(** C1. A caller who is not the recorded owner of [chatID], or who names a
    chat with no ownership record, is refused by [GetChat] and by
    [AppendMessage] with the same error, "not authorized", and the server
    is left as it was: the two situations cannot be told apart.  The
    comparison of identities is the byte-wise equality of strings. *)
Theorem ownership_isolation (w : World) (U2 chatID role content : string) :
  answered w ->
  (db w !! chatOwnerKey chatID = None \/
   exists U1, db w !! chatOwnerKey chatID = Some (RString U1) /\ U1 <> U2) ->
  GetChat U2 chatID w = (Err not_authorized, tick w) /\
  AppendMessage U2 chatID role content w = (Err not_authorized, tick w) /\
  db (tick w) = db w.
Proof.
  intros Hans Hown.
  assert (Hv : verifyOwner U2 chatID w = (Ok false, tick w)).
  { rewrite verifyOwner_eq, Hans.
    destruct Hown as [-> | (U1 & -> & Hne)]; [reflexivity|].
    apply String.eqb_neq in Hne. rewrite Hne. reflexivity. }
  unfold GetChat, AppendMessage, bind. rewrite Hv. simpl. auto.
Qed.

(** *** Reading the server after [saveChatMeta] *)

Ltac key_cases :=
  rewrite ?lookup_insert; repeat case_decide; simplify_eq; try reflexivity;
  try match goal with
      | H : _ = _ |- _ => exfalso; revert H; key_neq
      end;
  try match goal with
      | H : _ = _ |- _ => first [ apply chatMetaKey_inj in H
                                | apply chatOwnerKey_inj in H
                                | apply userChatsKey_inj in H ]; congruence
      end.

Lemma lookup_saved_meta user id p d k :
  saved user id p d !! chatMetaKey k =
  if decide (k = id) then Some (RString p) else d !! chatMetaKey k.
Proof. unfold saved. key_cases. Qed.

Lemma lookup_saved_owner user id p d k :
  saved user id p d !! chatOwnerKey k =
  if decide (k = id) then Some (RString user) else d !! chatOwnerKey k.
Proof. unfold saved. key_cases. Qed.

Lemma lookup_saved_messages user id p d k :
  saved user id p d !! chatMessagesKey k = d !! chatMessagesKey k.
Proof. unfold saved. key_cases. Qed.

Lemma lookup_saved_index user id p d u :
  saved user id p d !! userChatsKey u =
  if decide (u = user)
  then Some (RList (id :: filter (fun x => x <> id) (index d user)))
  else d !! userChatsKey u.
Proof. unfold saved. key_cases. Qed.

Lemma lookup_half_saved_meta user id p d k :
  half_saved user id p d !! chatMetaKey k =
  if decide (k = id) then Some (RString p) else d !! chatMetaKey k.
Proof. unfold half_saved. key_cases. Qed.

Lemma lookup_half_saved_owner user id p d k :
  half_saved user id p d !! chatOwnerKey k =
  if decide (k = id) then Some (RString user) else d !! chatOwnerKey k.
Proof. unfold half_saved. key_cases. Qed.

Lemma lookup_half_saved_messages user id p d k :
  half_saved user id p d !! chatMessagesKey k = d !! chatMessagesKey k.
Proof. unfold half_saved. key_cases. Qed.

Lemma lookup_half_saved_index user id p d u :
  half_saved user id p d !! userChatsKey u = d !! userChatsKey u.
Proof. unfold half_saved. key_cases. Qed.

Lemma paired_saved user id payload d :
  paired d -> paired (saved user id payload d).
Proof.
  intros P k. rewrite lookup_saved_meta, lookup_saved_owner.
  case_decide; [split; eauto | apply P].
Qed.

Lemma paired_half_saved user id payload d :
  paired d -> paired (half_saved user id payload d).
Proof.
  intros P k. rewrite lookup_half_saved_meta, lookup_half_saved_owner.
  case_decide; [split; eauto | apply P].
Qed.

(** *** Ranges *)

Lemma lrange_all (l : list string) : lrange l 0 (-1) = l.
Proof.
  unfold lrange. simpl.
  destruct (Z.ltb_spec (Z.min (Z.of_nat (length l) + -1)
                              (Z.of_nat (length l) - 1)) 0) as [H|H].
  - destruct l; [reflexivity | simpl in H; lia].
  - rewrite drop_0. apply take_ge. lia.
Qed.

Lemma lrange_20 (l : list string) : lrange l 0 19 = take 20 l.
Proof.
  unfold lrange. simpl.
  destruct (Z.ltb_spec (Z.min 19 (Z.of_nat (length l) - 1)) 0) as [H|H].
  - destruct l; [reflexivity | simpl in H; lia].
  - rewrite drop_0.
    destruct (Z.le_gt_cases 19 (Z.of_nat (length l) - 1)) as [G|G].
    + rewrite Z.min_l by lia. reflexivity.
    + rewrite Z.min_r by lia. rewrite !take_ge by lia. reflexivity.
Qed.

(** *** Titles *)

Lemma substring_all (s : string) (n : nat) :
  (String.length s <= n)%nat -> String.substring 0 n s = s.
Proof.
  revert n. induction s as [|c s IH]; intros [|n] H; simpl in *;
    try reflexivity; try lia.
  rewrite IH by lia. reflexivity.
Qed.

Lemma summarizeTitle_eq (content : string) :
  summarizeTitle content = String.substring 0 32 (strings_TrimSpace content).
Proof.
  unfold summarizeTitle.
  destruct (Nat.ltb_spec 32 (String.length (strings_TrimSpace content)));
    [reflexivity|].
  symmetry. apply substring_all. assumption.
Qed.

Lemma touchChat_eq user chatID content w :
  touchChat user chatID content w =
  if hd false (faults w) then (Err redis_Unavailable, tick w)
  else match db w !! chatMetaKey chatID with
       | None => (Err redis_Nil, tick w)
       | Some (RList _) => (Err redis_WrongType, tick w)
       | Some (RString metaData) =>
           match json_Unmarshal metaData with
           | None => (Err json_Error, tick w)
           | Some summary =>
               saveChatMeta user
                 (mkSummary (ID summary)
                    (if String.eqb (Title summary) "New chat"
                        && negb (String.eqb (strings_TrimSpace content) "")
                     then summarizeTitle content else Title summary)
                    (now w))
                 (snd (time_Now (tick w)))
           end
       end.
Proof.
  unfold touchChat, bind. rewrite redis_Get_eq.
  destruct (hd false (faults w)); [reflexivity|].
  destruct (db w !! chatMetaKey chatID) as [[p|l]|]; try reflexivity.
  destruct (json_Unmarshal p); reflexivity.
Qed.

(** *** Listing *)

Lemma length_omap_le {A B} (f : A -> option B) (l : list A) :
  (length (omap f l) <= length l)%nat.
Proof.
  induction l as [|a l IH]; csimpl; [lia|].
  destruct (f a); simpl; lia.
Qed.

Lemma omap_cons {A B} (f : A -> option B) (a : A) (l : list A) :
  omap f (a :: l) =
  match f a with Some b => b :: omap f l | None => omap f l end.
Proof. reflexivity. Qed.

Lemma ListChats_loop_spec (ids : list string) :
  forall (acc : list ChatSummary) (w : World),
  exists res w',
    ListChats_loop ids acc w = (Ok (acc ++ res)%list, w') /\
    db w' = db w /\
    res `sublist_of` omap (resolve (db w)) ids /\
    (faults w = [] -> res = omap (resolve (db w)) ids /\ w' = w).
Proof.
  induction ids as [|id ids IH]; intros acc w.
  - exists [], w. simpl. unfold ret. rewrite app_nil_r. auto.
  - assert (Hskip : resolve (db w) id = None \/ hd false (faults w) = true ->
             exists res w',
               ListChats_loop ids acc (tick w) = (Ok (acc ++ res)%list, w') /\
               db w' = db w /\
               res `sublist_of` omap (resolve (db w)) (id :: ids) /\
               (faults w = [] ->
                res = omap (resolve (db w)) (id :: ids) /\ w' = w)).
    { intros Hn. destruct (IH acc (tick w)) as (res & w' & E & Hd & Hs & Hq).
      exists res, w'. split; [exact E|]. split; [exact Hd|].
      rewrite omap_cons. split.
      - destruct (resolve (db w) id); [apply sublist_cons|]; exact Hs.
      - intros Q. destruct Hn as [Hn|Hn].
        + rewrite Hn.
          destruct Hq as [-> ->]; [simpl; rewrite Q; reflexivity|].
          split; [reflexivity | apply tick_quiet, Q].
        + rewrite Q in Hn. discriminate. }
    cbn [ListChats_loop]. unfold bind, catch. rewrite redis_Get_eq.
    destruct (hd false (faults w)) eqn:Hf; [apply Hskip; auto|].
    unfold resolve in Hskip at 1.
    destruct (db w !! chatMetaKey id) as [[p|l]|] eqn:El;
      try (apply Hskip; auto).
    destruct (json_Unmarshal p) as [s|] eqn:Eu; [|apply Hskip; auto].
    destruct (IH (acc ++ [s])%list (tick w)) as (res & w' & E & Hd & Hs & Hq).
    exists (s :: res), w'. rewrite E, <- app_assoc. cbn [app].
    split; [reflexivity|]. split; [exact Hd|].
    assert (Hr : resolve (db w) id = Some s)
      by (unfold resolve; rewrite El; exact Eu).
    rewrite omap_cons, Hr. split.
    + apply sublist_skip. exact Hs.
    + intros Q.
      destruct Hq as [-> ->]; [simpl; rewrite Q; reflexivity|].
      split; [reflexivity | apply tick_quiet, Q].
Qed.

(** [ListChats] reads the server and never writes to it. *)
Lemma ListChats_reads (w : World) (user : string) :
  db (snd (ListChats user w)) = db w.
Proof.
  unfold ListChats, bind, catch. rewrite redis_LRange_eq.
  destruct (hd false (faults w)); [reflexivity|].
  destruct (db w !! userChatsKey user) as [[v|l]|]; try reflexivity.
  simpl. destruct (length (lrange l 0 19) =? 0)%nat; [reflexivity|].
  destruct (ListChats_loop_spec (lrange l 0 19) [] (tick w))
    as (res & w' & E & Hd & _).
  rewrite E. exact Hd.
Qed.

(** On a server that answers, [ListChats] returns the summaries of the 20
    most recent identifiers whose record exists and decodes, and leaves
    the world as it was. *)
Lemma ListChats_quiet (w : World) (user : string) :
  faults w = [] ->
  list_key (db w) (userChatsKey user) ->
  ListChats user w
  = (Ok (omap (resolve (db w)) (take 20 (index (db w) user))), w).
Proof.
  intros Q Hl. unfold ListChats, bind, catch.
  rewrite redis_LRange_eq, Q, (tick_quiet w Q). cbn [hd]. unfold index.
  destruct (db w !! userChatsKey user) as [[v|l]|] eqn:E.
  - exfalso. apply (Hl v). exact E.
  - cbv beta iota. unfold ret at 1. cbv beta iota. rewrite lrange_20.
    destruct (take 20 l) as [|id ids] eqn:T; [reflexivity|].
    cbn [length Nat.eqb].
    destruct (ListChats_loop_spec (id :: ids) [] w)
      as (res & w' & E' & _ & _ & Hq).
    destruct (Hq Q) as [-> ->]. exact E'.
  - reflexivity.
Qed.

(** C7. When the index can be read, [ListChats] succeeds whatever the state
    of the summary records: it returns at most 20 summaries, taken in
    index order from the records of the 20 most recent identifiers, and
    when every read is answered they are exactly the summaries of those
    identifiers whose record exists and decodes.  It writes nothing. *)
Theorem ListChats_window (w : World) (user : string) :
  answered w ->
  list_key (db w) (userChatsKey user) ->
  exists summaries w',
    ListChats user w = (Ok summaries, w') /\
    db w' = db w /\
    (length summaries <= 20)%nat /\
    summaries `sublist_of`
      omap (resolve (db w)) (take 20 (index (db w) user)) /\
    (faults w = [] ->
     summaries = omap (resolve (db w)) (take 20 (index (db w) user))).
Proof.
  intros Hans Hl. unfold answered in Hans.
  assert (Hlen : forall ss : list ChatSummary,
             ss `sublist_of`
               omap (resolve (db w)) (take 20 (index (db w) user)) ->
             (length ss <= 20)%nat).
  { intros ss Hs. apply sublist_length in Hs.
    pose proof (length_omap_le (resolve (db w)) (take 20 (index (db w) user))).
    rewrite length_take in *. lia. }
  unfold ListChats, bind, catch. rewrite redis_LRange_eq, Hans.
  unfold index in *.
  destruct (db w !! userChatsKey user) as [[v|l]|] eqn:E.
  - exfalso. apply (Hl v). exact E.
  - simpl. rewrite lrange_20.
    destruct (take 20 l) as [|id ids] eqn:T.
    + simpl. exists [], (tick w). unfold ret. repeat split; auto; simpl; lia.
    + cbn [length Nat.eqb].
      destruct (ListChats_loop_spec (id :: ids) [] (tick w))
        as (res & w' & E' & Hd & Hs & Hq).
      exists res, w'. simpl in E'. simpl. rewrite E'.
      split; [reflexivity|]. split; [exact Hd|].
      split; [apply Hlen; exact Hs|]. split; [exact Hs|].
      intros Q. apply Hq. simpl. rewrite Q. reflexivity.
  - simpl. exists [], (tick w). unfold ret. repeat split; auto; simpl; lia.
Qed.

(** C5 (as amended). [EnsureChat] returns the first summary that
    [ListChats] yields and writes nothing; only when the listing is empty
    does it create a chat, exactly one, through [NewChat] with the title
    "New chat"; when the listing fails it fails and writes nothing.  On a
    server that answers every read, the listing is that of the records
    that exist and decode among the 20 most recent identifiers: a user
    whose most recent chat has a readable record gets that chat back and
    nothing is created, and a user whose index is empty gets a new
    chat. *)
Theorem EnsureChat_listing (w : World) (user : string) :
  let w1 := snd (ListChats user w) in
  db w1 = db w /\
  match fst (ListChats user w) with
  | Ok (summary :: _) => EnsureChat user w = (Ok summary, w1)
  | Ok [] =>
      EnsureChat user w = NewChat user "New chat" w1 /\
      forall summary w',
        NewChat user "New chat" w1 = (Ok summary, w') ->
        Title summary = "New chat" /\
        exists payload,
          json_Marshal summary = Some payload /\
          db w' = saved user (ID summary) payload (db w)
  | Err e => EnsureChat user w = (Err e, w1)
  end /\
  (faults w = [] ->
   list_key (db w) (userChatsKey user) ->
   match omap (resolve (db w)) (take 20 (index (db w) user)) with
   | summary :: _ => EnsureChat user w = (Ok summary, w)
   | [] => EnsureChat user w = NewChat user "New chat" w
   end /\
   (forall chatID rest summary,
       index (db w) user = chatID :: rest ->
       resolve (db w) chatID = Some summary ->
       EnsureChat user w = (Ok summary, w)) /\
   (index (db w) user = [] ->
    EnsureChat user w = NewChat user "New chat" w)).
Proof.
  intros w1. subst w1. split; [apply ListChats_reads|].
  split.
  - unfold EnsureChat, bind.
    pose proof (ListChats_reads w user) as Hr.
    destruct (ListChats user w) as [[[|s ss]|e] w1]; simpl in *; auto.
    split; [reflexivity|].
    intros summary w'. unfold NewChat, bind, uuid_NewString, time_Now.
    simpl. rewrite saveChatMeta_eq. simpl.
    match goal with
    | |- context [json_Marshal ?s] => set (s0 := s)
    end.
    destruct (json_Marshal s0) as [payload|] eqn:EM; [|discriminate].
    simpl. destruct (hd false (faults w1)); [discriminate|].
    rewrite Hr.
    destruct (db w !! userChatsKey user) as [[v|l]|]; simpl;
      try discriminate; intros [= <- <-]; (split; [reflexivity|]);
      exists payload; auto.
  - intros Q Hl. unfold EnsureChat, bind.
    rewrite (ListChats_quiet w user Q Hl).
    split; [|split].
    + destruct (omap (resolve (db w)) (take 20 (index (db w) user)));
        reflexivity.
    + intros chatID rest summary -> Hr. cbn [take]. rewrite omap_cons, Hr.
      reflexivity.
    + intros ->. reflexivity.
Qed.

(** *** What the writing calls do to the server *)

Lemma touchChat_touched user chatID content w r w' :
  touchChat user chatID content w = (r, w') ->
  touched user chatID content (db w) r (db w').
Proof.
  rewrite touchChat_eq. unfold resolve.
  destruct (hd false (faults w)); [intros [= <- <-]; constructor|].
  destruct (db w !! chatMetaKey chatID) as [[p|l]|] eqn:El;
    try (intros [= <- <-]; constructor).
  destruct (json_Unmarshal p) as [summary|] eqn:Eu;
    [|intros [= <- <-]; constructor].
  rewrite saveChatMeta_eq.
  match goal with
  | |- context [json_Marshal ?s] =>
      destruct (json_Marshal s) as [payload|] eqn:EM
  end; [|intros [= <- <-]; constructor].
  cbn [time_Now snd faults db tick set_faults].
  destruct (hd false (tl (faults w))); [intros [= <- <-]; constructor|].
  destruct (db w !! userChatsKey user) as [[v|l]|] eqn:Ei;
    intros [= <- <-]; cbn [db set_db ID].
  - eapply touched_half; [unfold resolve; rewrite El; exact Eu | exact EM].
  - eapply touched_all; [unfold resolve; rewrite El; exact Eu | exact EM |].
    intros v. rewrite Ei. discriminate.
  - eapply touched_all; [unfold resolve; rewrite El; exact Eu | exact EM |].
    intros v. rewrite Ei. discriminate.
Qed.

Lemma push_touch_stored {A} (x : A) user chatID payload content w r w' :
  (let* _ := redis_RPush (chatMessagesKey chatID) payload in
   let* _ := touchChat user chatID content in
   ret x) w = (r, w') ->
  exists ru,
    stored user chatID payload content (db w) ru (db w') /\
    r = match ru with Ok _ => Ok x | Err e => Err e end.
Proof.
  unfold bind at 1. rewrite redis_RPush_eq.
  destruct (hd false (faults w)); cbv beta iota;
    [intros [= <- <-]; eexists (Err _); split; [constructor|reflexivity]|].
  assert (Hgo : forall w1,
             list_key (db w) (chatMessagesKey chatID) ->
             db w1 = pushed chatID payload (db w) ->
             (let* _ := touchChat user chatID content in ret x) w1 = (r, w') ->
             exists ru,
               stored user chatID payload content (db w) ru (db w') /\
               r = match ru with Ok _ => Ok x | Err e => Err e end).
  { intros w1 Hl Hd. unfold bind, ret.
    destruct (touchChat user chatID content w1) as [ru w2] eqn:Et.
    apply touchChat_touched in Et. rewrite Hd in Et.
    destruct ru as [u|e]; [destruct u|]; intros [= <- <-]; eexists; split;
      try (apply stored_then; [exact Hl | exact Et]); reflexivity. }
  destruct (db w !! chatMessagesKey chatID) as [[v|l]|] eqn:El;
    cbv beta iota.
  - intros [= <- <-]. eexists (Err _). split; [constructor|reflexivity].
  - apply Hgo; [intros v; rewrite El; discriminate|].
    unfold pushed, raw_log. rewrite El. reflexivity.
  - apply Hgo; [intros v; rewrite El; discriminate|].
    unfold pushed, raw_log. rewrite El. reflexivity.
Qed.

Lemma fetchMessages_eq chatID w :
  fetchMessages chatID w =
  if hd false (faults w) then (Err redis_Unavailable, tick w)
  else match db w !! chatMessagesKey chatID with
       | Some (RString _) => (Err redis_WrongType, tick w)
       | _ => (Ok (log (db w) chatID), tick w)
       end.
Proof.
  unfold fetchMessages, bind, catch. rewrite redis_LRange_eq.
  unfold log, raw_log.
  destruct (hd false (faults w)); [reflexivity|].
  destruct (db w !! chatMessagesKey chatID) as [[v|l]|]; try reflexivity.
  simpl. rewrite lrange_all. reflexivity.
Qed.

Lemma AppendMessage_effect user chatID role content w r w' :
  AppendMessage user chatID role content w = (r, w') ->
  (exists e, r = Err e /\ db w' = db w) \/
  (exists payload ru,
      db w !! chatOwnerKey chatID = Some (RString user) /\
      json_Marshal (mkMessage role content (now w)) = Some payload /\
      stored user chatID payload content (db w) ru (db w') /\
      r = match ru with
          | Ok _ => Ok (mkMessage role content (now w))
          | Err e => Err e
          end).
Proof.
  unfold AppendMessage. unfold bind at 1. rewrite verifyOwner_eq.
  destruct (hd false (faults w)); cbv beta iota;
    [intros [= <- <-]; left; eauto|].
  destruct (db w !! chatOwnerKey chatID) as [[owner|l]|] eqn:Eo;
    cbv beta iota; cbn [negb]; try (intros [= <- <-]; left; eauto).
  destruct (String.eqb_spec owner user) as [->|Hne]; cbn [negb];
    [|intros [= <- <-]; left; eauto].
  unfold bind at 1. cbn [time_Now]. change (now (tick w)) with (now w).
  destruct (json_Marshal (mkMessage role content (now w)))
    as [payload|] eqn:EM; [|intros [= <- <-]; left; eauto].
  intros H. apply push_touch_stored in H. destruct H as (ru & Hs & ->).
  right. exists payload, ru. auto.
Qed.

Lemma RunCompletion_effect s user chatID model temperature w r w' :
  RunCompletion s user chatID model temperature w = (r, w') ->
  (exists e, r = Err e /\ db w' = db w) \/
  (exists response usage payload ru,
      db w !! chatOwnerKey chatID = Some (RString user) /\
      openai.ChatCompletion (AI s) model
        (map (fun m => openai.mkMessage (Role m) (Content m))
             (log (db w) chatID)) temperature = Ok (response, usage) /\
      json_Marshal
        (mkMessage (openai.Role response) (openai.Content response) (now w))
      = Some payload /\
      stored user chatID payload (openai.Content response) (db w) ru (db w') /\
      r = match ru with
          | Ok _ => Ok (mkMessage (openai.Role response)
                          (openai.Content response) (now w), usage)
          | Err e => Err e
          end).
Proof.
  unfold RunCompletion. unfold bind at 1. rewrite verifyOwner_eq.
  destruct (hd false (faults w)); cbv beta iota;
    [intros [= <- <-]; left; eauto|].
  destruct (db w !! chatOwnerKey chatID) as [[owner|l]|] eqn:Eo;
    cbv beta iota; cbn [negb]; try (intros [= <- <-]; left; eauto).
  destruct (String.eqb_spec owner user) as [->|Hne]; cbn [negb];
    [|intros [= <- <-]; left; eauto].
  cbn [negb]. unfold bind at 1. rewrite fetchMessages_eq.
  cbn [tick faults set_faults db].
  destruct (hd false (tl (faults w))); cbv beta iota;
    [intros [= <- <-]; left; eauto|].
  assert (Hgo :
    (match
       openai.ChatCompletion (AI s) model
         (map (fun m => openai.mkMessage (Role m) (Content m))
              (log (db w) chatID)) temperature
     with
     | Ok (response, usage) =>
         let* t := time_Now in
         match json_Marshal
                 (mkMessage (openai.Role response)
                    (openai.Content response) t) with
         | Some payload =>
             let* _ := redis_RPush (chatMessagesKey chatID) payload in
             let* _ := touchChat user chatID (openai.Content response) in
             ret (mkMessage (openai.Role response)
                    (openai.Content response) t, usage)
         | None => fail json_Error
         end
     | Err e => fail e
     end) (tick (tick w)) = (r, w') ->
    (exists e, r = Err e /\ db w' = db w) \/
    (exists response usage payload ru,
      Some (RString user) = Some (RString user) /\
      openai.ChatCompletion (AI s) model
        (map (fun m => openai.mkMessage (Role m) (Content m))
             (log (db w) chatID)) temperature = Ok (response, usage) /\
      json_Marshal
        (mkMessage (openai.Role response) (openai.Content response) (now w))
      = Some payload /\
      stored user chatID payload (openai.Content response) (db w) ru (db w') /\
      r = match ru with
          | Ok _ => Ok (mkMessage (openai.Role response)
                          (openai.Content response) (now w), usage)
          | Err e => Err e
          end)).
  { destruct (openai.ChatCompletion _ _ _ _) as [[response usage]|e];
      [|intros [= <- <-]; left; eauto].
    unfold bind at 1. cbn [time_Now].
    change (now (tick (tick w))) with (now w).
    destruct (json_Marshal _) as [payload|] eqn:EM;
      [|intros [= <- <-]; left; eauto].
    intros H. apply push_touch_stored in H. destruct H as (ru & Hs & ->).
    right. exists response, usage, payload, ru. auto. }
  destruct (db w !! chatMessagesKey chatID) as [[v|l]|] eqn:El;
    cbv beta iota; [intros [= <- <-]; left; eauto | exact Hgo | exact Hgo].
Qed.

(** *** Logs are only ever extended *)

Lemma raw_log_pushed c payload d k :
  raw_log (pushed c payload d) k =
  if decide (k = c) then (raw_log d c ++ [payload])%list else raw_log d k.
Proof.
  unfold pushed, raw_log at 1. rewrite lookup_insert.
  repeat case_decide; simplify_eq; try reflexivity;
    try match goal with
        | H : _ = _ |- _ => apply chatMessagesKey_inj in H; congruence
        end.
Qed.

Lemma raw_log_saved user id p d k :
  raw_log (saved user id p d) k = raw_log d k.
Proof. unfold raw_log. rewrite lookup_saved_messages. reflexivity. Qed.

Lemma raw_log_half_saved user id p d k :
  raw_log (half_saved user id p d) k = raw_log d k.
Proof. unfold raw_log. rewrite lookup_half_saved_messages. reflexivity. Qed.

Lemma touched_raw_log user chatID content d r d' k :
  touched user chatID content d r d' -> raw_log d' k = raw_log d k.
Proof.
  destruct 1; [reflexivity | apply raw_log_saved | apply raw_log_half_saved].
Qed.

Lemma stored_raw_log user chatID payload content d r d' :
  stored user chatID payload content d r d' ->
  (forall k, k <> chatID -> raw_log d' k = raw_log d k) /\
  (raw_log d' chatID = raw_log d chatID \/
   raw_log d' chatID = (raw_log d chatID ++ [payload])%list) /\
  (is_Ok r = true ->
   raw_log d' chatID = (raw_log d chatID ++ [payload])%list).
Proof.
  destruct 1 as [e | r d' Hl Ht].
  - repeat split; auto. discriminate.
  - pose proof (touched_raw_log _ _ _ _ _ _ chatID Ht) as Hc.
    rewrite raw_log_pushed in Hc. rewrite decide_True in Hc by reflexivity.
    repeat split; auto.
    intros k Hk. rewrite (touched_raw_log _ _ _ _ _ _ k Ht).
    rewrite raw_log_pushed. rewrite decide_False by exact Hk. reflexivity.
Qed.

Lemma resolve_pushed c payload d k :
  resolve (pushed c payload d) k = resolve d k.
Proof.
  unfold resolve, pushed. rewrite lookup_insert_ne by auto with keys.
  reflexivity.
Qed.

Lemma index_pushed c payload d u :
  index (pushed c payload d) u = index d u.
Proof.
  unfold index, pushed. rewrite lookup_insert_ne by auto with keys.
  reflexivity.
Qed.

Lemma lookup_pushed_owner c payload d k :
  pushed c payload d !! chatOwnerKey k = d !! chatOwnerKey k.
Proof.
  unfold pushed. rewrite lookup_insert_ne by auto with keys. reflexivity.
Qed.

Lemma lookup_pushed_index c payload d u :
  pushed c payload d !! userChatsKey u = d !! userChatsKey u.
Proof.
  unfold pushed. rewrite lookup_insert_ne by auto with keys. reflexivity.
Qed.

(** *** Reading a chat *)

Lemma GetChat_Ok user chatID w view w' :
  GetChat user chatID w = (Ok view, w') ->
  db w !! chatOwnerKey chatID = Some (RString user) /\
  resolve (db w) chatID = Some (Summary view) /\
  list_key (db w) (chatMessagesKey chatID) /\
  Messages view = log (db w) chatID.
Proof.
  unfold GetChat. unfold bind at 1. rewrite verifyOwner_eq.
  destruct (hd false (faults w)); cbv beta iota; [discriminate|].
  destruct (db w !! chatOwnerKey chatID) as [[owner|l]|] eqn:Eo;
    cbv beta iota; cbn [negb]; try discriminate.
  destruct (String.eqb_spec owner user) as [->|Hne]; cbn [negb];
    [|discriminate].
  unfold bind at 1. rewrite redis_Get_eq. cbn [tick faults set_faults db].
  destruct (hd false (tl (faults w))); cbv beta iota; [discriminate|].
  unfold resolve.
  destruct (db w !! chatMetaKey chatID) as [[p|l]|] eqn:Em;
    cbv beta iota; try discriminate.
  destruct (json_Unmarshal p) as [summary|] eqn:Eu; [|discriminate].
  unfold bind at 1. rewrite fetchMessages_eq. cbn [tick faults set_faults db].
  destruct (hd false (tl (tl (faults w)))); cbv beta iota; [discriminate|].
  destruct (db w !! chatMessagesKey chatID) as [[v|l]|] eqn:El;
    cbv beta iota; try discriminate; unfold ret; intros [= <- <-];
    cbn [Summary Messages]; repeat split; auto;
    intros v; rewrite El; discriminate.
Qed.

Lemma GetChat_quiet user chatID w summary :
  faults w = [] ->
  db w !! chatOwnerKey chatID = Some (RString user) ->
  resolve (db w) chatID = Some summary ->
  list_key (db w) (chatMessagesKey chatID) ->
  GetChat user chatID w = (Ok (mkView summary (log (db w) chatID)), w).
Proof.
  intros Q Ho Hr Hl. unfold GetChat. unfold bind at 1.
  rewrite verifyOwner_eq, Q, Ho, String.eqb_refl, (tick_quiet w Q).
  cbn [hd negb]. unfold bind at 1. rewrite redis_Get_eq, Q.
  rewrite (tick_quiet w Q). cbn [hd]. unfold resolve in Hr.
  destruct (db w !! chatMetaKey chatID) as [[p|l]|]; try discriminate.
  rewrite Hr. unfold bind. rewrite fetchMessages_eq, Q, (tick_quiet w Q).
  cbn [hd].
  destruct (db w !! chatMessagesKey chatID) as [[v|l]|] eqn:El;
    try reflexivity.
  exfalso. apply (Hl v). exact El.
Qed.

(** C10. When [AppendMessage] has appended the message to the log and the
    touch that follows fails, the call returns the error of the touch and
    the message stays in the log: an error from [AppendMessage] does not
    mean that the log is unchanged, and a later [GetChat] shows the
    message as the last one. *)
Theorem AppendMessage_not_atomic (w w1 w2 w' : World)
    (user chatID role content payload : string) (e : error) :
  verifyOwner user chatID w = (Ok true, w1) ->
  json_Marshal (mkMessage role content (now w1)) = Some payload ->
  redis_RPush (chatMessagesKey chatID) payload (snd (time_Now w1))
    = (Ok tt, w2) ->
  touchChat user chatID content w2 = (Err e, w') ->
  AppendMessage user chatID role content w = (Err e, w') /\
  raw_log (db w') chatID = (raw_log (db w) chatID ++ [payload])%list /\
  forall m wq view wq',
    json_Unmarshal payload = Some m ->
    db wq = db w' ->
    GetChat user chatID wq = (Ok view, wq') ->
    Messages view = (log (db w) chatID ++ [m])%list.
Proof.
  intros Hv HM Hp Ht.
  assert (HA : AppendMessage user chatID role content w = (Err e, w')).
  { unfold AppendMessage. unfold bind at 1. rewrite Hv. cbn [negb].
    unfold bind at 1. cbn [time_Now]. rewrite HM.
    unfold bind at 1.
    change (mkWorld (db w1) (faults w1) (now w1 + 1) (uuid_src w1)
              (uuid_ctr w1))
      with (snd (time_Now w1)).
    rewrite Hp. unfold bind. rewrite Ht. reflexivity. }
  assert (Hlog : raw_log (db w') chatID
                 = (raw_log (db w) chatID ++ [payload])%list).
  { assert (Hd1 : db w1 = db w).
    { revert Hv. rewrite verifyOwner_eq.
      destruct (hd false (faults w)); [discriminate|].
      destruct (db w !! chatOwnerKey chatID) as [[o|l]|];
        intros [= _ <-]; reflexivity. }
    apply touchChat_touched in Ht.
    rewrite (touched_raw_log _ _ _ _ _ _ chatID Ht).
    revert Hp. rewrite redis_RPush_eq. cbn [time_Now snd faults db].
    destruct (hd false (faults w1)); [discriminate|].
    unfold raw_log. rewrite Hd1.
    destruct (db w !! chatMessagesKey chatID) as [[v|l]|];
      try discriminate; intros [= <-]; cbn [db set_db];
      rewrite lookup_insert_eq; reflexivity. }
  split; [exact HA|]. split; [exact Hlog|].
  intros m wq view wq' Hu Hdb HG.
  apply GetChat_Ok in HG. destruct HG as (_ & _ & _ & ->).
  unfold log. rewrite Hdb, Hlog, omap_app. f_equal.
  rewrite omap_cons, Hu. reflexivity.
Qed.

(** *** A server that answers *)

Lemma touchChat_quiet user chatID content w summary payload :
  faults w = [] ->
  resolve (db w) chatID = Some summary ->
  list_key (db w) (userChatsKey user) ->
  json_Marshal
    (mkSummary (ID summary)
       (if String.eqb (Title summary) "New chat"
           && negb (String.eqb (strings_TrimSpace content) "")
        then summarizeTitle content else Title summary) (now w))
  = Some payload ->
  exists w',
    touchChat user chatID content w = (Ok tt, w') /\
    db w' = saved user (ID summary) payload (db w) /\
    faults w' = [] /\ now w' = now w + 1.
Proof.
  intros Q Hr Hl HM. rewrite touchChat_eq, Q. cbn [hd].
  unfold resolve in Hr.
  destruct (db w !! chatMetaKey chatID) as [[p|l]|]; try discriminate.
  rewrite Hr, saveChatMeta_eq, HM, (tick_quiet w Q).
  cbn [time_Now snd faults db]. rewrite Q. cbn [hd].
  destruct (db w !! userChatsKey user) as [[v|l]|] eqn:Ei.
  - exfalso. apply (Hl v). exact Ei.
  - eexists. split; [reflexivity|]. cbn. auto.
  - eexists. split; [reflexivity|]. cbn. auto.
Qed.

Lemma push_touch_quiet {A} (x : A) user chatID payload content w
    summary payload' :
  faults w = [] ->
  list_key (db w) (chatMessagesKey chatID) ->
  list_key (db w) (userChatsKey user) ->
  resolve (db w) chatID = Some summary ->
  json_Marshal
    (mkSummary (ID summary)
       (if String.eqb (Title summary) "New chat"
           && negb (String.eqb (strings_TrimSpace content) "")
        then summarizeTitle content else Title summary) (now w))
  = Some payload' ->
  exists w',
    (let* _ := redis_RPush (chatMessagesKey chatID) payload in
     let* _ := touchChat user chatID content in
     ret x) w = (Ok x, w') /\
    db w' = saved user (ID summary) payload'
              (pushed chatID payload (db w)) /\
    faults w' = [] /\ now w' = now w + 1.
Proof.
  intros Q Hl Hi Hr HM. unfold bind at 1.
  rewrite redis_RPush_eq, Q, (tick_quiet w Q). cbn [hd].
  assert (Hgo : forall w1,
             faults w1 = [] -> now w1 = now w ->
             db w1 = pushed chatID payload (db w) ->
             exists w',
               (let* _ := touchChat user chatID content in ret x) w1
                 = (Ok x, w') /\
               db w' = saved user (ID summary) payload'
                         (pushed chatID payload (db w)) /\
               faults w' = [] /\ now w' = now w + 1).
  { intros w1 Q1 N1 D1.
    destruct (touchChat_quiet user chatID content w1 summary payload')
      as (w' & Et & Hd & Hq & Hn); auto.
    - rewrite D1, resolve_pushed. exact Hr.
    - intros v. rewrite D1, lookup_pushed_index. apply Hi.
    - rewrite N1. exact HM.
    - exists w'. unfold bind, ret. rewrite Et.
      rewrite Hd, D1, Hn, N1. auto. }
  destruct (db w !! chatMessagesKey chatID) as [[v|l]|] eqn:El.
  - exfalso. apply (Hl v). exact El.
  - apply Hgo; auto. unfold pushed, raw_log. rewrite El. reflexivity.
  - apply Hgo; auto. unfold pushed, raw_log. rewrite El. reflexivity.
Qed.

(** On a server that answers, the owner's append to a chat whose summary
    record decodes succeeds, whatever the role and the content. *)
Lemma AppendMessage_quiet user chatID role content w :
  encoding_json ->
  faults w = [] ->
  chat_ok user chatID (db w) ->
  list_key (db w) (userChatsKey user) ->
  exists w' payload summary payload',
    AppendMessage user chatID role content w
      = (Ok (mkMessage role content (now w)), w') /\
    json_Marshal (mkMessage role content (now w)) = Some payload /\
    resolve (db w) chatID = Some summary /\
    db w' = saved user (ID summary) payload'
              (pushed chatID payload (db w)).
Proof.
  intros Hj Q (Ho & [summary Hr] & Hl) Hi.
  destruct (Marshal_message Hj (mkMessage role content (now w)))
    as [payload HM].
  destruct (Marshal_summary Hj
              (mkSummary (ID summary)
                 (if String.eqb (Title summary) "New chat"
                     && negb (String.eqb (strings_TrimSpace content) "")
                  then summarizeTitle content else Title summary)
                 (now w + 1))) as [payload' HS].
  unfold AppendMessage. unfold bind at 1.
  rewrite verifyOwner_eq, Q, Ho, String.eqb_refl, (tick_quiet w Q).
  cbn [hd negb]. unfold bind at 1. cbn [time_Now]. rewrite HM.
  edestruct (push_touch_quiet (mkMessage role content (now w)) user chatID
               payload content
               (mkWorld (db w) (faults w) (now w + 1) (uuid_src w) (uuid_ctr w))
               summary payload') as (w' & E & Hd & _); eauto.
  exists w', payload, summary, payload'. auto.
Qed.

(** C9 (as amended). [AppendMessage] does not look at the role.  On a
    server that answers, for the owner of a chat whose summary record
    decodes and whose log and index keys hold lists or nothing, the call
    succeeds for every role string: it returns the message with that role
    and stores it at the tail of the log, where it is read back with the
    role as [encoding/json] stores text, the very string when it is
    ASCII. *)
Theorem AppendMessage_any_role (w : World)
    (user chatID role content : string) :
  encoding_json ->
  faults w = [] ->
  chat_ok user chatID (db w) ->
  list_key (db w) (userChatsKey user) ->
  exists w' payload,
    AppendMessage user chatID role content w
      = (Ok (mkMessage role content (now w)), w') /\
    json_Marshal (mkMessage role content (now w)) = Some payload /\
    raw_log (db w') chatID = (raw_log (db w) chatID ++ [payload])%list /\
    log (db w') chatID
    = (log (db w) chatID
         ++ [mkMessage (json_text role) (json_text content) (now w)])%list /\
    (single_byte role = true ->
     Role <$> last (log (db w') chatID) = Some role).
Proof.
  intros Hj Q Hok Hi.
  destruct (AppendMessage_quiet user chatID role content w Hj Q Hok Hi)
    as (w' & payload & summary & payload' & E & HM & _ & Hd).
  exists w', payload. split; [exact E|]. split; [exact HM|].
  assert (Hraw : raw_log (db w') chatID
                 = (raw_log (db w) chatID ++ [payload])%list).
  { rewrite Hd, raw_log_saved, raw_log_pushed, decide_True by reflexivity.
    reflexivity. }
  assert (Hlog : log (db w') chatID
                 = (log (db w) chatID
                      ++ [mkMessage (json_text role) (json_text content)
                            (now w)])%list).
  { unfold log. rewrite Hraw, omap_app. f_equal.
    rewrite omap_cons, (Unmarshal_message Hj _ _ HM). reflexivity. }
  split; [exact Hraw|]. split; [exact Hlog|].
  intros Hb. rewrite Hlog, last_snoc. cbn.
  rewrite (json_text_single_byte role Hb). reflexivity.
Qed.

(** C8. [RunCompletion] stores nothing but the reply of the backend.  When
    the backend fails the call fails and the server is as it was.  When
    the call succeeds, exactly one message has been added at the tail of
    the chat's log, with the role and the content of the reply, and the
    summary has been touched with the content of the reply.  Whatever the
    outcome, no other log changes and this one gains at most the reply.
    For the owner on a server that answers, a reply of the backend does
    make the call succeed. *)
Theorem RunCompletion_reply (s : Service) (w : World)
    (user chatID model : string) (temperature : openai.float64) :
  let backend :=
    openai.ChatCompletion (AI s) model
      (map (fun m => openai.mkMessage (Role m) (Content m))
           (log (db w) chatID)) temperature in
  let r := fst (RunCompletion s user chatID model temperature w) in
  let d' := db (snd (RunCompletion s user chatID model temperature w)) in
  (forall e, backend = Err e -> is_Ok r = false /\ d' = db w) /\
  (forall stored_message usage,
      r = Ok (stored_message, usage) ->
      exists response payload summary t payload',
        backend = Ok (response, usage) /\
        stored_message
          = mkMessage (openai.Role response) (openai.Content response)
              (now w) /\
        json_Marshal stored_message = Some payload /\
        raw_log d' chatID = (raw_log (db w) chatID ++ [payload])%list /\
        resolve (db w) chatID = Some summary /\
        json_Marshal
          (mkSummary (ID summary)
             (if String.eqb (Title summary) "New chat"
                 && negb (String.eqb
                            (strings_TrimSpace (openai.Content response)) "")
              then summarizeTitle (openai.Content response)
              else Title summary) t) = Some payload' /\
        d' = saved user (ID summary) payload'
               (pushed chatID payload (db w))) /\
  ((forall k, k <> chatID -> raw_log d' k = raw_log (db w) k) /\
   (raw_log d' chatID = raw_log (db w) chatID \/
    exists response usage payload,
      backend = Ok (response, usage) /\
      json_Marshal
        (mkMessage (openai.Role response) (openai.Content response) (now w))
      = Some payload /\
      raw_log d' chatID = (raw_log (db w) chatID ++ [payload])%list)) /\
  (forall response usage payload summary payload',
      faults w = [] ->
      db w !! chatOwnerKey chatID = Some (RString user) ->
      list_key (db w) (chatMessagesKey chatID) ->
      list_key (db w) (userChatsKey user) ->
      resolve (db w) chatID = Some summary ->
      backend = Ok (response, usage) ->
      json_Marshal
        (mkMessage (openai.Role response) (openai.Content response) (now w))
      = Some payload ->
      json_Marshal
        (mkSummary (ID summary)
           (if String.eqb (Title summary) "New chat"
               && negb (String.eqb
                          (strings_TrimSpace (openai.Content response)) "")
            then summarizeTitle (openai.Content response)
            else Title summary) (now w + 1)) = Some payload' ->
      r = Ok (mkMessage (openai.Role response) (openai.Content response)
                (now w), usage)).
Proof.
  intros backend r d'.
  destruct (RunCompletion s user chatID model temperature w) as [r0 w0] eqn:E.
  pose proof (RunCompletion_effect _ _ _ _ _ _ _ _ E) as Heff.
  subst r d'. cbn [fst snd]. fold backend in Heff.
  split; [|split; [|split]].
  - intros e Hb. destruct Heff as [(e0 & -> & Hd) | Hs]; [auto|].
    destruct Hs as (response & usage & payload & ru & _ & Hb' & _).
    rewrite Hb in Hb'. discriminate.
  - intros m usage Hr. destruct Heff as [(e0 & He & Hd) | Hs]; [congruence|].
    destruct Hs
      as (response & usage' & payload & ru & Ho & Hb & HM & Hst & Hr').
    destruct ru as [u|e]; [|congruence].
    rewrite Hr in Hr'. injection Hr' as -> ->.
    inversion Hst as [|r1 d1 Hl Ht]; subst.
    inversion Ht as [| summary t payload' Hres HS Hi |]; subst.
    rewrite resolve_pushed in Hres.
    exists response, payload, summary, t, payload'.
    repeat split; auto.
    rewrite raw_log_saved, raw_log_pushed, decide_True by reflexivity.
    reflexivity.
  - destruct Heff as [(e0 & -> & ->) | Hs]; [auto|].
    destruct Hs as (response & usage & payload & ru & Ho & Hb & HM & Hst & Hr).
    apply stored_raw_log in Hst. destruct Hst as (Ha & [Hb1|Hb2] & _).
    + auto.
    + split; [exact Ha|]. right. exists response, usage, payload. auto.
  - intros response usage payload summary payload' Q Ho Hl Hi Hres Hb HM HS.
    revert E. unfold RunCompletion. unfold bind at 1.
    rewrite verifyOwner_eq, Q, Ho, String.eqb_refl, (tick_quiet w Q).
    cbn [hd negb]. unfold bind at 1.
    rewrite fetchMessages_eq, Q, (tick_quiet w Q). cbn [hd].
    assert (Hgo :
      (match backend with
       | Ok (response, usage) =>
           let* t := time_Now in
           match json_Marshal
                   (mkMessage (openai.Role response)
                      (openai.Content response) t) with
           | Some payload =>
               let* _ := redis_RPush (chatMessagesKey chatID) payload in
               let* _ := touchChat user chatID (openai.Content response) in
               ret (mkMessage (openai.Role response)
                      (openai.Content response) t, usage)
           | None => fail json_Error
           end
       | Err e => fail e
       end) w = (r0, w0) ->
      r0 = Ok (mkMessage (openai.Role response) (openai.Content response)
                 (now w), usage)).
    { rewrite Hb. unfold bind at 1. cbn [time_Now]. rewrite HM.
      edestruct (push_touch_quiet
                   (mkMessage (openai.Role response) (openai.Content response)
                      (now w), usage) user chatID payload
                   (openai.Content response)
                   (mkWorld (db w) (faults w) (now w + 1) (uuid_src w)
                      (uuid_ctr w))
                   summary payload') as (w' & E' & _); eauto.
      rewrite E'. congruence. }
    destruct (db w !! chatMessagesKey chatID) as [[v|l]|] eqn:El;
      [exfalso; apply (Hl v); exact El | exact Hgo | exact Hgo].
Qed.

(** *** Appending in sequence *)

Lemma stored_Ok_chat user chatID payload content d d' :
  encoding_json ->
  chat_ok user chatID d ->
  stored user chatID payload content d (Ok tt) d' ->
  chat_ok user chatID d' /\
  raw_log d' chatID = (raw_log d chatID ++ [payload])%list.
Proof.
  intros Hj (Ho & Hr & Hl) Hst.
  inversion Hst as [|r1 d1 _ Ht]; subst.
  inversion Ht as [| summary t payload' Hres HS Hi |]; subst.
  split; [split; [|split]|].
  - rewrite lookup_saved_owner. case_decide; [reflexivity|].
    rewrite lookup_pushed_owner. exact Ho.
  - unfold resolve. rewrite lookup_saved_meta. case_decide.
    + rewrite (Unmarshal_summary Hj _ _ HS). eauto.
    + fold (resolve (pushed chatID payload d) chatID).
      rewrite Hres. eauto.
  - intros v. rewrite lookup_saved_messages. unfold pushed.
    rewrite lookup_insert_eq. discriminate.
  - rewrite raw_log_saved, raw_log_pushed, decide_True by reflexivity.
    reflexivity.
Qed.

Lemma serve_step user chatID rq w m w' :
  encoding_json ->
  chat_ok user chatID (db w) ->
  serve user chatID rq w = (Ok m, w') ->
  chat_ok user chatID (db w') /\
  exists payload,
    json_Marshal m = Some payload /\
    raw_log (db w') chatID = (raw_log (db w) chatID ++ [payload])%list.
Proof.
  intros Hdec Hok. destruct rq as [role content | s model temperature];
    cbn [serve].
  - intros E. apply AppendMessage_effect in E.
    destruct E as [(e & [=] & _) | (payload & ru & _ & HM & Hst & Hr)].
    destruct ru as [[]|e]; [|discriminate]. injection Hr as ->.
    destruct (stored_Ok_chat _ _ _ _ _ _ Hdec Hok Hst) as [Hok' Hlog].
    split; [exact Hok'|]. exists payload. auto.
  - unfold bind, ret.
    destruct (RunCompletion s user chatID model temperature w)
      as [[[m0 usage]|e] w1] eqn:E; [|discriminate].
    intros [= <- <-]. apply RunCompletion_effect in E.
    destruct E as [(e & [=] & _) |
                   (response & usage' & payload & ru & _ & _ & HM & Hst & Hr)].
    destruct ru as [[]|e]; [|discriminate]. injection Hr as -> ->.
    destruct (stored_Ok_chat _ _ _ _ _ _ Hdec Hok Hst) as [Hok' Hlog].
    split; [exact Hok'|]. exists payload. auto.
Qed.

Lemma serve_all_log user chatID (rqs : list Request) :
  encoding_json ->
  forall w msgs w',
    serve_all user chatID rqs w = (Ok msgs, w') ->
    chat_ok user chatID (db w) ->
    chat_ok user chatID (db w') /\
    log (db w') chatID = (log (db w) chatID ++ map json_message msgs)%list /\
    length msgs = length rqs.
Proof.
  intros Hj. induction rqs as [|rq rqs IH]; intros w msgs w'.
  - cbn [serve_all]. unfold ret. intros [= <- <-] Hok.
    cbn [map]. rewrite app_nil_r. auto.
  - cbn [serve_all]. unfold bind at 1.
    destruct (serve user chatID rq w) as [[m|e] w1] eqn:E1; [|discriminate].
    unfold bind, ret.
    destruct (serve_all user chatID rqs w1) as [[ms|e] w2] eqn:E2;
      [|discriminate].
    intros [= <- <-] Hok.
    destruct (serve_step _ _ _ _ _ _ Hj Hok E1)
      as (Hok1 & payload & HM & Hlog).
    destruct (IH _ _ _ E2 Hok1) as (Hok2 & Hlog2 & Hlen).
    split; [exact Hok2|]. split; [|simpl; congruence].
    rewrite Hlog2. unfold log at 1. rewrite Hlog, omap_app.
    rewrite omap_cons, (Unmarshal_message Hj _ _ HM). cbn [map].
    rewrite <- app_assoc. reflexivity.
Qed.



(** *** The index *)

Lemma index_saved user id p d u :
  index (saved user id p d) u =
  if decide (u = user)
  then id :: filter (fun x => x <> id) (index d user)
  else index d u.
Proof.
  unfold index at 1. rewrite lookup_saved_index.
  case_decide; reflexivity.
Qed.

Lemma index_half_saved user id p d u :
  index (half_saved user id p d) u = index d u.
Proof. unfold index. rewrite lookup_half_saved_index. reflexivity. Qed.

Lemma resolve_saved user id p d k :
  resolve (saved user id p d) k =
  if decide (k = id) then json_Unmarshal p else resolve d k.
Proof.
  unfold resolve. rewrite lookup_saved_meta. case_decide; reflexivity.
Qed.

Lemma resolve_half_saved user id p d k :
  resolve (half_saved user id p d) k =
  if decide (k = id) then json_Unmarshal p else resolve d k.
Proof.
  unfold resolve. rewrite lookup_half_saved_meta. case_decide; reflexivity.
Qed.

Lemma NoDup_front (id : string) (l : list string) :
  NoDup l -> NoDup (id :: filter (fun x => x <> id) l).
Proof.
  intros Hl. apply NoDup_cons. split.
  - rewrite list_elem_of_filter. intros [Hne _]. congruence.
  - apply NoDup_filter. exact Hl.
Qed.

(** The calls leave the generator of identifiers alone. *)
Lemma steady_saveChatMeta user summary : steady (saveChatMeta user summary).
Proof. unfold saveChatMeta. repeat steady_step. Qed.

Lemma steady_verifyOwner user chatID : steady (verifyOwner user chatID).
Proof. unfold verifyOwner. repeat steady_step. Qed.

Lemma steady_touchChat user chatID content :
  steady (touchChat user chatID content).
Proof.
  unfold touchChat. repeat first [apply steady_saveChatMeta | steady_step].
Qed.

Lemma steady_fetchMessages chatID : steady (fetchMessages chatID).
Proof. unfold fetchMessages. repeat steady_step. Qed.

Lemma steady_NewChat user title : steady (NewChat user title).
Proof.
  unfold NewChat. repeat first [apply steady_saveChatMeta | steady_step].
Qed.

Lemma steady_AppendMessage user chatID role content :
  steady (AppendMessage user chatID role content).
Proof.
  unfold AppendMessage.
  repeat first [apply steady_verifyOwner | apply steady_touchChat
               | steady_step].
Qed.

Lemma steady_RunCompletion s user chatID model temperature :
  steady (RunCompletion s user chatID model temperature).
Proof.
  unfold RunCompletion.
  repeat first [apply steady_verifyOwner | apply steady_touchChat
               | apply steady_fetchMessages | steady_step].
Qed.

Lemma steady_perform (c : Call) : steady (perform c).
Proof.
  destruct c; cbn [perform];
    repeat first [apply steady_NewChat | apply steady_AppendMessage
                 | apply steady_RunCompletion | steady_step].
Qed.

Lemma run_steady (cs : list Call) (w : World) :
  uuid_src (run cs w) = uuid_src w /\
  (uuid_ctr w <= uuid_ctr (run cs w))%nat.
Proof.
  revert w. induction cs as [|c cs IH]; intros w; cbn [run];
    [split; [reflexivity | lia]|].
  destruct (IH (snd (perform c w))) as [H1 H2].
  destruct (steady_perform c w) as [H3 H4]. split; [congruence | lia].
Qed.

(** A summary that was decoded carries an identifier that is read back
    as it is. *)
Lemma resolve_valid (d : gmap string RValue) (k : string)
    (summary : ChatSummary) :
  encoding_json -> resolve d k = Some summary ->
  json_text (ID summary) = ID summary /\
  json_text (Title summary) = Title summary.
Proof.
  intros Hj. unfold resolve.
  destruct (d !! chatMetaKey k) as [[p|l]|]; try discriminate.
  intros H. apply (Unmarshal_valid Hj) in H.
  unfold json_summary in H. destruct summary as [i t u].
  cbn [ID Title UpdatedAt] in *. injection H as H1 H2. auto.
Qed.

Lemma well_formed_saved user (s : ChatSummary) p d :
  encoding_json -> json_text (ID s) = ID s ->
  well_formed d -> json_Marshal s = Some p ->
  well_formed (saved user (ID s) p d).
Proof.
  intros Hj Hv [Hn Hc] HM. split.
  - intros u. rewrite index_saved.
    case_decide; [apply NoDup_front|]; apply Hn.
  - intros k s'. rewrite resolve_saved. case_decide.
    + rewrite (Unmarshal_summary Hj _ _ HM). intros [= <-]. subst k.
      exact Hv.
    + apply Hc.
Qed.

Lemma well_formed_half_saved user (s : ChatSummary) p d :
  encoding_json -> json_text (ID s) = ID s ->
  well_formed d -> json_Marshal s = Some p ->
  well_formed (half_saved user (ID s) p d).
Proof.
  intros Hj Hv [Hn Hc] HM. split.
  - intros u. rewrite index_half_saved. apply Hn.
  - intros k s'. rewrite resolve_half_saved. case_decide.
    + rewrite (Unmarshal_summary Hj _ _ HM). intros [= <-]. subst k.
      exact Hv.
    + apply Hc.
Qed.

Lemma well_formed_pushed c payload d :
  well_formed d -> well_formed (pushed c payload d).
Proof.
  intros [Hn Hc]. split.
  - intros u. rewrite index_pushed. apply Hn.
  - intros k s. rewrite resolve_pushed. apply Hc.
Qed.

Lemma consistent_empty : consistent ∅.
Proof. intros k s. unfold resolve. rewrite lookup_empty. discriminate. Qed.

Lemma consistent_saved user id p d :
  consistent d ->
  (forall s : ChatSummary, json_Unmarshal p = Some s -> ID s = id) ->
  consistent (saved user id p d).
Proof.
  intros Hc Hp k s. rewrite resolve_saved. case_decide.
  - subst k. apply Hp.
  - apply Hc.
Qed.

Lemma touched_well_formed user chatID content d r d' :
  encoding_json -> well_formed d -> touched user chatID content d r d' ->
  well_formed d'.
Proof.
  intros Hj Hw Ht. destruct Ht as [e | s t p Hr HM Hl | s t p Hr HM].
  - exact Hw.
  - refine (well_formed_saved user _ p d Hj _ Hw HM).
    apply (resolve_valid _ _ _ Hj Hr).
  - refine (well_formed_half_saved user _ p d Hj _ Hw HM).
    apply (resolve_valid _ _ _ Hj Hr).
Qed.

Lemma stored_well_formed user chatID payload content d r d' :
  encoding_json -> well_formed d ->
  stored user chatID payload content d r d' ->
  well_formed d'.
Proof.
  intros Hj Hw Hs. destruct Hs as [e | r d' Hl Ht]; [exact Hw|].
  eapply touched_well_formed; [exact Hj | | exact Ht].
  apply well_formed_pushed. exact Hw.
Qed.

Lemma NewChat_effect user title w r w' :
  NewChat user title w = (r, w') ->
  (exists e, r = Err e /\ db w' = db w) \/
  (exists (summary : ChatSummary) payload,
      json_Marshal summary = Some payload /\
      ((r = Ok summary /\
        db w' = saved user (ID summary) payload (db w)) \/
       (r = Err redis_WrongType /\
        db w' = half_saved user (ID summary) payload (db w)))).
Proof.
  unfold NewChat, bind, uuid_NewString, time_Now.
  rewrite saveChatMeta_eq. cbn [db faults tick set_faults].
  match goal with
  | |- context [json_Marshal ?s] =>
      set (summary := s); destruct (json_Marshal summary) as [p|] eqn:EM
  end; [|intros [= <- <-]; left; eauto].
  destruct (hd false (faults w)); [intros [= <- <-]; left; eauto|].
  destruct (db w !! userChatsKey user) as [[v|l]|];
    intros [= <- <-]; right; exists summary, p; (split; [exact EM|]);
    cbn [db set_db]; auto.
Qed.

(** What [NewChat] returns and leaves on the server, case by case. *)
Lemma NewChat_cases user title w :
  let chatID := uuid_src w (uuid_ctr w) in
  let summary :=
    mkSummary chatID
      (if String.eqb (strings_TrimSpace title) "" then "New chat"
       else title) (now w) in
  let r := fst (NewChat user title w) in
  let w' := snd (NewChat user title w) in
  match json_Marshal summary with
  | None => r = Err json_Error /\ db w' = db w
  | Some payload =>
      if hd false (faults w)
      then r = Err redis_Unavailable /\ db w' = db w
      else match db w !! userChatsKey user with
           | Some (RString _) =>
               r = Err redis_WrongType /\
               db w' = half_saved user chatID payload (db w)
           | _ => r = Ok summary /\
                  db w' = saved user chatID payload (db w)
           end
  end.
Proof.
  cbv zeta. unfold NewChat, bind, uuid_NewString, time_Now. simpl.
  rewrite saveChatMeta_eq. simpl. set (summary := mkSummary _ _ _).
  destruct (json_Marshal summary) as [p|]; simpl; [|split; reflexivity].
  destruct (hd false (faults w)); simpl; [split; reflexivity|].
  destruct (db w !! userChatsKey user) as [[v|l]|]; simpl;
    split; reflexivity.
Qed.

Lemma perform_well_formed (c : Call) (w : World) :
  encoding_json ->
  json_text (uuid_src w (uuid_ctr w)) = uuid_src w (uuid_ctr w) ->
  well_formed (db w) -> well_formed (db (snd (perform c w))).
Proof.
  intros Hj Hv Hw. destruct c as [user title | user chatID role content
                                 | s user chatID model temperature];
    cbn [perform]; unfold bind, ret.
  - pose proof (NewChat_cases user title w) as H. cbv zeta in H.
    destruct (NewChat user title w) as [r w'] eqn:E. cbn [fst snd] in H.
    assert (Hw' : well_formed (db w')).
    { match type of H with
      | context [json_Marshal ?s] =>
          destruct (json_Marshal s) as [p|] eqn:EM
      end; [|destruct H as [_ ->]; exact Hw].
      destruct (hd false (faults w)); [destruct H as [_ ->]; exact Hw|].
      destruct (db w !! userChatsKey user) as [[v|l]|];
        destruct H as [_ ->];
        first [ exact (well_formed_saved user
                         (mkSummary (uuid_src w (uuid_ctr w)) _ (now w))
                         p (db w) Hj Hv Hw EM)
              | exact (well_formed_half_saved user
                         (mkSummary (uuid_src w (uuid_ctr w)) _ (now w))
                         p (db w) Hj Hv Hw EM) ]. }
    destruct r; exact Hw'.
  - destruct (AppendMessage user chatID role content w) as [r w'] eqn:E.
    assert (Hw' : well_formed (db w')).
    { apply AppendMessage_effect in E.
      destruct E as [(e & _ & ->) | (p & ru & _ & _ & Hst & _)];
        [exact Hw | eapply stored_well_formed; eauto]. }
    destruct r; exact Hw'.
  - destruct (RunCompletion s user chatID model temperature w)
      as [r w'] eqn:E.
    assert (Hw' : well_formed (db w')).
    { apply RunCompletion_effect in E.
      destruct E as [(e & _ & ->) | (rs & us & p & ru & _ & _ & _ & Hst & _)];
        [exact Hw | eapply stored_well_formed; eauto]. }
    destruct r; exact Hw'.
Qed.

Lemma run_well_formed (cs : list Call) :
  encoding_json ->
  forall w,
    (forall n, json_text (uuid_src w n) = uuid_src w n) ->
    well_formed (db w) -> well_formed (db (run cs w)).
Proof.
  intros Hj. induction cs as [|c cs IH]; intros w Hv Hw; cbn [run];
    [exact Hw|].
  destruct (steady_perform c w) as [Hs _].
  apply IH; [intros n; rewrite Hs; apply Hv|].
  apply perform_well_formed; auto.
Qed.

(** The index keys hold lists once they do. *)
Lemma stored_index_lists user chatID payload content d r d' :
  (forall u, list_key d (userChatsKey u)) ->
  stored user chatID payload content d r d' ->
  forall u, list_key d' (userChatsKey u).
Proof.
  intros Hl Hs. destruct Hs as [e | r d' _ Ht]; [exact Hl|].
  intros u v.
  destruct Ht as [e | s t p _ _ _ | s t p _ _].
  - rewrite lookup_pushed_index. apply Hl.
  - rewrite lookup_saved_index. case_decide; [discriminate|].
    rewrite lookup_pushed_index. apply Hl.
  - rewrite lookup_half_saved_index, lookup_pushed_index. apply Hl.
Qed.

Lemma perform_index_lists (c : Call) (w : World) :
  (forall u, list_key (db w) (userChatsKey u)) ->
  forall u, list_key (db (snd (perform c w))) (userChatsKey u).
Proof.
  intros Hl. destruct c as [user title | user chatID role content
                           | s user chatID model temperature];
    cbn [perform]; unfold bind, ret.
  - destruct (NewChat user title w) as [r w'] eqn:E.
    assert (Hl' : forall u, list_key (db w') (userChatsKey u)).
    { apply NewChat_effect in E.
      destruct E as [(e & _ & ->) | (sm & p & HM & [[_ ->] | [_ ->]])];
        [exact Hl | |]; intros u v.
      - rewrite lookup_saved_index. case_decide; [discriminate|].
        apply Hl.
      - rewrite lookup_half_saved_index. apply Hl. }
    destruct r; exact Hl'.
  - destruct (AppendMessage user chatID role content w) as [r w'] eqn:E.
    assert (Hl' : forall u, list_key (db w') (userChatsKey u)).
    { apply AppendMessage_effect in E.
      destruct E as [(e & _ & ->) | (p & ru & _ & _ & Hst & _)];
        [exact Hl | eapply stored_index_lists; eauto]. }
    destruct r; exact Hl'.
  - destruct (RunCompletion s user chatID model temperature w)
      as [r w'] eqn:E.
    assert (Hl' : forall u, list_key (db w') (userChatsKey u)).
    { apply RunCompletion_effect in E.
      destruct E as [(e & _ & ->) | (rs & us & p & ru & _ & _ & _ & Hst & _)];
        [exact Hl | eapply stored_index_lists; eauto]. }
    destruct r; exact Hl'.
Qed.

Lemma run_index_lists (cs : list Call) :
  forall w,
    (forall u, list_key (db w) (userChatsKey u)) ->
    forall u, list_key (db (run cs w)) (userChatsKey u).
Proof.
  induction cs as [|c cs IH]; intros w Hl; cbn [run]; [exact Hl|].
  apply IH, perform_index_lists, Hl.
Qed.

Lemma stored_Ok_index user chatID payload content d d' :
  consistent d ->
  stored user chatID payload content d (Ok tt) d' ->
  forall u, index d' u =
            if decide (u = user)
            then chatID :: filter (fun x => x <> chatID) (index d user)
            else index d u.
Proof.
  intros Hc Hst u.
  inversion Hst as [|r1 d1 _ Ht]; subst.
  inversion Ht as [| summary t payload' Hres HS Hi |]; subst.
  rewrite resolve_pushed in Hres. apply Hc in Hres. rewrite Hres.
  rewrite index_saved, !index_pushed. reflexivity.
Qed.

Lemma perform_front (c : Call) (w w' : World) (user chatID : string) :
  consistent (db w) ->
  perform c w = (Ok (user, chatID), w') ->
  forall u, index (db w') u =
            if decide (u = user)
            then chatID :: filter (fun x => x <> chatID) (index (db w) user)
            else index (db w) u.
Proof.
  intros Hc. destruct c as [user0 title | user0 chatID0 role content
                           | s user0 chatID0 model temperature];
    cbn [perform]; unfold bind, ret.
  - destruct (NewChat user0 title w) as [[sm|e] w1] eqn:E; [|discriminate].
    intros [= <- <- <-] u. apply NewChat_effect in E.
    destruct E as [(e & [=] & _) | (sm' & p & HM & [[[= <-] ->] | [[=] _]])].
    apply index_saved.
  - destruct (AppendMessage user0 chatID0 role content w)
      as [[m|e] w1] eqn:E; [|discriminate].
    intros [= <- <- <-]. apply AppendMessage_effect in E.
    destruct E as [(e & [=] & _) | (p & ru & _ & _ & Hst & Hr)].
    destruct ru as [[]|e]; [|discriminate].
    eapply stored_Ok_index; eauto.
  - destruct (RunCompletion s user0 chatID0 model temperature w)
      as [[m|e] w1] eqn:E; [|discriminate].
    intros [= <- <- <-]. apply RunCompletion_effect in E.
    destruct E as [(e & [=] & _) | (rs & us & p & ru & _ & _ & _ & Hst & Hr)].
    destruct ru as [[]|e]; [|discriminate].
    eapply stored_Ok_index; eauto.
Qed.

(** No call ever removes or reorders what a log holds. *)
Lemma perform_log_prefix (c : Call) (w : World) (k : string) :
  raw_log (db w) k `prefix_of` raw_log (db (snd (perform c w))) k.
Proof.
  assert (Hst : forall user chatID payload content r d',
             stored user chatID payload content (db w) r d' ->
             raw_log (db w) k `prefix_of` raw_log d' k).
  { intros user chatID payload content r d' H.
    apply stored_raw_log in H. destruct H as (Ho & Hc & _).
    destruct (decide (k = chatID)) as [->|Hne].
    - destruct Hc as [-> | ->]; [reflexivity | apply prefix_app_r; reflexivity].
    - rewrite (Ho k Hne). reflexivity. }
  destruct c as [user title | user chatID role content
                | s user chatID model temperature];
    cbn [perform]; unfold bind, ret.
  - destruct (NewChat user title w) as [r w'] eqn:E.
    assert (P : raw_log (db w) k `prefix_of` raw_log (db w') k).
    { apply NewChat_effect in E.
      destruct E as [(e & _ & ->) | (sm & p & HM & [[_ ->] | [_ ->]])];
        rewrite ?raw_log_saved, ?raw_log_half_saved; reflexivity. }
    destruct r; exact P.
  - destruct (AppendMessage user chatID role content w) as [r w'] eqn:E.
    assert (P : raw_log (db w) k `prefix_of` raw_log (db w') k).
    { apply AppendMessage_effect in E.
      destruct E as [(e & _ & ->) | (p & ru & _ & _ & H & _)];
        [reflexivity | eapply Hst; eauto]. }
    destruct r; exact P.
  - destruct (RunCompletion s user chatID model temperature w)
      as [r w'] eqn:E.
    assert (P : raw_log (db w) k `prefix_of` raw_log (db w') k).
    { apply RunCompletion_effect in E.
      destruct E as [(e & _ & ->) | (rs & us & p & ru & _ & _ & _ & H & _)];
        [reflexivity | eapply Hst; eauto]. }
    destruct r; exact P.
Qed.

Lemma run_log_prefix (cs : list Call) :
  forall (w : World) (k : string),
    raw_log (db w) k `prefix_of` raw_log (db (run cs w)) k.
Proof.
  induction cs as [|c cs IH]; intros w k; cbn [run]; [reflexivity|].
  etransitivity; [apply (perform_log_prefix c w k) | apply IH].
Qed.

(** C4 (as amended). After N requests that each added a message to a chat
    (appends of the owner, or completions storing a reply), the owner
    reads, after the messages the chat held before, exactly N messages in
    the order of the requests: each is the message its request returned,
    with its role and content as [encoding/json] stores text.  Messages
    whose role and content are valid UTF-8 are therefore read as they
    were returned.  What a log holds is never removed or reordered by the
    calls that follow, whoever makes them and whether they succeed or
    fail: every write to a log goes to its tail. *)
Theorem append_order (w w0 w' : World) (user chatID : string)
    (rqs : list Request) (msgs : list Message) (view : ChatView) :
  encoding_json ->
  GetChat user chatID (set_faults [] w) = (Ok view, w0) ->
  serve_all user chatID rqs w = (Ok msgs, w') ->
  length msgs = length rqs /\
  (exists summary,
      GetChat user chatID (set_faults [] w')
      = (Ok (mkView summary (Messages view ++ map json_message msgs)),
         set_faults [] w')) /\
  (Forall (fun m => json_text (Role m) = Role m
                    /\ json_text (Content m) = Content m) msgs ->
   exists summary,
     GetChat user chatID (set_faults [] w')
     = (Ok (mkView summary (Messages view ++ msgs)), set_faults [] w')) /\
  (forall cs k, raw_log (db w') k `prefix_of` raw_log (db (run cs w')) k).
Proof.
  intros Hj HG Hs.
  apply GetChat_Ok in HG. cbn [db set_faults] in HG.
  destruct HG as (Ho & Hr & Hl & Hm).
  destruct (serve_all_log user chatID rqs Hj w msgs w' Hs) as
    ((Ho' & [summary Hr'] & Hl') & Hlog & Hlen); auto.
  { split; [exact Ho|]. split; [eauto | exact Hl]. }
  assert (HG : GetChat user chatID (set_faults [] w')
               = (Ok (mkView summary
                        (Messages view ++ map json_message msgs)),
                  set_faults [] w')).
  { rewrite (GetChat_quiet user chatID (set_faults [] w') summary); auto.
    cbn [db set_faults]. rewrite Hlog, Hm. reflexivity. }
  split; [exact Hlen|]. split; [exists summary; exact HG|].
  split; [|intros cs k; apply run_log_prefix].
  intros Hv. exists summary. rewrite HG.
  assert (Hmap : map json_message msgs = msgs); [|rewrite Hmap; reflexivity].
  clear -Hv. induction Hv as [|m ms [H1 H2] _ IH]; [reflexivity|].
  cbn [map]. rewrite IH. f_equal.
  destruct m as [r c t]. unfold json_message. cbn in *. congruence.
Qed.

(** C6. Along any sequence of [NewChat], [AppendMessage] and
    [RunCompletion] calls, by any users on any chats, succeeding or not,
    no index ever holds an identifier twice; and a call that succeeds
    leaves the chat it created or touched at the front of its user's
    index, followed by the other identifiers in their former order: a chat
    that was already listed is moved, not listed again.  The indexes of
    the other users are left alone.  On a server that answers and whose
    index key for the user holds a list or nothing, [NewChat] does
    succeed, and so does the append of the owner of a chat whose summary
    record decodes and whose log is a list. *)
Theorem index_recency (cs : list Call) (w : World) :
  encoding_json ->
  (forall n, single_byte (uuid_src w n) = true) ->
  consistent (db w) ->
  (forall user, NoDup (index (db w) user)) ->
  let w1 := run cs w in
  (forall user, NoDup (index (db w1) user)) /\
  (forall c user chatID w2,
      perform c w1 = (Ok (user, chatID), w2) ->
      index (db w2) user
      = chatID :: filter (fun x => x <> chatID) (index (db w1) user) /\
      NoDup (index (db w2) user) /\
      forall other, other <> user ->
                    index (db w2) other = index (db w1) other) /\
  (faults w1 = [] ->
   (forall user title,
       list_key (db w1) (userChatsKey user) ->
       exists w2,
         perform (CallNewChat user title) w1
         = (Ok (user, uuid_src w1 (uuid_ctr w1)), w2)) /\
   (forall user chatID role content,
       chat_ok user chatID (db w1) ->
       list_key (db w1) (userChatsKey user) ->
       exists w2,
         perform (CallAppendMessage user chatID role content) w1
         = (Ok (user, chatID), w2))).
Proof.
  intros Hj Hu Hc Hn w1.
  assert (Hw1 : well_formed (db w1)).
  { apply run_well_formed; [exact Hj | | split; assumption].
    intros n. apply json_text_single_byte, Hu. }
  split; [apply Hw1|]. split.
  - intros c user chatID w2 E.
    pose proof (perform_front c w1 w2 user chatID (proj2 Hw1) E) as Hf.
    split; [|split].
    + rewrite Hf, decide_True by reflexivity. reflexivity.
    + rewrite Hf, decide_True by reflexivity. apply NoDup_front, Hw1.
    + intros other Hne. rewrite Hf, decide_False by exact Hne. reflexivity.
  - intros Q. split.
    + intros user title Hl1. cbn [perform]. unfold bind, ret.
      pose proof (NewChat_cases user title w1) as H. cbv zeta in H.
      destruct (Marshal_summary Hj
                  (mkSummary (uuid_src w1 (uuid_ctr w1))
                     (if String.eqb (strings_TrimSpace title) ""
                      then "New chat" else title) (now w1)))
        as [payload HM].
      rewrite HM, Q in H. cbn [hd] in H.
      destruct (NewChat user title w1) as [r w2]. cbn [fst snd] in H.
      exists w2.
      destruct (db w1 !! userChatsKey user) as [[v|l]|] eqn:Ei.
      * exfalso. apply (Hl1 v). exact Ei.
      * destruct H as [-> _]. reflexivity.
      * destruct H as [-> _]. reflexivity.
    + intros user chatID role content Hok Hl1. cbn [perform].
      unfold bind, ret.
      destruct (AppendMessage_quiet user chatID role content w1 Hj Q Hok
                  Hl1) as (w2 & p & sm & p' & E & _).
      rewrite E. eauto.
Qed.

(** *** Summary records and ownership records go in pairs *)

(** *** Titles *)

Lemma titled_saved user (s : ChatSummary) p d chatID title :
  encoding_json -> json_text (ID s) = ID s ->
  json_Marshal s = Some p ->
  (ID s = chatID -> Title s = title /\ json_text title = title) ->
  titled chatID title d -> titled chatID title (saved user (ID s) p d).
Proof.
  intros Hj Hv HM Ht [Hc (s0 & Hr & Ht0)]. split.
  - intros k s'. rewrite resolve_saved. case_decide.
    + rewrite (Unmarshal_summary Hj _ _ HM). intros [= <-]. subst k.
      exact Hv.
    + apply Hc.
  - rewrite resolve_saved. case_decide as Hd.
    + rewrite (Unmarshal_summary Hj _ _ HM). eexists. split; [reflexivity|].
      destruct (Ht (eq_sym Hd)) as [Hts Hvt]. cbn. rewrite Hts. exact Hvt.
    + eauto.
Qed.

Lemma titled_half_saved user (s : ChatSummary) p d chatID title :
  encoding_json -> json_text (ID s) = ID s ->
  json_Marshal s = Some p ->
  (ID s = chatID -> Title s = title /\ json_text title = title) ->
  titled chatID title d -> titled chatID title (half_saved user (ID s) p d).
Proof.
  intros Hj Hv HM Ht [Hc (s0 & Hr & Ht0)]. split.
  - intros k s'. rewrite resolve_half_saved. case_decide.
    + rewrite (Unmarshal_summary Hj _ _ HM). intros [= <-]. subst k.
      exact Hv.
    + apply Hc.
  - rewrite resolve_half_saved. case_decide as Hd.
    + rewrite (Unmarshal_summary Hj _ _ HM). eexists. split; [reflexivity|].
      destruct (Ht (eq_sym Hd)) as [Hts Hvt]. cbn. rewrite Hts. exact Hvt.
    + eauto.
Qed.

Lemma titled_pushed c payload d chatID title :
  titled chatID title d -> titled chatID title (pushed c payload d).
Proof.
  intros [Hc (s0 & Hr & Ht0)]. split.
  - intros k s. rewrite resolve_pushed. apply Hc.
  - exists s0. rewrite resolve_pushed. auto.
Qed.

(** A touch leaves a title other than "New chat" as it is. *)
Lemma touched_titled user c content d r d' chatID title :
  encoding_json -> title <> "New chat" ->
  titled chatID title d -> touched user c content d r d' ->
  titled chatID title d'.
Proof.
  intros Hj Hne Hti Ht.
  assert (Hsame : forall s : ChatSummary,
             resolve d c = Some s -> ID s = chatID ->
             (if String.eqb (Title s) "New chat"
                 && negb (String.eqb (strings_TrimSpace content) "")
              then summarizeTitle content else Title s) = title
             /\ json_text title = title).
  { intros s Hr Hid. destruct Hti as [Hc (s0 & Hr0 & Ht0)].
    assert (c = chatID) by (rewrite <- (Hc c s Hr); exact Hid). subst c.
    assert (s = s0) by congruence. subst s0.
    destruct (String.eqb_spec (Title s) "New chat") as [E|E];
      [congruence|].
    cbn [andb]. split; [exact Ht0|].
    rewrite <- Ht0. apply (resolve_valid _ _ _ Hj Hr). }
  destruct Ht as [e | s t p Hr HM Hl | s t p Hr HM].
  - exact Hti.
  - refine (titled_saved user _ p d chatID title Hj _ HM _ Hti).
    + apply (resolve_valid _ _ _ Hj Hr).
    + exact (Hsame s Hr).
  - refine (titled_half_saved user _ p d chatID title Hj _ HM _ Hti).
    + apply (resolve_valid _ _ _ Hj Hr).
    + exact (Hsame s Hr).
Qed.

Lemma stored_titled user c payload content d r d' chatID title :
  encoding_json -> title <> "New chat" ->
  titled chatID title d -> stored user c payload content d r d' ->
  titled chatID title d'.
Proof.
  intros Hj Hne Hti Hs. destruct Hs as [e | r d' Hl Ht]; [exact Hti|].
  eapply touched_titled; [exact Hj | exact Hne | | exact Ht].
  apply titled_pushed. exact Hti.
Qed.

Lemma perform_titled (c : Call) (w : World) chatID title :
  encoding_json -> title <> "New chat" ->
  json_text (uuid_src w (uuid_ctr w)) = uuid_src w (uuid_ctr w) ->
  uuid_src w (uuid_ctr w) <> chatID ->
  titled chatID title (db w) -> titled chatID title (db (snd (perform c w))).
Proof.
  intros Hj Hne Hv Hfresh Hti.
  destruct c as [user ttl | user c role content
                | s user c model temperature];
    cbn [perform]; unfold bind, ret.
  - pose proof (NewChat_cases user ttl w) as H. cbv zeta in H.
    destruct (NewChat user ttl w) as [r w'] eqn:E. cbn [fst snd] in H.
    assert (Hw' : titled chatID title (db w')).
    { match type of H with
      | context [json_Marshal ?s] =>
          destruct (json_Marshal s) as [p|] eqn:EM
      end; [|destruct H as [_ ->]; exact Hti].
      destruct (hd false (faults w)); [destruct H as [_ ->]; exact Hti|].
      destruct (db w !! userChatsKey user) as [[v|l]|];
        destruct H as [_ ->];
        first [ refine (titled_saved user
                          (mkSummary (uuid_src w (uuid_ctr w)) _ (now w))
                          p (db w) chatID title Hj Hv EM _ Hti)
              | refine (titled_half_saved user
                          (mkSummary (uuid_src w (uuid_ctr w)) _ (now w))
                          p (db w) chatID title Hj Hv EM _ Hti) ];
        cbn [ID]; intros Heq; contradiction. }
    destruct r; exact Hw'.
  - destruct (AppendMessage user c role content w) as [r w'] eqn:E.
    assert (Hw' : titled chatID title (db w')).
    { apply AppendMessage_effect in E.
      destruct E as [(e & _ & ->) | (p & ru & _ & _ & Hst & _)];
        [exact Hti | eapply stored_titled; eauto]. }
    destruct r; exact Hw'.
  - destruct (RunCompletion s user c model temperature w)
      as [r w'] eqn:E.
    assert (Hw' : titled chatID title (db w')).
    { apply RunCompletion_effect in E.
      destruct E as [(e & _ & ->) | (rs & us & p & ru & _ & _ & _ & Hst & _)];
        [exact Hti | eapply stored_titled; eauto]. }
    destruct r; exact Hw'.
Qed.

Lemma run_titled (cs : list Call) chatID title :
  encoding_json -> title <> "New chat" ->
  forall w,
    (forall n, json_text (uuid_src w n) = uuid_src w n) ->
    (forall n, (uuid_ctr w <= n)%nat -> uuid_src w n <> chatID) ->
    titled chatID title (db w) -> titled chatID title (db (run cs w)).
Proof.
  intros Hj Hne. induction cs as [|c cs IH]; intros w Hv Hf Hti; cbn [run];
    [exact Hti|].
  destruct (steady_perform c w) as [Hs Hle].
  apply IH.
  - intros n. rewrite Hs. apply Hv.
  - intros n Hn. rewrite Hs. apply Hf. lia.
  - apply perform_titled; auto.
Qed.

(** C3 (as amended). A touch that succeeds of a chat whose stored title is
    "New chat", with content that is not blank, stores as title the first
    32 characters of the trimmed content: shown for trimmed content that
    is ASCII, and for trimmed content of at most 32 bytes of valid UTF-8,
    which is then the title as a whole.  A touch that succeeds of a chat
    whose stored title is not "New chat", or with blank content, leaves
    the title as it is.  On a server that answers, the touch does succeed.
    A title other than "New chat" is never changed again, whatever calls
    follow, by any users, succeeding or not. *)
Theorem touch_title (w : World) (user chatID content : string)
    (summary : ChatSummary) :
  encoding_json ->
  consistent (db w) ->
  resolve (db w) chatID = Some summary ->
  let trimmed := strings_TrimSpace content in
  (forall w',
      touchChat user chatID content w = (Ok tt, w') ->
      exists summary',
        resolve (db w') chatID = Some summary' /\
        ID summary' = chatID /\
        (Title summary = "New chat" -> trimmed <> "" ->
         (single_byte trimmed = true ->
          Title summary' = String.substring 0 32 trimmed) /\
         ((String.length trimmed <= 32)%nat ->
          json_text trimmed = trimmed -> Title summary' = trimmed)) /\
        (Title summary <> "New chat" \/ trimmed = "" ->
         Title summary' = Title summary)) /\
  (faults w = [] -> list_key (db w) (userChatsKey user) ->
   exists w', touchChat user chatID content w = (Ok tt, w')) /\
  (Title summary <> "New chat" ->
   (forall n, single_byte (uuid_src w n) = true) ->
   (forall n, (uuid_ctr w <= n)%nat -> uuid_src w n <> chatID) ->
   forall cs,
   exists summary',
     resolve (db (run cs w)) chatID = Some summary' /\
     Title summary' = Title summary).
Proof.
  intros Hj Hc Hr trimmed.
  pose proof (Hc _ _ Hr) as Hid.
  destruct (resolve_valid _ _ _ Hj Hr) as [Hvi Hvt].
  split; [|split].
  - intros w' E. apply touchChat_touched in E.
    inversion E as [| s t p Hr' HM Hl Hok Hdb |].
    assert (s = summary) by congruence. subst s.
    rewrite resolve_saved, Hid, decide_True by reflexivity.
    rewrite (Unmarshal_summary Hj _ _ HM).
    eexists. split; [reflexivity|]. cbn [json_summary ID Title].
    split; [rewrite Hvi; exact Hid|]. fold trimmed. split.
    + intros Ht Hb. rewrite Ht, String.eqb_refl.
      destruct (String.eqb_spec trimmed "") as [?|_]; [contradiction|].
      cbn [andb negb].
      rewrite summarizeTitle_eq. fold trimmed. split.
      * intros Hs. apply json_text_single_byte, single_byte_substring, Hs.
      * intros Hlen Hv. rewrite substring_all by exact Hlen. exact Hv.
    + intros [Ht|Hb].
      * destruct (String.eqb_spec (Title summary) "New chat");
          [contradiction|]. exact Hvt.
      * rewrite Hb. cbn [String.eqb negb]. rewrite andb_false_r. exact Hvt.
  - intros Q Hl.
    destruct (Marshal_summary Hj
                (mkSummary (ID summary)
                   (if String.eqb (Title summary) "New chat"
                       && negb (String.eqb (strings_TrimSpace content) "")
                    then summarizeTitle content else Title summary)
                   (now w))) as [payload HM].
    destruct (touchChat_quiet user chatID content w summary payload Q Hr Hl HM)
      as (w' & E & _).
    exists w'. exact E.
  - intros Hne Hu Hf cs.
    apply (run_titled cs chatID (Title summary) Hj Hne w).
    + intros n. apply json_text_single_byte, Hu.
    + exact Hf.
    + split; [exact Hc | eauto].
Qed.

Lemma paired_pushed c payload d : paired d -> paired (pushed c payload d).
Proof.
  intros P k. unfold pushed.
  rewrite !lookup_insert_ne by auto with keys. apply P.
Qed.

Lemma touched_paired user chatID content d r d' :
  paired d -> touched user chatID content d r d' -> paired d'.
Proof.
  intros P Ht. destruct Ht;
    [exact P | apply paired_saved, P | apply paired_half_saved, P].
Qed.

Lemma stored_paired user chatID payload content d r d' :
  paired d -> stored user chatID payload content d r d' -> paired d'.
Proof.
  intros P Hs. destruct Hs as [e | r d' Hl Ht]; [exact P|].
  eapply touched_paired; [|exact Ht]. apply paired_pushed, P.
Qed.

Lemma perform_paired (c : Call) (w : World) :
  paired (db w) -> paired (db (snd (perform c w))).
Proof.
  intros P. destruct c as [user title | user chatID role content
                          | s user chatID model temperature];
    cbn [perform]; unfold bind, ret.
  - destruct (NewChat user title w) as [r w'] eqn:E.
    assert (P' : paired (db w')).
    { apply NewChat_effect in E.
      destruct E as [(e & _ & ->) | (sm & p & HM & [[_ ->] | [_ ->]])];
        [exact P | apply paired_saved, P | apply paired_half_saved, P]. }
    destruct r; exact P'.
  - destruct (AppendMessage user chatID role content w) as [r w'] eqn:E.
    assert (P' : paired (db w')).
    { apply AppendMessage_effect in E.
      destruct E as [(e & _ & ->) | (p & ru & _ & _ & Hst & _)];
        [exact P | eapply stored_paired; eauto]. }
    destruct r; exact P'.
  - destruct (RunCompletion s user chatID model temperature w)
      as [r w'] eqn:E.
    assert (P' : paired (db w')).
    { apply RunCompletion_effect in E.
      destruct E as [(e & _ & ->) | (rs & us & p & ru & _ & _ & _ & Hst & _)];
        [exact P | eapply stored_paired; eauto]. }
    destruct r; exact P'.
Qed.

Lemma run_paired (cs : list Call) :
  forall w, paired (db w) -> paired (db (run cs w)).
Proof.
  induction cs as [|c cs IH]; intros w P; cbn [run]; [exact P|].
  apply IH, perform_paired, P.
Qed.

(** C2 (as amended). [NewChat] queues the summary record, the ownership
    record and the front insertion in the user's index (any earlier
    occurrence removed) in one transaction.  When the transaction is not
    delivered, or the summary cannot be encoded, the call fails and the
    server is as it was.  When it is delivered and the index key holds a
    list or nothing, the three are on the server and the call returns
    the summary: on such a server it is all or none.  When the index key
    holds something else, the two records are written, the index is not,
    and the call fails.  The two records are always written together:
    a server on which summary records and ownership records go in pairs
    stays so, through this call and through every sequence of calls that
    follows; and index keys that hold lists or nothing go on doing so. *)
Theorem NewChat_atomic (w : World) (user title : string) :
  let chatID := uuid_src w (uuid_ctr w) in
  let summary :=
    mkSummary chatID
      (if String.eqb (strings_TrimSpace title) "" then "New chat"
       else title) (now w) in
  let r := fst (NewChat user title w) in
  let w' := snd (NewChat user title w) in
  let records payload :=
    <[chatOwnerKey chatID := RString user]>
      (<[chatMetaKey chatID := RString payload]> (db w)) in
  let all payload :=
    <[userChatsKey user :=
        RList (chatID :: filter (fun x => x <> chatID) (index (db w) user))]>
      (records payload) in
  (match json_Marshal summary with
   | None => r = Err json_Error /\ db w' = db w
   | Some payload =>
       if hd false (faults w)
       then r = Err redis_Unavailable /\ db w' = db w
       else match db w !! userChatsKey user with
            | Some (RString _) =>
                r = Err redis_WrongType /\ db w' = records payload
            | _ => r = Ok summary /\ db w' = all payload
            end
   end) /\
  (list_key (db w) (userChatsKey user) ->
   (exists payload,
       json_Marshal summary = Some payload /\
       r = Ok summary /\ db w' = all payload)
   \/ (exists e, r = Err e /\ db w' = db w)) /\
  (paired (db w) ->
   paired (db w') /\ forall cs, paired (db (run cs w'))) /\
  ((forall u, list_key (db w) (userChatsKey u)) ->
   forall cs u, list_key (db (run cs w')) (userChatsKey u)).
Proof.
  intros chatID summary r w' records all.
  pose proof (NewChat_cases user title w) as H. cbv zeta in H.
  fold chatID summary r w' in H.
  split; [exact H|]. split; [|split].
  - intros Hl.
    destruct (json_Marshal summary) as [payload|]; [|right; eauto].
    destruct (hd false (faults w)); [right; eauto|].
    destruct (db w !! userChatsKey user) as [[v|l]|] eqn:E.
    + exfalso. apply (Hl v). exact E.
    + left. exists payload. destruct H as [H1 H2].
      split; [reflexivity|]. split; [exact H1 | exact H2].
    + left. exists payload. destruct H as [H1 H2].
      split; [reflexivity|]. split; [exact H1 | exact H2].
  - assert (HP : paired (db w) -> paired (db w')).
    { intros P. apply (perform_paired (CallNewChat user title) w) in P.
      revert P. subst w'. cbn [perform]. unfold bind, ret.
      destruct (NewChat user title w) as [[sm|e] w1]; auto. }
    intros P. split; [|intros cs; apply run_paired]; apply HP, P.
  - intros Hl cs. apply run_index_lists.
    pose proof (perform_index_lists (CallNewChat user title) w Hl) as P.
    revert P. subst w'. cbn [perform]. unfold bind, ret.
    destruct (NewChat user title w) as [[sm|e] w1]; auto.
Qed.

End ChatProofs.

(** ** The concrete codec decodes what it encodes *)

Module jsontext_facts.
Import jsontext.

Lemma append_cons (c : ascii) (s t : string) :
  String c s +:+ t = String c (s +:+ t).
Proof. reflexivity. Qed.

Lemma expect_append (lit rest : string) :
  expect lit (lit +:+ rest) = Some rest.
Proof.
  induction lit as [|a lit IH]; [destruct rest; reflexivity|].
  rewrite append_cons. cbn [expect]. rewrite Ascii.eqb_refl. exact IH.
Qed.

Lemma read_string_escape (v rest : string) :
  read_string (escape v +:+ String quote rest) = Some (v, rest).
Proof.
  induction v as [|c v IH].
  - reflexivity.
  - cbn [escape].
    destruct (Ascii.eqb c quote) eqn:Eq; cbn [orb].
    + rewrite !append_cons. cbn [read_string].
      change (Ascii.eqb backslash quote) with false.
      change (Ascii.eqb backslash backslash) with true.
      cbv beta iota. rewrite IH. reflexivity.
    + destruct (Ascii.eqb c backslash) eqn:Eb.
      * rewrite !append_cons. cbn [read_string].
        change (Ascii.eqb backslash quote) with false.
        change (Ascii.eqb backslash backslash) with true.
        cbv beta iota. rewrite IH. reflexivity.
      * rewrite append_cons. cbn [read_string]. rewrite Eq, Eb, IH.
        reflexivity.
Qed.

Lemma read_field_field (name v rest : string) :
  read_field name (field name v rest) = Some (v, rest).
Proof.
  unfold read_field, field. rewrite expect_append. apply read_string_escape.
Qed.

Lemma read_decimal_decimal (z : Z) : read_decimal (decimal z) = Some z.
Proof.
  unfold read_decimal, decimal. rewrite NilZero.isi.
  - cbn [option_map]. rewrite DecimalZ.of_to. reflexivity.
  - destruct z; cbn [Z.to_int]; try discriminate;
      intros [= H]; exact (DecimalPos.Unsigned.to_uint_nonnil _ H).
  - destruct z; cbn [Z.to_int]; try discriminate;
      intros [= H]; exact (DecimalPos.Unsigned.to_uint_nonnil _ H).
Qed.

Lemma ChatSummary_round_trip (s : ChatSummary) (p : string) :
  json_Marshal s = Some p -> json_Unmarshal p = Some s.
Proof.
  cbn [json_Marshal json_Unmarshal json_ChatSummary].
  unfold marshal_ChatSummary, unmarshal_ChatSummary. intros [= <-].
  rewrite expect_append. cbn [mbind option_bind].
  rewrite read_field_field. cbn [mbind option_bind].
  rewrite expect_append. cbn [mbind option_bind].
  rewrite read_field_field. cbn [mbind option_bind].
  rewrite expect_append. cbn [mbind option_bind].
  rewrite read_field_field. cbn [mbind option_bind].
  rewrite read_decimal_decimal. cbn [mbind option_bind].
  destruct s; reflexivity.
Qed.

Lemma Message_round_trip (m : Message) (p : string) :
  json_Marshal m = Some p -> json_Unmarshal p = Some m.
Proof.
  cbn [json_Marshal json_Unmarshal json_Message].
  unfold marshal_Message, unmarshal_Message. intros [= <-].
  rewrite expect_append. cbn [mbind option_bind].
  rewrite read_field_field. cbn [mbind option_bind].
  rewrite expect_append. cbn [mbind option_bind].
  rewrite read_field_field. cbn [mbind option_bind].
  rewrite expect_append. cbn [mbind option_bind].
  rewrite read_field_field. cbn [mbind option_bind].
  rewrite read_decimal_decimal. cbn [mbind option_bind].
  destruct m; reflexivity.
Qed.

End jsontext_facts.

Module gojson_facts.
Import gojson.

(** The codec [gojson] has the laws of [encoding/json]. *)
Lemma gojson_laws : encoding_json.
Proof.
  split.
  - intros s. eexists. reflexivity.
  - intros m. eexists. reflexivity.
  - intros s p H.
    apply jsontext_facts.ChatSummary_round_trip in H.
    cbn [json_Unmarshal json_ChatSummary]. unfold unmarshal_ChatSummary.
    cbn [json_Unmarshal jsontext.json_ChatSummary] in H. rewrite H.
    cbn [option_map]. rewrite json_summary_twice. reflexivity.
  - intros m p H.
    apply jsontext_facts.Message_round_trip in H.
    cbn [json_Unmarshal json_Message]. unfold unmarshal_Message.
    cbn [json_Unmarshal jsontext.json_Message] in H. rewrite H.
    cbn [option_map]. rewrite json_message_twice. reflexivity.
  - intros p s. cbn [json_Unmarshal json_ChatSummary].
    unfold unmarshal_ChatSummary.
    destruct (jsontext.unmarshal_ChatSummary p) as [s0|]; [|discriminate].
    intros [= <-]. apply json_summary_twice.
Qed.

End gojson_facts.

(** ** The service at work on sample worlds *)

Module scenarios.
Import jsontext jsontext_facts samples.

(** The end-to-end path: a chat is created, the user writes, the backend
    replies, the owner reads both messages in order under the derived
    title. *)
Example conversation :
  let w2 := snd (AppendMessage "u" "c0" "user"
                   "hello there, how are you today friend" world1) in
  let w3 := snd (RunCompletion fine "u" "c0" "model-x" half w2) in
  fst (GetChat "u" "c0" w3)
  = Ok (mkView (mkSummary "c0" "hello there, how are you today f" 1004)
          [mkMessage "user" "hello there, how are you today friend" 1001;
           mkMessage "assistant" "fine" 1003]).
Proof. vm_compute. reflexivity. Qed.

Example completion_backend_down :
  fst (RunCompletion down "u" "c0" "model-x" half world1)
  = Err (openai_Error "openai request failed") /\
  db (snd (RunCompletion down "u" "c0" "model-x" half world1)) = db world1.
Proof. split; vm_compute; reflexivity. Qed.

Example trim_unicode :
  strings_TrimSpace
    (String (ascii_of_nat 194) (String (ascii_of_nat 160) " a b "))
  = "a b".
Proof. vm_compute. reflexivity. Qed.

(** The cut of [summarizeTitle] counts bytes: of twenty two-byte
    characters it keeps sixteen. *)
Example title_cut_counts_bytes :
  let content :=
    String.concat ""
      (repeat (String (ascii_of_nat 195) (String (ascii_of_nat 169) "")) 20) in
  utf8_RuneCountInString content = 20%nat /\
  String.length (summarizeTitle content) = 32%nat /\
  utf8_RuneCountInString (summarizeTitle content) = 16%nat.
Proof. cbv zeta. repeat split; vm_compute; reflexivity. Qed.

Lemma ownership_isolation_witness :
  (GetChat "v" "c0" world1 = (Err not_authorized, tick world1) /\
   AppendMessage "v" "c0" "user" "hi" world1
   = (Err not_authorized, tick world1) /\
   db (tick world1) = db world1) /\
  (GetChat "v" "nowhere" world1 = (Err not_authorized, tick world1) /\
   AppendMessage "v" "nowhere" "user" "hi" world1
   = (Err not_authorized, tick world1) /\
   db (tick world1) = db world1).
Proof.
  split.
  - apply (ownership_isolation world1 "v" "c0" "user" "hi").
    + reflexivity.
    + right. exists "u". split; [vm_compute; reflexivity | discriminate].
  - apply (ownership_isolation world1 "v" "nowhere" "user" "hi").
    + reflexivity.
    + left. vm_compute. reflexivity.
Defined.

(** C3, the claim as stated fails: a chat titled "New chat" receives the
    message "New chat"; the title derived from it, the first 32
    characters of the trimmed content, is "New chat" again, and the next
    append changes the title a second time. *)
Lemma title_derived_twice :
  let w2 := snd (AppendMessage "u" "c0" "user" "New chat" world1) in
  let w3 := snd (AppendMessage "u" "c0" "user" "hello" w2) in
  Title <$> resolve (db world1) "c0" = Some "New chat" /\
  strings_TrimSpace "New chat" <> "" /\
  is_Ok (fst (AppendMessage "u" "c0" "user" "New chat" world1)) = true /\
  Title <$> resolve (db w2) "c0"
  = Some (String.substring 0 32 (strings_TrimSpace "New chat")) /\
  is_Ok (fst (AppendMessage "u" "c0" "user" "hello" w2)) = true /\
  Title <$> resolve (db w3) "c0" = Some "hello" /\
  Title <$> resolve (db w3) "c0" <> Title <$> resolve (db w2) "c0".
Proof.
  cbv zeta. repeat split; try (vm_compute; reflexivity);
    vm_compute; discriminate.
Qed.

(** The chat touched last is first; an identifier is listed once. *)
Example index_after_touch :
  index (db (run [CallNewChat "u" ""; CallNewChat "u" "second";
                  CallAppendMessage "u" "c0" "user" "hi"] world0)) "u"
  = ["c0"; "c1"].
Proof. vm_compute. reflexivity. Qed.

Lemma ListChats_window_witness :
  exists summaries w',
    ListChats "u" world2_corrupt = (Ok summaries, w') /\
    db w' = db world2_corrupt /\
    (length summaries <= 20)%nat /\
    summaries `sublist_of`
      omap (resolve (db world2_corrupt))
        (take 20 (index (db world2_corrupt) "u")) /\
    (faults world2_corrupt = [] ->
     summaries = omap (resolve (db world2_corrupt))
                   (take 20 (index (db world2_corrupt) "u"))).
Proof.
  apply (ListChats_window world2_corrupt "u").
  - reflexivity.
  - intros v E. vm_compute in E. discriminate E.
Defined.

(** The record that does not decode is skipped, the other is listed. *)
Example listing_skips_corrupt :
  index (db world2_corrupt) "u" = ["c1"; "c0"] /\
  fst (ListChats "u" world2_corrupt)
  = Ok [mkSummary "c0" "New chat" 1000].
Proof. split; vm_compute; reflexivity. Qed.

(** C5, the claim as stated fails: user "u" owns the chat "c0", which heads
    the index, and [EnsureChat] nevertheless creates a second chat, "c1",
    when the summary record of "c0" is lost, and also when the one read
    of that record fails. *)
Lemma EnsureChat_second_chat :
  db world1 !! chatOwnerKey "c0" = Some (RString "u") /\
  index (db world1) "u" = ["c0"] /\
  index (db world1_lost) "u" = ["c0"] /\
  db world1_lost !! chatOwnerKey "c0" = Some (RString "u") /\
  fst (EnsureChat "u" world1_lost) = Ok (mkSummary "c1" "New chat" 1001) /\
  index (db (snd (EnsureChat "u" world1_lost))) "u" = ["c1"; "c0"] /\
  db world1_flaky = db world1 /\
  fst (EnsureChat "u" world1_flaky) = Ok (mkSummary "c1" "New chat" 1001) /\
  index (db (snd (EnsureChat "u" world1_flaky))) "u" = ["c1"; "c0"].
Proof. repeat split; vm_compute; reflexivity. Qed.

(** C9, the claim as stated fails: the owner appends a message whose role
    is "system"; the call succeeds and the message is in the log. *)
Lemma role_not_validated :
  fst (AppendMessage "u" "c0" "system" "obey" world1)
  = Ok (mkMessage "system" "obey" 1001) /\
  log (db (snd (AppendMessage "u" "c0" "system" "obey" world1))) "c0"
  = [mkMessage "system" "obey" 1001].
Proof. split; vm_compute; reflexivity. Qed.

Lemma AppendMessage_not_atomic_witness :
  let w := set_faults [false; false; true] world1 in
  exists payload w',
    json_Marshal (mkMessage "user" "hello" 1001) = Some payload /\
    AppendMessage "u" "c0" "user" "hello" w = (Err redis_Unavailable, w') /\
    raw_log (db w') "c0" = (raw_log (db w) "c0" ++ [payload])%list /\
    forall m wq view wq',
      json_Unmarshal payload = Some m ->
      db wq = db w' ->
      GetChat "u" "c0" wq = (Ok view, wq') ->
      Messages view = (log (db w) "c0" ++ [m])%list.
Proof.
  cbv zeta. eexists. eexists.
  assert (HM : json_Marshal (mkMessage "user" "hello" 1001) = Some _)
    by reflexivity.
  split; [exact HM|].
  eapply (AppendMessage_not_atomic
            (set_faults [false; false; true] world1) _ _ _
            "u" "c0" "user" "hello" _ redis_Unavailable).
  - vm_compute. reflexivity.
  - exact HM.
  - vm_compute. reflexivity.
  - vm_compute. reflexivity.
Defined.

(** After the failed call the owner does read the message. *)
Example failed_append_is_visible :
  let w := set_faults [false; false; true] world1 in
  fst (AppendMessage "u" "c0" "user" "hello" w) = Err redis_Unavailable /\
  Messages <$> (match fst (GetChat "u" "c0"
                             (snd (AppendMessage "u" "c0" "user" "hello" w)))
                with Ok view => Some view | Err _ => None end)
  = Some [mkMessage "user" "hello" 1001].
Proof. split; vm_compute; reflexivity. Qed.

End scenarios.

(** * Further properties of the chat service *)

Section ChatMore.

Context {JS : Json ChatSummary} {JM : Json Message}.

Lemma verifyOwner_reads user chatID w :
  db (snd (verifyOwner user chatID w)) = db w.
Proof.
  rewrite verifyOwner_eq. destruct (hd false (faults w)); [reflexivity|].
  destruct (db w !! chatOwnerKey chatID) as [[v|l]|]; reflexivity.
Qed.

Lemma fetchMessages_reads chatID w :
  db (snd (fetchMessages chatID w)) = db w.
Proof.
  rewrite fetchMessages_eq. destruct (hd false (faults w)); [reflexivity|].
  destruct (db w !! chatMessagesKey chatID) as [[v|l]|]; reflexivity.
Qed.

Lemma GetChat_reads user chatID w :
  db (snd (GetChat user chatID w)) = db w.
Proof.
  unfold GetChat. unfold bind at 1. rewrite verifyOwner_eq.
  destruct (hd false (faults w)); [reflexivity|].
  destruct (db w !! chatOwnerKey chatID) as [[owner|l]|]; try reflexivity.
  destruct (String.eqb owner user); cbn [negb]; [|reflexivity].
  unfold bind at 1. rewrite redis_Get_eq. cbn [tick faults set_faults db].
  destruct (hd false (tl (faults w))); [reflexivity|].
  destruct (db w !! chatMetaKey chatID) as [[p|l]|]; try reflexivity.
  destruct (json_Unmarshal p) as [summary|]; [|reflexivity].
  unfold bind. rewrite fetchMessages_eq. cbn [tick faults set_faults db].
  destruct (hd false (tl (tl (faults w)))); [reflexivity|].
  destruct (db w !! chatMessagesKey chatID) as [[v|l]|]; reflexivity.
Qed.

(** X1. Whatever the server does, a caller who is not the recorded owner of
    a chat gets no result from [GetChat], [AppendMessage] or
    [RunCompletion] on it, and none of them writes anything. *)
Theorem only_the_owner (s : Service) (w : World)
    (user chatID role content model : string)
    (temperature : openai.float64) :
  db w !! chatOwnerKey chatID <> Some (RString user) ->
  (is_Ok (fst (GetChat user chatID w)) = false /\
   db (snd (GetChat user chatID w)) = db w) /\
  (is_Ok (fst (AppendMessage user chatID role content w)) = false /\
   db (snd (AppendMessage user chatID role content w)) = db w) /\
  (is_Ok (fst (RunCompletion s user chatID model temperature w)) = false /\
   db (snd (RunCompletion s user chatID model temperature w)) = db w).
Proof.
  intros Hno. split; [|split].
  - split; [|apply GetChat_reads].
    destruct (GetChat user chatID w) as [[view|e] w'] eqn:E; [|reflexivity].
    apply GetChat_Ok in E. destruct E as [Ho _]. contradiction.
  - destruct (AppendMessage user chatID role content w) as [r w'] eqn:E.
    apply AppendMessage_effect in E. cbn [fst snd].
    destruct E as [(e & -> & ->) | (p & ru & Ho & _)]; [auto | contradiction].
  - destruct (RunCompletion s user chatID model temperature w)
      as [r w'] eqn:E.
    apply RunCompletion_effect in E. cbn [fst snd].
    destruct E as [(e & -> & ->) | (rs & us & p & ru & Ho & _)];
      [auto | contradiction].
Qed.

(** X2. [RunCompletion] refuses a caller who is not the owner, or a chat
    with no ownership record, with "not authorized", before reading the
    log or asking the backend: the outcome is the same for every backend,
    model and temperature. *)
Theorem RunCompletion_refuses (s : Service) (w : World)
    (user chatID model : string) (temperature : openai.float64) :
  answered w ->
  (db w !! chatOwnerKey chatID = None \/
   exists owner,
     db w !! chatOwnerKey chatID = Some (RString owner) /\ owner <> user) ->
  RunCompletion s user chatID model temperature w
  = (Err not_authorized, tick w).
Proof.
  intros Hans Hown. unfold RunCompletion. unfold bind at 1.
  rewrite verifyOwner_eq, Hans.
  destruct Hown as [-> | (owner & -> & Hne)]; [reflexivity|].
  apply String.eqb_neq in Hne. rewrite Hne. reflexivity.
Qed.

(** X3. The reading calls never write: whatever they return and whatever
    the server does, [GetChat] and [ListChats] leave every key as it
    was. *)
Theorem readers_never_write (w : World) (user chatID : string) :
  db (snd (GetChat user chatID w)) = db w /\
  db (snd (ListChats user w)) = db w.
Proof. split; [apply GetChat_reads | apply ListChats_reads]. Qed.

(** X4. What the owner reads on a server that answers: an error when the
    summary record is missing ([redis.Nil]) or does not decode, although
    the chat is owned and may hold messages; otherwise the decoded
    summary with the messages of the log that decode, in stored order, a
    missing log reading as empty. *)
Theorem GetChat_answer (w : World) (user chatID : string) :
  faults w = [] ->
  db w !! chatOwnerKey chatID = Some (RString user) ->
  GetChat user chatID w =
  (match db w !! chatMetaKey chatID with
   | None => Err redis_Nil
   | Some (RList _) => Err redis_WrongType
   | Some (RString metaData) =>
       match json_Unmarshal metaData with
       | None => Err json_Error
       | Some summary =>
           match db w !! chatMessagesKey chatID with
           | Some (RString _) => Err redis_WrongType
           | _ => Ok (mkView summary
                        (omap json_Unmarshal (raw_log (db w) chatID)))
           end
       end
   end, w).
Proof.
  intros Q Ho. unfold GetChat. unfold bind at 1.
  rewrite verifyOwner_eq, Q, Ho, String.eqb_refl, (tick_quiet w Q).
  cbn [hd negb]. unfold bind at 1. rewrite redis_Get_eq, Q, (tick_quiet w Q).
  cbn [hd].
  destruct (db w !! chatMetaKey chatID) as [[p|l]|]; try reflexivity.
  destruct (json_Unmarshal p) as [summary|]; [|reflexivity].
  unfold bind. rewrite fetchMessages_eq, Q, (tick_quiet w Q). cbn [hd].
  destruct (db w !! chatMessagesKey chatID) as [[v|l]|]; reflexivity.
Qed.

Lemma NewChat_outcome user title w :
  let summary :=
    mkSummary (uuid_src w (uuid_ctr w))
      (if String.eqb (strings_TrimSpace title) "" then "New chat" else title)
      (now w) in
  (exists e, fst (NewChat user title w) = Err e) \/
  (exists payload,
      json_Marshal summary = Some payload /\
      NewChat user title w
      = (Ok summary,
         set_db (saved user (ID summary) payload (db w))
           (tick (snd (time_Now (snd (uuid_NewString w))))))).
Proof.
  intros summary. unfold NewChat, bind.
  cbn [uuid_NewString time_Now fst snd db faults now uuid_src uuid_ctr].
  fold summary. rewrite saveChatMeta_eq.
  destruct (json_Marshal summary) as [payload|] eqn:EM; [|left; eauto].
  cbn [faults db].
  destruct (hd false (faults w)); [left; eauto|].
  destruct (db w !! userChatsKey user) as [[v|l]|]; [left; eauto | |];
    right; exists payload; split; reflexivity.
Qed.

(** X5. The summary that [NewChat] returns carries the identifier just
    drawn and the current time; its title is "New chat" when the given
    title is blank, and otherwise the given title as it is, surrounding
    white space included. *)
Theorem NewChat_summary (w w' : World) (user title : string)
    (summary : ChatSummary) :
  NewChat user title w = (Ok summary, w') ->
  ID summary = uuid_src w (uuid_ctr w) /\
  UpdatedAt summary = now w /\
  Title summary
  = (if decide (strings_TrimSpace title = "") then "New chat" else title) /\
  uuid_ctr w' = S (uuid_ctr w) /\
  db w' !! chatOwnerKey (ID summary) = Some (RString user) /\
  hd_error (index (db w') user) = Some (ID summary).
Proof.
  intros E.
  destruct (NewChat_outcome user title w) as [(e & He) | (p & HM & H)].
  - rewrite E in He. discriminate.
  - rewrite E in H. injection H as -> ->. cbn [ID UpdatedAt Title db set_db].
    split; [reflexivity|]. split; [reflexivity|]. split.
    { destruct (String.eqb_spec (strings_TrimSpace title) ""); case_decide;
        try reflexivity; contradiction. }
    split; [reflexivity|]. split.
    + rewrite lookup_saved_owner, decide_True by reflexivity. reflexivity.
    + rewrite index_saved, decide_True by reflexivity. reflexivity.
Qed.

(** X6. A chat that [NewChat] has created is at once readable by its
    creator on a server that answers: [GetChat] returns its summary (with
    whatever the log under that identifier already held), [ListChats]
    lists it first and [EnsureChat] returns it.  The codec must give the
    summary back as it was. *)
Theorem NewChat_then_read (w w' : World) (user title : string)
    (summary : ChatSummary) :
  NewChat user title w = (Ok summary, w') ->
  (forall p, json_Marshal summary = Some p -> json_Unmarshal p = Some summary) ->
  list_key (db w) (chatMessagesKey (ID summary)) ->
  let q := set_faults [] w' in
  GetChat user (ID summary) q
  = (Ok (mkView summary (log (db w) (ID summary))), q) /\
  (exists rest, ListChats user q = (Ok (summary :: rest), q)) /\
  EnsureChat user q = (Ok summary, q).
Proof.
  intros E Hrt Hl q.
  destruct (NewChat_outcome user title w) as [(e & He) | (p & HM & H)].
  { rewrite E in He. discriminate. }
  rewrite E in H. injection H as Hs Hw.
  assert (Hd : db q = saved user (ID summary) p (db w)).
  { subst q summary w'. reflexivity. }
  assert (HM' : json_Marshal summary = Some p) by (rewrite Hs; exact HM).
  clear HM. rename HM' into HM.
  assert (Hres : resolve (db q) (ID summary) = Some summary).
  { rewrite Hd, resolve_saved, decide_True by reflexivity. apply Hrt, HM. }
  assert (Hlist : ListChats user q
                  = (Ok (omap (resolve (db q)) (take 20 (index (db q) user))),
                     q)).
  { apply ListChats_quiet; [reflexivity|].
    intros v. rewrite Hd, lookup_saved_index, decide_True by reflexivity.
    discriminate. }
  assert (Hhead : exists rest,
             omap (resolve (db q)) (take 20 (index (db q) user))
             = summary :: rest).
  { assert (Hi : index (db q) user
                 = ID summary
                   :: filter (fun x => x <> ID summary) (index (db w) user)).
    { rewrite Hd, index_saved, decide_True by reflexivity. reflexivity. }
    rewrite Hi. cbn [take]. rewrite omap_cons, Hres. eauto. }
  destruct Hhead as [rest Hhead]. split; [|split].
  - rewrite (GetChat_quiet user (ID summary) q summary); auto.
    + unfold log. rewrite Hd, raw_log_saved. reflexivity.
    + rewrite Hd, lookup_saved_owner, decide_True by reflexivity. reflexivity.
    + intros v. rewrite Hd, lookup_saved_messages. apply Hl.
  - exists rest. rewrite Hlist, Hhead. reflexivity.
  - unfold EnsureChat, bind. rewrite Hlist, Hhead. reflexivity.
Qed.

(** X7. On a server that answers, calling [EnsureChat] again returns the
    same chat and writes nothing, whether the first call found the chat
    or created it. *)
Theorem EnsureChat_twice (w w1 : World) (user : string)
    (summary : ChatSummary) :
  faults w = [] ->
  list_key (db w) (userChatsKey user) ->
  (forall p, json_Marshal summary = Some p -> json_Unmarshal p = Some summary) ->
  EnsureChat user w = (Ok summary, w1) ->
  EnsureChat user w1 = (Ok summary, w1).
Proof.
  intros Q Hl Hrt E.
  pose proof E as E0. revert E0. unfold EnsureChat at 1. unfold bind.
  rewrite (ListChats_quiet w user Q Hl).
  destruct (omap (resolve (db w)) (take 20 (index (db w) user)))
    as [|s0 rest] eqn:EL.
  - intros EN.
    destruct (NewChat_outcome user "New chat" w) as [(e & He) | (p & HM & H)].
    { rewrite EN in He. discriminate. }
    rewrite EN in H. injection H as Hs Hw.
    assert (Q1 : faults w1 = []).
    { rewrite Hw. cbn. rewrite Q. reflexivity. }
    assert (Hd : db w1 = saved user (ID summary) p (db w)).
    { subst summary w1. reflexivity. }
    assert (HM' : json_Marshal summary = Some p) by (rewrite Hs; exact HM).
    clear HM. rename HM' into HM.
    unfold EnsureChat, bind. rewrite (ListChats_quiet w1 user Q1).
    + assert (Hi : index (db w1) user
                   = ID summary
                     :: filter (fun x => x <> ID summary) (index (db w) user)).
      { rewrite Hd, index_saved, decide_True by reflexivity. reflexivity. }
      assert (Hres : resolve (db w1) (ID summary) = Some summary).
      { rewrite Hd, resolve_saved, decide_True by reflexivity.
        apply Hrt, HM. }
      rewrite Hi. cbn [take]. rewrite omap_cons, Hres. reflexivity.
    + intros v. rewrite Hd, lookup_saved_index, decide_True by reflexivity.
      discriminate.
  - unfold ret. intros [= -> ->]. exact E.
Qed.

Lemma bind_cong {A B} (m : M A) (k k' : A -> M B) (w : World) :
  (forall a w1, m w = (Ok a, w1) -> k a w1 = k' a w1) ->
  bind m k w = bind m k' w.
Proof.
  intros H. unfold bind. destruct (m w) as [[a|e] w1]; [|reflexivity].
  apply H. reflexivity.
Qed.

Lemma filter_ne_twice (c : string) (l : list string) :
  filter (fun x => x <> c) (c :: filter (fun x => x <> c) l)
  = filter (fun x => x <> c) l.
Proof.
  rewrite filter_cons, decide_False by (intros H; apply H; reflexivity).
  induction l as [|a l IH]; [reflexivity|].
  rewrite filter_cons. case_decide; [|exact IH].
  rewrite filter_cons, decide_True by assumption. f_equal. exact IH.
Qed.

(** X8. A chat that is touched again while it is at the front leaves its
    user's index as it is; and touching a chat that the index already
    lists only reorders the index: no other chat leaves it. *)
Theorem retouch_keeps_index (c1 c2 : Call) (w w2 w3 : World)
    (user chatID : string) :
  encoding_json ->
  single_byte (uuid_src w (uuid_ctr w)) = true ->
  consistent (db w) ->
  (forall u, NoDup (index (db w) u)) ->
  perform c1 w = (Ok (user, chatID), w2) ->
  perform c2 w2 = (Ok (user, chatID), w3) ->
  index (db w3) user = index (db w2) user /\
  (chatID ∈ index (db w) user ->
   index (db w2) user ≡ₚ index (db w) user).
Proof.
  intros Hj Hu Hc Hn E1 E2.
  pose proof (perform_front c1 w w2 user chatID Hc E1 user) as H1.
  rewrite decide_True in H1 by reflexivity.
  assert (Hw2 : well_formed (db w2)).
  { pose proof (perform_well_formed c1 w Hj
                  (json_text_single_byte _ Hu) (conj Hn Hc)) as H.
    rewrite E1 in H. exact H. }
  pose proof (perform_front c2 w2 w3 user chatID (proj2 Hw2) E2 user) as H2.
  rewrite decide_True in H2 by reflexivity.
  split.
  - rewrite H2, H1, filter_ne_twice. reflexivity.
  - intros Hin. rewrite H1. apply NoDup_Permutation.
    + apply NoDup_front, Hn.
    + apply Hn.
    + intros x. rewrite elem_of_cons, list_elem_of_filter.
      destruct (decide (x = chatID)) as [->|Hne]; [tauto|].
      split; [intros [?|[_ ?]]; [contradiction|assumption] | auto].
Qed.

Lemma NewChat_owner_frame user title w k :
  k <> uuid_src w (uuid_ctr w) ->
  db (snd (NewChat user title w)) !! chatOwnerKey k
  = db w !! chatOwnerKey k.
Proof.
  intros Hne. unfold NewChat, bind.
  cbn [uuid_NewString time_Now fst snd db faults now uuid_src uuid_ctr].
  rewrite saveChatMeta_eq.
  destruct (json_Marshal _) as [payload|]; [|reflexivity].
  cbn [faults db ID].
  destruct (hd false (faults w)); [reflexivity|].
  destruct (db w !! userChatsKey user) as [[v|l]|];
    unfold ret; cbn [snd db set_db];
    rewrite ?lookup_half_saved_owner, ?lookup_saved_owner,
      decide_False by exact Hne;
    reflexivity.
Qed.

Lemma stored_owner_frame user chatID payload content d r d' k :
  consistent d ->
  d !! chatOwnerKey chatID = Some (RString user) ->
  stored user chatID payload content d r d' ->
  d' !! chatOwnerKey k = d !! chatOwnerKey k.
Proof.
  intros Hc Ho Hst. destruct Hst as [e | r d' Hl Ht]; [reflexivity|].
  assert (Hsame : forall (summary : ChatSummary),
             resolve (pushed chatID payload d) chatID = Some summary ->
             (if decide (k = ID summary) then Some (RString user)
              else pushed chatID payload d !! chatOwnerKey k)
             = d !! chatOwnerKey k).
  { intros summary Hr. rewrite resolve_pushed in Hr. apply Hc in Hr.
    rewrite Hr. case_decide as Hk; [subst k; symmetry; exact Ho|].
    apply lookup_pushed_owner. }
  destruct Ht as [e | summary t p Hr HM Hi | summary t p Hr HM].
  - apply lookup_pushed_owner.
  - rewrite lookup_saved_owner. apply Hsame, Hr.
  - rewrite lookup_half_saved_owner. apply Hsame, Hr.
Qed.

(** X9. No call changes who owns an existing chat.  [AppendMessage] and
    [RunCompletion] leave every ownership record as it was, whether they
    succeed or fail; [NewChat] writes no ownership record but that of the
    identifier it drew. *)
Theorem ownership_is_kept (c : Call) (w : World) (k : string) :
  consistent (db w) ->
  match c with
  | CallNewChat _ _ => k <> uuid_src w (uuid_ctr w)
  | _ => True
  end ->
  db (snd (perform c w)) !! chatOwnerKey k = db w !! chatOwnerKey k.
Proof.
  intros Hc Hk. destruct c as [user title | user chatID role content
                              | s user chatID model temperature];
    cbn [perform]; unfold bind, ret.
  - pose proof (NewChat_owner_frame user title w k Hk) as H.
    destruct (NewChat user title w) as [[sm|e] w1]; exact H.
  - destruct (AppendMessage user chatID role content w) as [r w1] eqn:E.
    assert (H : db w1 !! chatOwnerKey k = db w !! chatOwnerKey k).
    { apply AppendMessage_effect in E.
      destruct E as [(e & _ & ->) | (p & ru & Ho & _ & Hst & _)];
        [reflexivity | eapply stored_owner_frame; eauto]. }
    destruct r; exact H.
  - destruct (RunCompletion s user chatID model temperature w)
      as [r w1] eqn:E.
    assert (H : db w1 !! chatOwnerKey k = db w !! chatOwnerKey k).
    { apply RunCompletion_effect in E.
      destruct E as [(e & _ & ->) | (rs & us & p & ru & Ho & _ & _ & Hst & _)];
        [reflexivity | eapply stored_owner_frame; eauto]. }
    destruct r; exact H.
Qed.

(** X10. What [RunCompletion] sends: one request carrying the model, the
    temperature and, in the order of the log, the role and content of
    every stored message that decodes, under the client's API key.  Two
    backends that answer that request alike give the same outcome. *)
Theorem RunCompletion_request (s s' : Service) (w : World)
    (user chatID model : string) (temperature : openai.float64) :
  let request :=
    openai.mkRequest model
      (map (fun m => openai.mkMessage (Role m) (Content m))
           (omap json_Unmarshal (raw_log (db w) chatID)))
      temperature in
  openai.BaseURL (AI s') = openai.BaseURL (AI s) ->
  openai.HTTP (AI s') (openai.APIKey (AI s')) request
  = openai.HTTP (AI s) (openai.APIKey (AI s)) request ->
  RunCompletion s' user chatID model temperature w
  = RunCompletion s user chatID model temperature w.
Proof.
  intros request Hb Hh.
  assert (Hcc : openai.ChatCompletion (AI s') model
                  (map (fun m => openai.mkMessage (Role m) (Content m))
                       (log (db w) chatID)) temperature
                = openai.ChatCompletion (AI s) model
                    (map (fun m => openai.mkMessage (Role m) (Content m))
                         (log (db w) chatID)) temperature).
  { unfold openai.ChatCompletion. rewrite Hb. fold (log (db w) chatID) in Hh.
    subst request. unfold log in *. rewrite Hh. reflexivity. }
  unfold RunCompletion.
  apply bind_cong. intros ok w1 Hv. destruct ok; cbn [negb]; [|reflexivity].
  apply bind_cong. intros messages w2 Hf.
  assert (Hd : db w1 = db w).
  { pose proof (verifyOwner_reads user chatID w) as H.
    rewrite Hv in H. exact H. }
  assert (Hm : messages = log (db w) chatID).
  { revert Hf. rewrite fetchMessages_eq, Hd.
    destruct (hd false (faults w1)); [discriminate|].
    destruct (db w !! chatMessagesKey chatID) as [[v|l]|];
      try discriminate; intros [= <- _]; reflexivity. }
  rewrite Hm, Hcc. reflexivity.
Qed.

End ChatMore.

(** ** The completion client *)

(** X11. [ChatCompletion] returns a reply exactly when the client has a
    base URL and the backend answered with a status from 200 to 299 and a
    body that decodes and holds at least one choice; the reply is the
    first choice, with the usage of the response. *)
Theorem ChatCompletion_reply (c : openai.Client) (model : string)
    (messages : list openai.Message) (temperature : openai.float64)
    (m : openai.Message) (usage : openai.Usage) :
  openai.ChatCompletion c model messages temperature = Ok (m, usage) <->
  openai.BaseURL c <> "" /\
  exists status others,
    openai.HTTP c (openai.APIKey c)
      (openai.mkRequest model messages temperature)
    = openai.replied status
        (Some (openai.mkResponse (m :: others) usage)) /\
    200 <= status <= 299.
Proof.
  unfold openai.ChatCompletion. split.
  - destruct (String.eqb_spec (openai.BaseURL c) "") as [|Hne];
      [discriminate|].
    destruct (openai.HTTP c _ _) as [| | | |status body]; try discriminate.
    destruct (Z.ltb_spec status 200); [discriminate|].
    destruct (Z.ltb_spec 299 status); [discriminate|]. cbn [orb].
    destruct body as [[choices u]|]; [|discriminate]. cbn [openai.Choices].
    destruct choices as [|m0 others]; [discriminate|].
    cbn [openai.ResponseUsage]. intros [= -> ->].
    split; [exact Hne|]. exists status, others. split; [reflexivity|lia].
  - intros (Hne & status & others & -> & Hlo & Hhi).
    destruct (String.eqb_spec (openai.BaseURL c) "") as [|_];
      [contradiction|].
    destruct (Z.ltb_spec status 200); [lia|].
    destruct (Z.ltb_spec 299 status); [lia|]. reflexivity.
Qed.

(** * Properties of the configuration *)

(** ** Trimming *)

Lemma trimLeft_suffix (bs : list ascii) : trimLeft bs `suffix_of` bs.
Proof.
  induction bs as [bs IH] using (induction_ltof1 _ (@length ascii)).
  unfold ltof in IH.
  destruct bs as [|a r1]; [reflexivity|]. cbn [trimLeft].
  destruct (asciiSpace (byte_of a)).
  { apply suffix_cons_r, IH. simpl. lia. }
  destruct r1 as [|b r2]; [reflexivity|].
  destruct (isSpace2 (byte_of a) (byte_of b)).
  { do 2 apply suffix_cons_r. apply IH. simpl. lia. }
  destruct r2 as [|c r3]; [reflexivity|].
  destruct (isSpace3 (byte_of a) (byte_of b) (byte_of c)); [|reflexivity].
  do 3 apply suffix_cons_r. apply IH. simpl. lia.
Qed.

Lemma trimRightRev_suffix (sb : list ascii) : trimRightRev sb `suffix_of` sb.
Proof.
  induction sb as [sb IH] using (induction_ltof1 _ (@length ascii)).
  unfold ltof in IH.
  destruct sb as [|c r1]; [reflexivity|]. cbn [trimRightRev].
  destruct (asciiSpace (byte_of c)).
  { apply suffix_cons_r, IH. simpl. lia. }
  destruct r1 as [|b r2]; [reflexivity|].
  destruct (isSpace2 (byte_of b) (byte_of c)).
  { do 2 apply suffix_cons_r. apply IH. simpl. lia. }
  destruct r2 as [|a r3]; [reflexivity|].
  destruct (isSpace3 (byte_of a) (byte_of b) (byte_of c)); [|reflexivity].
  do 3 apply suffix_cons_r. apply IH. simpl. lia.
Qed.

Lemma trimLeft_twice (bs : list ascii) :
  trimLeft (trimLeft bs) = trimLeft bs.
Proof.
  induction bs as [bs IH] using (induction_ltof1 _ (@length ascii)).
  unfold ltof in IH.
  destruct bs as [|a r1]; [reflexivity|].
  cbn [trimLeft].
  destruct (asciiSpace (byte_of a)) eqn:Ea.
  { apply IH. simpl. lia. }
  destruct r1 as [|b r2].
  { cbn [trimLeft]. rewrite Ea. reflexivity. }
  destruct (isSpace2 (byte_of a) (byte_of b)) eqn:E2.
  { apply IH. simpl. lia. }
  destruct r2 as [|c r3].
  { cbn [trimLeft]. rewrite Ea, E2. reflexivity. }
  destruct (isSpace3 (byte_of a) (byte_of b) (byte_of c)) eqn:E3.
  { apply IH. simpl. lia. }
  cbn [trimLeft]. rewrite Ea, E2, E3. reflexivity.
Qed.

Lemma trimRightRev_twice (sb : list ascii) :
  trimRightRev (trimRightRev sb) = trimRightRev sb.
Proof.
  induction sb as [sb IH] using (induction_ltof1 _ (@length ascii)).
  unfold ltof in IH.
  destruct sb as [|c r1]; [reflexivity|].
  cbn [trimRightRev].
  destruct (asciiSpace (byte_of c)) eqn:Ea.
  { apply IH. simpl. lia. }
  destruct r1 as [|b r2].
  { cbn [trimRightRev]. rewrite Ea. reflexivity. }
  destruct (isSpace2 (byte_of b) (byte_of c)) eqn:E2.
  { apply IH. simpl. lia. }
  destruct r2 as [|a r3].
  { cbn [trimRightRev]. rewrite Ea, E2. reflexivity. }
  destruct (isSpace3 (byte_of a) (byte_of b) (byte_of c)) eqn:E3.
  { apply IH. simpl. lia. }
  cbn [trimRightRev]. rewrite Ea, E2, E3. reflexivity.
Qed.

(** A text with no white space in front keeps none when it is cut short. *)
Lemma trimLeft_prefix (x y : list ascii) :
  trimLeft x = x -> y `prefix_of` x -> trimLeft y = y.
Proof.
  intros Hx Hp.
  assert (Hlen : forall l (pre : list ascii),
             pre <> [] -> trimLeft l <> (pre ++ l)%list).
  { intros l pre Hpre E. pose proof (trimLeft_suffix l) as Hs.
    apply suffix_length in Hs. rewrite E, length_app in Hs.
    destruct pre; [contradiction|simpl in Hs; lia]. }
  destruct x as [|a r1]; [apply prefix_nil_inv in Hp; subst; reflexivity|].
  destruct y as [|a' y1]; [reflexivity|].
  apply prefix_cons_inv_1 in Hp as Ha. subst a'.
  apply prefix_cons_inv_2 in Hp.
  cbn [trimLeft] in Hx |- *.
  destruct (asciiSpace (byte_of a)).
  { exfalso. apply (Hlen r1 [a]); [discriminate | exact Hx]. }
  destruct r1 as [|b r2]; [apply prefix_nil_inv in Hp; subst; reflexivity|].
  destruct y1 as [|b' y2]; [reflexivity|].
  apply prefix_cons_inv_1 in Hp as Hb. subst b'.
  apply prefix_cons_inv_2 in Hp.
  destruct (isSpace2 (byte_of a) (byte_of b)).
  { exfalso. apply (Hlen r2 [a; b]); [discriminate | exact Hx]. }
  destruct r2 as [|c r3]; [apply prefix_nil_inv in Hp; subst; reflexivity|].
  destruct y2 as [|c' y3]; [reflexivity|].
  apply prefix_cons_inv_1 in Hp as Hc. subst c'.
  destruct (isSpace3 (byte_of a) (byte_of b) (byte_of c)); [|reflexivity].
  exfalso. apply (Hlen r3 [a; b; c]); [discriminate | exact Hx].
Qed.

Lemma bytes_TrimSpace (s : string) :
  list_ascii_of_string (strings_TrimSpace s)
  = rev (trimRightRev (rev (trimLeft (list_ascii_of_string s)))).
Proof.
  unfold strings_TrimSpace.
  apply list_ascii_of_string_of_list_ascii.
Qed.

Lemma bytes_inj (s t : string) :
  list_ascii_of_string s = list_ascii_of_string t -> s = t.
Proof.
  intros H. rewrite <- (string_of_list_ascii_of_string s),
    <- (string_of_list_ascii_of_string t). congruence.
Qed.

Lemma TrimSpace_twice (s : string) :
  strings_TrimSpace (strings_TrimSpace s) = strings_TrimSpace s.
Proof.
  apply bytes_inj. rewrite (bytes_TrimSpace (strings_TrimSpace s)).
  rewrite (bytes_TrimSpace s).
  set (x := trimLeft (list_ascii_of_string s)).
  assert (Hy : trimLeft (rev (trimRightRev (rev x)))
               = rev (trimRightRev (rev x))).
  { apply (trimLeft_prefix x); [apply trimLeft_twice|].
    destruct (trimRightRev_suffix (rev x)) as [k Hk].
    exists (rev k). rewrite <- (rev_involutive x), Hk at 1.
    rewrite rev_app_distr. reflexivity. }
  rewrite Hy, rev_involutive, trimRightRev_twice. reflexivity.
Qed.

Lemma TrimSpace_bytes (s : string) (c : ascii) :
  c ∈ list_ascii_of_string (strings_TrimSpace s) ->
  c ∈ list_ascii_of_string s.
Proof.
  rewrite bytes_TrimSpace. intros H.
  apply list_elem_of_In, in_rev, list_elem_of_In in H.
  destruct (trimRightRev_suffix (rev (trimLeft (list_ascii_of_string s))))
    as [k Hk].
  assert (H1 : c ∈ rev (trimLeft (list_ascii_of_string s))).
  { rewrite Hk. apply elem_of_app. right. exact H. }
  apply list_elem_of_In, in_rev, list_elem_of_In in H1.
  destruct (trimLeft_suffix (list_ascii_of_string s)) as [k' Hk'].
  rewrite Hk'. apply elem_of_app. right. exact H1.
Qed.

(** ** Splitting and joining *)

Lemma Split_not_nil (s : string) (sep : ascii) : strings_Split s sep <> [].
Proof.
  destruct s as [|c r]; simpl; [discriminate|].
  destruct (Ascii.eqb c sep); [discriminate|].
  destruct (strings_Split r sep); discriminate.
Qed.

Lemma Split_sep_free (s : string) (sep : ascii) :
  Forall (fun piece => sep ∉ list_ascii_of_string piece)
         (strings_Split s sep).
Proof.
  induction s as [|c r IH]; simpl.
  { constructor; [|constructor]. simpl. apply not_elem_of_nil. }
  destruct (Ascii.eqb_spec c sep) as [->|Hc].
  { constructor; [simpl; apply not_elem_of_nil | exact IH]. }
  destruct (strings_Split r sep) as [|piece pieces].
  { constructor; [|constructor]. simpl. intros H.
    apply elem_of_cons in H as [H|H]; [congruence|].
    exact (not_elem_of_nil _ H). }
  inversion IH as [|? ? Hp Hps]; subst. constructor; [|exact Hps].
  simpl. intros H. apply elem_of_cons in H as [H|H]; [congruence|].
  exact (Hp H).
Qed.

Lemma Split_piece (e r : string) (sep : ascii) :
  sep ∉ list_ascii_of_string e ->
  strings_Split (e +:+ String sep r) sep = e :: strings_Split r sep.
Proof.
  induction e as [|c e IH]; intros He.
  { cbv beta iota delta [String.append]. simpl.
    rewrite Ascii.eqb_refl. reflexivity. }
  change (String c e +:+ String sep r) with (String c (e +:+ String sep r)).
  simpl in He. apply not_elem_of_cons in He as [Hc He].
  cbn [strings_Split]. rewrite (IH He).
  destruct (Ascii.eqb_spec c sep) as [->|_]; [congruence|reflexivity].
Qed.

Lemma Split_whole (e : string) (sep : ascii) :
  sep ∉ list_ascii_of_string e -> strings_Split e sep = [e].
Proof.
  induction e as [|c e IH]; intros He; [reflexivity|].
  simpl in He. apply not_elem_of_cons in He as [Hc He].
  cbn [strings_Split]. rewrite (IH He).
  destruct (Ascii.eqb_spec c sep) as [->|_]; [congruence|reflexivity].
Qed.

Lemma Split_Join (l : list string) (sep : ascii) :
  l <> [] ->
  Forall (fun piece => sep ∉ list_ascii_of_string piece) l ->
  strings_Split (strings_Join l (String sep "")) sep = l.
Proof.
  induction l as [|e l IH]; intros Hl Hf; [contradiction|].
  inversion Hf as [|? ? He Hf']; subst.
  destruct l as [|e' l].
  { simpl. apply Split_whole, He. }
  change (strings_Join (e :: e' :: l) (String sep ""))
    with (e +:+ String sep "" +:+ strings_Join (e' :: l) (String sep "")).
  change (String sep "" +:+ strings_Join (e' :: l) (String sep ""))
    with (String sep (strings_Join (e' :: l) (String sep ""))).
  rewrite (Split_piece _ _ _ He), IH; [reflexivity|discriminate|exact Hf'].
Qed.

Lemma append_nil_l (a b : string) : a +:+ b = "" -> a = "".
Proof. destruct a; [reflexivity|discriminate]. Qed.

Lemma Join_nil (l : list string) (sep : string) :
  strings_Join l sep = "" -> l = [] \/ exists l', l = "" :: l'.
Proof.
  intros H. destruct l as [|e l]; [left; reflexivity|]. right.
  destruct l as [|e' l]; simpl in H.
  - subst. eexists; reflexivity.
  - apply append_nil_l in H. subst. eexists; reflexivity.
Qed.

(** ** [splitCSV] *)

Lemma cleaned_entries (parts : list string) :
  Forall (fun part => (","%char ∉ list_ascii_of_string part)) parts ->
  Forall (fun entry =>
            entry <> "" /\ (","%char ∉ list_ascii_of_string entry)
            /\ strings_TrimSpace entry = entry)
         (config.cleaned parts).
Proof.
  induction 1 as [|part parts Hp _ IH]; simpl; [constructor|].
  destruct (String.eqb_spec (strings_TrimSpace part) "") as [_|Hne];
    [exact IH|].
  constructor; [|exact IH].
  split; [exact Hne|]. split; [|apply TrimSpace_twice].
  intros H. apply Hp, TrimSpace_bytes, H.
Qed.

Lemma cleaned_clean (l : list string) :
  Forall (fun entry => entry <> "" /\ strings_TrimSpace entry = entry) l ->
  config.cleaned l = l.
Proof.
  induction 1 as [|e l [Hne Ht] _ IH]; simpl; [reflexivity|].
  rewrite Ht. destruct (String.eqb_spec e "") as [->|_]; [congruence|].
  rewrite IH. reflexivity.
Qed.

(** X12. Every entry that [splitCSV] returns is non-empty, has no comma
    and has no white space around it (trimming it again changes
    nothing), whatever the text. *)
Theorem splitCSV_entries (value : string) :
  Forall (fun entry =>
            entry <> "" /\ (","%char ∉ list_ascii_of_string entry)
            /\ strings_TrimSpace entry = entry)
         (config.splitCSV value).
Proof.
  unfold config.splitCSV. destruct (String.eqb value ""); [constructor|].
  apply cleaned_entries, Split_sep_free.
Qed.

(** X13. [splitCSV] reads back a list written with commas: when no entry
    is empty, has a comma or has white space around it, joining the
    entries with "," and splitting the text gives the entries again. *)
Theorem splitCSV_Join (entries : list string) :
  Forall (fun entry =>
            entry <> "" /\ (","%char ∉ list_ascii_of_string entry)
            /\ strings_TrimSpace entry = entry) entries ->
  config.splitCSV (strings_Join entries ",") = entries.
Proof.
  intros Hf. unfold config.splitCSV.
  destruct (String.eqb_spec (strings_Join entries ",") "") as [E|_].
  { apply Join_nil in E as [->|[l' ->]]; [reflexivity|].
    inversion Hf as [|? ? [Hne _] _]; subst. congruence. }
  destruct entries as [|e l]; [reflexivity|].
  rewrite Split_Join; [|discriminate|].
  - apply cleaned_clean. eapply Forall_impl; [exact Hf|].
    intros x (H1 & _ & H3). split; assumption.
  - eapply Forall_impl; [exact Hf|]. intros x (_ & H2 & _). exact H2.
Qed.

(** ** [Validate] *)

Lemma if_nil (b : bool) (l : list string) :
  l <> [] -> (if b then l else []) = [] <-> b = false.
Proof. destruct b; split; intros; congruence. Qed.

Lemma missing_nil (c : config.Config) :
  config.missing c = [] <->
  config.RedisURL c <> "" /\ config.SessionKey c <> ""
  /\ config.InstanceName c <> ""
  /\ (config.ClientID (config.OAuthGoogle c) <> ""
      /\ config.ClientSecret (config.OAuthGoogle c) <> ""
      /\ config.RedirectURL (config.OAuthGoogle c) <> "")
  /\ (config.ClientID (config.OAuthGitHub c) <> ""
      /\ config.ClientSecret (config.OAuthGitHub c) <> ""
      /\ config.RedirectURL (config.OAuthGitHub c) <> "")
  /\ config.BaseURL (config.OpenAI c) <> ""
  /\ config.APIKey (config.OpenAI c) <> ""
  /\ config.Models (config.OpenAI c) <> [].
Proof.
  unfold config.missing.
  rewrite !app_nil, !if_nil by discriminate.
  rewrite !orb_false_iff, !String.eqb_neq, Nat.eqb_neq.
  assert (Hm : length (config.Models (config.OpenAI c)) <> 0%nat
               <-> config.Models (config.OpenAI c) <> []).
  { destruct (config.Models (config.OpenAI c)); simpl; split; intros;
      congruence. }
  rewrite Hm. tauto.
Qed.

Lemma missing_nil_Validate (c : config.Config) :
  config.Validate c = None -> config.missing c = [].
Proof.
  unfold config.Validate. destruct (config.missing c); simpl;
    [reflexivity|discriminate].
Qed.

(** X14. [Validate] returns no error exactly when the Redis URL, the
    session key, the instance name, the three fields of each OAuth
    provider, the base URL and the key of the API are all non-empty and
    there is at least one model. *)
Theorem Validate_accepts (c : config.Config) :
  config.Validate c = None <->
  config.RedisURL c <> "" /\ config.SessionKey c <> ""
  /\ config.InstanceName c <> ""
  /\ (config.ClientID (config.OAuthGoogle c) <> ""
      /\ config.ClientSecret (config.OAuthGoogle c) <> ""
      /\ config.RedirectURL (config.OAuthGoogle c) <> "")
  /\ (config.ClientID (config.OAuthGitHub c) <> ""
      /\ config.ClientSecret (config.OAuthGitHub c) <> ""
      /\ config.RedirectURL (config.OAuthGitHub c) <> "")
  /\ config.BaseURL (config.OpenAI c) <> ""
  /\ config.APIKey (config.OpenAI c) <> ""
  /\ config.Models (config.OpenAI c) <> [].
Proof.
  rewrite <- missing_nil. unfold config.Validate.
  destruct (config.missing c); simpl; split; intros; congruence.
Qed.

(** ** [loadEnvFile] and [Load] *)

(** What a line does to one variable depends on the environment only
    through that variable: a variable that is set stays, one that is not
    gets what the line would give it in an empty environment. *)
Lemma loadEnvLine_lookup (text : string) (env : gmap string string)
    (key : string) :
  config.loadEnvLine text env !! key
  = match env !! key with
    | Some v => Some v
    | None => config.loadEnvLine text ∅ !! key
    end.
Proof.
  unfold config.loadEnvLine.
  destruct (String.eqb (strings_TrimSpace text) ""
            || strings_HasPrefix (strings_TrimSpace text) "#").
  { destruct (env !! key); [reflexivity|]. rewrite lookup_empty.
    reflexivity. }
  destruct (strings_Cut (strings_TrimSpace text) "=") as [[k v] ok].
  destruct ok; cbn [negb];
    [|destruct (env !! key); [|rewrite lookup_empty]; reflexivity].
  set (k' := strings_TrimSpace k).
  set (v' := strings_Trim (strings_TrimSpace v) _).
  destruct (String.eqb k' "");
    [destruct (env !! key); [|rewrite lookup_empty]; reflexivity|].
  rewrite (lookup_empty k'). unfold config.os_Setenv.
  destruct (String.eqb k' ""
            || existsb
                 (fun c => Ascii.eqb c "=" || Ascii.eqb c config.zero_byte)
                 (list_ascii_of_string k')
            || existsb (Ascii.eqb config.zero_byte) (list_ascii_of_string v')).
  { destruct (env !! k'); destruct (env !! key);
      rewrite ?lookup_empty; reflexivity. }
  destruct (decide (k' = key)) as [->|Hne].
  - destruct (env !! key) eqn:E; [rewrite E; reflexivity|].
    rewrite !lookup_insert_eq. reflexivity.
  - destruct (env !! k') eqn:E.
    + destruct (env !! key); [reflexivity|].
      rewrite lookup_insert_ne by exact Hne. rewrite lookup_empty.
      reflexivity.
    + rewrite !lookup_insert_ne by exact Hne.
      destruct (env !! key); [reflexivity|]. rewrite lookup_empty.
      reflexivity.
Qed.

Lemma loadEnvLines_keep (lines : list string) (env : gmap string string)
    (key v : string) :
  env !! key = Some v ->
  fold_left (fun e text => config.loadEnvLine text e) lines env !! key
  = Some v.
Proof.
  revert env. induction lines as [|text lines IH]; intros env H;
    [exact H|].
  simpl. apply IH. rewrite loadEnvLine_lookup, H. reflexivity.
Qed.

Lemma loadEnvFile_keep (file : config.envFile) (env : gmap string string)
    (key v : string) :
  env !! key = Some v ->
  snd (config.loadEnvFile file env) !! key = Some v.
Proof.
  intros H. destruct file as [| |lines scan_error]; simpl; try exact H.
  destruct scan_error; simpl; apply loadEnvLines_keep, H.
Qed.

(** X15. [loadEnvFile] never changes a variable that is set in the
    environment, also one that is set to the empty text: the environment
    it leaves extends the one it found, whatever the file holds and
    whether or not reading it fails. *)
Theorem loadEnvFile_extends (file : config.envFile)
    (env : gmap string string) :
  env ⊆ snd (config.loadEnvFile file env).
Proof.
  apply map_subseteq_spec. intros key v H.
  apply loadEnvFile_keep, H.
Qed.

(** X16. In the [.env] file the first line that assigns a variable
    decides: when the variable is not set in the environment and no
    earlier line assigns it, the variable gets the value of that line,
    whatever the later lines hold. *)
Theorem loadEnvFile_first_wins (before after : list string)
    (text key value : string) (scan_error : bool)
    (env : gmap string string) :
  env !! key = None ->
  Forall (fun t => config.loadEnvLine t ∅ !! key = None) before ->
  config.loadEnvLine text ∅ !! key = Some value ->
  snd (config.loadEnvFile
         (config.scanned (before ++ text :: after)%list scan_error) env)
    !! key = Some value.
Proof.
  intros Henv Hb Ht.
  assert (H : fold_left (fun e t => config.loadEnvLine t e)
                (before ++ text :: after)%list env !! key = Some value).
  { rewrite fold_left_app. simpl. apply loadEnvLines_keep.
    rewrite loadEnvLine_lookup.
    assert (Hnone : fold_left (fun e t => config.loadEnvLine t e)
                      before env !! key = None).
    { clear Ht. revert env Henv.
      induction Hb as [|t before Ht _ IH]; intros env Henv; [exact Henv|].
      simpl. apply IH. rewrite loadEnvLine_lookup, Henv. exact Ht. }
    rewrite Hnone. exact Ht. }
  simpl. destruct scan_error; exact H.
Qed.

(** X17. The environment wins over the [.env] file: for every variable
    that [Load] reads and that is set in the environment, the
    configuration that [Load] returns has the value of the environment,
    whatever the file says.  A [PORT] that is set to the empty text gives
    the port "8080", also when the file names another one. *)
Theorem Load_environment_wins (root : option string)
    (file : config.envFile) (env : gmap string string)
    (cfg : config.Config) (verdict : option string) :
  config.Load root file env = Some (cfg, verdict) ->
  (forall v, env !! "PORT" = Some v ->
     config.Port cfg = if String.eqb v "" then "8080" else v)
  /\ (forall v, env !! "REDIS_URL" = Some v -> config.RedisURL cfg = v)
  /\ (forall v, env !! "SESSION_KEY" = Some v -> config.SessionKey cfg = v)
  /\ (forall v, env !! "INSTANCE_NAME" = Some v ->
        config.InstanceName cfg = v)
  /\ (forall v, env !! "OAUTH_GOOGLE_CLIENT_ID" = Some v ->
        config.ClientID (config.OAuthGoogle cfg) = v)
  /\ (forall v, env !! "OAUTH_GOOGLE_CLIENT_SECRET" = Some v ->
        config.ClientSecret (config.OAuthGoogle cfg) = v)
  /\ (forall v, env !! "OAUTH_GOOGLE_REDIRECT_URL" = Some v ->
        config.RedirectURL (config.OAuthGoogle cfg) = v)
  /\ (forall v, env !! "OAUTH_GITHUB_CLIENT_ID" = Some v ->
        config.ClientID (config.OAuthGitHub cfg) = v)
  /\ (forall v, env !! "OAUTH_GITHUB_CLIENT_SECRET" = Some v ->
        config.ClientSecret (config.OAuthGitHub cfg) = v)
  /\ (forall v, env !! "OAUTH_GITHUB_REDIRECT_URL" = Some v ->
        config.RedirectURL (config.OAuthGitHub cfg) = v)
  /\ (forall v, env !! "OPENAI_API_BASE_URL" = Some v ->
        config.BaseURL (config.OpenAI cfg) = v)
  /\ (forall v, env !! "OPENAI_API_KEY" = Some v ->
        config.APIKey (config.OpenAI cfg) = v)
  /\ (forall v, env !! "OPENAI_API_MODELS" = Some v ->
        config.Models (config.OpenAI cfg) = config.splitCSV v).
Proof.
  unfold config.Load. destruct root as [r|]; [|discriminate].
  pose proof (loadEnvFile_keep file env) as Hk.
  destruct (config.loadEnvFile file env) as [[msg|] env']; [discriminate|].
  cbn [snd] in Hk. intros [= <- _]. cbn.
  unfold config.getEnv, config.os_Getenv.
  repeat split; intros v Hv; rewrite (Hk _ _ Hv); cbn; try reflexivity;
    destruct (String.eqb v "") eqn:E; try reflexivity;
    apply String.eqb_eq in E; subst v; reflexivity.
Qed.

(** X18. A configuration that [Load] returns without an error has a
    port, and at least one model; no model name is empty, has a comma or
    has white space around it. *)
Theorem Load_accepted (root : option string) (file : config.envFile)
    (env : gmap string string) (cfg : config.Config) :
  config.Load root file env = Some (cfg, None) ->
  config.Port cfg <> ""
  /\ config.Models (config.OpenAI cfg) <> []
  /\ Forall (fun model =>
               model <> "" /\ (","%char ∉ list_ascii_of_string model)
               /\ strings_TrimSpace model = model)
            (config.Models (config.OpenAI cfg)).
Proof.
  unfold config.Load. destruct root as [r|]; [|discriminate].
  destruct (config.loadEnvFile file env) as [[msg|] env']; [discriminate|].
  intros [= <- Hv]. apply missing_nil_Validate in Hv.
  split; [|split].
  - cbn. unfold config.getEnv.
    destruct (String.eqb_spec (config.os_Getenv env' "PORT") "");
      cbn; [discriminate|assumption].
  - apply missing_nil in Hv. cbn in Hv |- *. tauto.
  - cbn. unfold config.splitCSV.
    destruct (String.eqb (config.os_Getenv env' "OPENAI_API_MODELS") "");
      [constructor|].
    apply cleaned_entries, Split_sep_free.
Qed.

(** * Properties of the sign-in and of the handlers *)

Lemma Contains_not_empty (s substr : string) :
  substr <> "" -> strings_Contains s substr = true -> s <> "".
Proof.
  intros Hsub H ->. simpl in H. destruct substr; [congruence|discriminate].
Qed.

Section AuthFacts.

Context {Token : Type}.

Lemma first_primary_Some (emails : list auth.GitHubEmail) (email : string) :
  auth.first_primary emails = Some email ->
  exists entry, entry ∈ emails /\ auth.Email entry = email
    /\ auth.Primary entry = true /\ auth.Verified entry = true
    /\ strings_Contains email "@" = true.
Proof.
  induction emails as [|entry emails IH]; simpl; [discriminate|].
  destruct (auth.Primary entry) eqn:Ep; cbn [andb].
  2:{ intros H. destruct (IH H) as (e & He & Hr). exists e.
      split; [right; exact He | exact Hr]. }
  destruct (auth.Verified entry) eqn:Ev; cbn [andb].
  2:{ intros H. destruct (IH H) as (e & He & Hr). exists e.
      split; [right; exact He | exact Hr]. }
  destruct (strings_Contains (auth.Email entry) "@") eqn:Ec.
  - intros [= <-]. exists entry. repeat split; auto. left.
  - intros H. destruct (IH H) as (e & He & Hr). exists e.
    split; [right; exact He | exact Hr].
Qed.

Lemma first_primary_None (emails : list auth.GitHubEmail) :
  auth.first_primary emails = None ->
  Forall (fun entry =>
            auth.Primary entry && auth.Verified entry
            && strings_Contains (auth.Email entry) "@" = false) emails.
Proof.
  induction emails as [|entry emails IH]; simpl; [constructor|].
  destruct (auth.Primary entry && auth.Verified entry
            && strings_Contains (auth.Email entry) "@") eqn:E;
    [discriminate|].
  intros H. constructor; [exact E | exact (IH H)].
Qed.

Lemma first_address_Some (emails : list auth.GitHubEmail) (email : string) :
  auth.first_address emails = Some email ->
  exists entry, entry ∈ emails /\ auth.Email entry = email
    /\ strings_Contains email "@" = true.
Proof.
  induction emails as [|entry emails IH]; simpl; [discriminate|].
  destruct (strings_Contains (auth.Email entry) "@") eqn:Ec.
  - intros [= <-]. exists entry. repeat split; auto. left.
  - intros H. destruct (IH H) as (e & He & Hr). exists e.
    split; [right; exact He | exact Hr].
Qed.

Lemma fetchGitHubEmail_at
    (cfg : auth.oauth2_Config Token (list auth.GitHubEmail))
    (token : Token) (email : string) :
  auth.fetchGitHubEmail cfg token = auth.value email ->
  strings_Contains email "@" = true.
Proof.
  unfold auth.fetchGitHubEmail.
  destruct (auth.Get cfg token) as [|status [emails|]]; try discriminate;
    destruct ((status <? 200) || (299 <? status)); try discriminate.
  destruct (auth.first_primary emails) as [e|] eqn:Ep.
  - intros [= ->]. apply first_primary_Some in Ep as (? & ? & ? & ? & ? & H).
    exact H.
  - destruct (auth.first_address emails) as [e|] eqn:Ea; [|discriminate].
    intros [= ->]. apply first_address_Some in Ea as (? & ? & ? & H).
    exact H.
Qed.

(** X19. The address that [fetchGitHubEmail] returns is one of the
    entries of a 2xx answer and has an "@"; it is the address of an
    entry that is primary and verified, unless the answer has no such
    entry with an "@".  The entry then need not be verified. *)
Theorem fetchGitHubEmail_address
    (cfg : auth.oauth2_Config Token (list auth.GitHubEmail))
    (token : Token) (email : string) :
  auth.fetchGitHubEmail cfg token = auth.value email ->
  exists status emails entry,
    auth.Get cfg token = auth.responded status (Some emails)
    /\ 200 <= status <= 299
    /\ entry ∈ emails /\ auth.Email entry = email
    /\ strings_Contains email "@" = true
    /\ (auth.Primary entry && auth.Verified entry = true
        \/ Forall (fun e =>
                     auth.Primary e && auth.Verified e
                     && strings_Contains (auth.Email e) "@" = false)
                  emails).
Proof.
  unfold auth.fetchGitHubEmail.
  destruct (auth.Get cfg token) as [|status [emails|]]; try discriminate.
  - destruct ((status <? 200) || (299 <? status)) eqn:Es; [discriminate|].
    apply orb_false_iff in Es as [H1 H2].
    apply Z.ltb_ge in H1, H2.
    destruct (auth.first_primary emails) as [e|] eqn:Ep.
    + intros [= ->]. apply first_primary_Some in Ep
        as (entry & Hin & He & Hp & Hv & Hc).
      exists status, emails, entry. repeat split; auto; try lia.
      left. rewrite Hp, Hv. reflexivity.
    + destruct (auth.first_address emails) as [e|] eqn:Ea; [|discriminate].
      intros [= ->]. apply first_address_Some in Ea
        as (entry & Hin & He & Hc).
      exists status, emails, entry. repeat split; auto; try lia.
      right. apply first_primary_None, Ep.
  - destruct ((status <? 200) || (299 <? status)); discriminate.
Qed.

Lemma FetchEmail_value (s : auth.Service Token) (provider : auth.Provider)
    (token : Token) (email : string) :
  auth.FetchEmail s provider token = auth.value email ->
  email <> ""
  /\ (provider = auth.ProviderGoogle \/ provider = auth.ProviderGitHub).
Proof.
  unfold auth.FetchEmail.
  destruct (String.eqb_spec provider auth.ProviderGoogle) as [->|_].
  { unfold auth.fetchGoogleEmail.
    destruct (auth.Get _ token) as [|status [e|]]; try discriminate;
      destruct ((status <? 200) || (299 <? status)); try discriminate.
    destruct (String.eqb_spec e "") as [|Hne]; [discriminate|].
    intros [= <-]. auto. }
  destruct (String.eqb_spec provider auth.ProviderGitHub) as [->|_];
    [|discriminate].
  intros H. apply fetchGitHubEmail_at in H.
  split; [|auto]. eapply Contains_not_empty; [|exact H]. discriminate.
Qed.

End AuthFacts.

Lemma clampTemperature_bounds (value : openai.float64) :
  PrimFloat.ltb (handler.clampTemperature value) handler.tenth = false
  /\ PrimFloat.ltb PrimFloat.one (handler.clampTemperature value) = false.
Proof.
  unfold handler.clampTemperature, PrimFloat.one.
  destruct (PrimFloat.ltb value handler.tenth) eqn:E1;
    [split; reflexivity|].
  match goal with
  | |- context [PrimFloat.ltb ?o value] =>
      destruct (PrimFloat.ltb o value) eqn:E2
  end; [split; reflexivity|].
  split; assumption.
Qed.

Lemma clampTemperature_fixed (value : openai.float64) :
  PrimFloat.ltb value handler.tenth = false ->
  PrimFloat.ltb PrimFloat.one value = false ->
  handler.clampTemperature value = value.
Proof.
  intros H1 H2. unfold handler.clampTemperature.
  unfold PrimFloat.one in H2. rewrite H1, H2. reflexivity.
Qed.

(** ** Comparisons of [float64]

  The comparisons of two floats that are numbers are those of a total
  order; every comparison with NaN is false. *)

Lemma SFcompare_swap (x y : SpecFloat.spec_float) :
  SpecFloat.SFcompare y x = option_map CompOpp (SpecFloat.SFcompare x y).
Proof.
  destruct x as [sx|sx| |sx mx ex]; destruct y as [sy|sy| |sy my ey];
    try reflexivity;
    try (destruct sx; reflexivity); try (destruct sy; reflexivity);
    try (destruct sx, sy; reflexivity).
  assert (HP : Pos.compare_cont Eq my mx
               = CompOpp (Pos.compare_cont Eq mx my))
    by (symmetry; apply (Pos.compare_cont_antisym mx my Eq)).
  simpl. rewrite (Z.compare_antisym ex ey), HP.
  destruct sx, sy; try reflexivity; cbn [option_map]; f_equal;
    destruct (ex ?= ey)%Z; cbn [CompOpp]; try reflexivity;
    destruct (Pos.compare_cont Eq mx my); reflexivity.
Qed.

Lemma SFcompare_refl (x : SpecFloat.spec_float) :
  SpecFloat.SFcompare x x
  = match x with SpecFloat.S754_nan => None | _ => Some Eq end.
Proof.
  destruct x as [s|s| |s m e]; try (destruct s; reflexivity);
    try reflexivity.
  simpl. rewrite Z.compare_refl, Pos.compare_cont_refl.
  destruct s; reflexivity.
Qed.

Lemma is_nan_spec (x : PrimFloat.float) :
  PrimFloat.is_nan x
  = match FloatOps.Prim2SF x with
    | SpecFloat.S754_nan => true
    | _ => false
    end.
Proof.
  unfold PrimFloat.is_nan. rewrite FloatAxioms.eqb_spec.
  unfold SpecFloat.SFeqb. rewrite SFcompare_refl.
  destruct (FloatOps.Prim2SF x); reflexivity.
Qed.

Lemma leb_not_ltb (x y : PrimFloat.float) :
  PrimFloat.is_nan x = false -> PrimFloat.is_nan y = false ->
  PrimFloat.leb y x = negb (PrimFloat.ltb x y).
Proof.
  rewrite !is_nan_spec, FloatAxioms.leb_spec, FloatAxioms.ltb_spec.
  unfold SpecFloat.SFleb, SpecFloat.SFltb.
  rewrite (SFcompare_swap (FloatOps.Prim2SF x)).
  intros Hx Hy.
  destruct (FloatOps.Prim2SF x) as [sx|sx| |sx mx ex];
    try discriminate;
    destruct (FloatOps.Prim2SF y) as [sy|sy| |sy my ey];
    try discriminate;
    match goal with
    | |- context [SpecFloat.SFcompare ?a ?b] =>
        destruct (SpecFloat.SFcompare a b) as [[]|] eqn:E
    end;
    try reflexivity; simpl in E; try discriminate;
    try (destruct sx; discriminate); try (destruct sy; discriminate);
    try (destruct sx, sy; discriminate).
Qed.

Lemma nan_not_ltb (x y : PrimFloat.float) :
  PrimFloat.is_nan x = true ->
  PrimFloat.ltb x y = false /\ PrimFloat.ltb y x = false.
Proof.
  rewrite is_nan_spec, !FloatAxioms.ltb_spec. unfold SpecFloat.SFltb.
  destruct (FloatOps.Prim2SF x); try discriminate. intros _.
  split; [reflexivity|]. destruct (FloatOps.Prim2SF y); reflexivity.
Qed.

(** X20. For every temperature that is a number, [clampTemperature]
    returns a temperature from 0.1 to 1.0, both included, and it returns
    the given temperature when that one lies within these bounds.  NaN
    is not clamped: it is returned as it is.  Clamping a second time
    changes nothing. *)
Theorem clampTemperature_range (value : openai.float64) :
  (PrimFloat.is_nan value = false ->
   PrimFloat.leb handler.tenth (handler.clampTemperature value) = true
   /\ PrimFloat.leb (handler.clampTemperature value) PrimFloat.one = true
   /\ (PrimFloat.leb handler.tenth value = true ->
       PrimFloat.leb value PrimFloat.one = true ->
       handler.clampTemperature value = value))
  /\ (PrimFloat.is_nan value = true ->
      PrimFloat.is_nan (handler.clampTemperature value) = true)
  /\ handler.clampTemperature (handler.clampTemperature value)
     = handler.clampTemperature value.
Proof.
  assert (Ht : PrimFloat.is_nan handler.tenth = false) by reflexivity.
  assert (Ho : PrimFloat.is_nan PrimFloat.one = false) by reflexivity.
  split; [|split].
  - intros Hv. pose proof (leb_not_ltb value handler.tenth Hv Ht) as H1.
    pose proof (leb_not_ltb PrimFloat.one value Ho Hv) as H2.
    unfold handler.clampTemperature, PrimFloat.one in *.
    destruct (PrimFloat.ltb value handler.tenth) eqn:E1.
    { repeat split; try reflexivity. intros H. rewrite H in H1.
      discriminate. }
    match type of H2 with
    | context [PrimFloat.ltb ?o value] =>
        destruct (PrimFloat.ltb o value) eqn:E2
    end.
    { repeat split; try reflexivity. intros _ H. rewrite H in H2.
      discriminate. }
    repeat split; assumption.
  - intros Hv. destruct (nan_not_ltb value handler.tenth Hv) as [H1 _].
    destruct (nan_not_ltb value PrimFloat.one Hv) as [_ H2].
    unfold handler.clampTemperature, PrimFloat.one in *.
    rewrite H1, H2. exact Hv.
  - destruct (clampTemperature_bounds value) as [H1 H2].
    apply clampTemperature_fixed; assumption.
Qed.

Section HandlerFacts.

Context {JS : Json ChatSummary} {JM : Json Message} {Token : Type}.
Variable strconv_ParseFloat : string -> option openai.float64.

Lemma existsb_eqb (model : string) (models : list string) :
  existsb (String.eqb model) models = true <-> model ∈ models.
Proof.
  rewrite existsb_exists. split.
  - intros (x & Hin & He). apply String.eqb_eq in He. subst.
    apply list_elem_of_In. exact Hin.
  - intros H. exists model. split; [apply list_elem_of_In, H|].
    apply String.eqb_refl.
Qed.

Lemma ensureModel_twice (h : handler.Handler Token) (model : string) :
  handler.ensureModel h (handler.ensureModel h model)
  = handler.ensureModel h model.
Proof.
  unfold handler.ensureModel.
  set (models := config.Models (config.OpenAI (handler.Config h))).
  assert (Hfirst : forall first rest,
             (if String.eqb first "" then first
              else if existsb (String.eqb first) (first :: rest) then first
                   else first) = first).
  { intros first rest. destruct (String.eqb first ""); [reflexivity|].
    destruct (existsb (String.eqb first) (first :: rest)); reflexivity. }
  destruct (String.eqb_spec model "") as [->|Hm].
  { destruct models as [|first rest]; [reflexivity | apply Hfirst]. }
  destruct (existsb (String.eqb model) models) eqn:E.
  { rewrite E. destruct (String.eqb_spec model ""); [contradiction|].
    reflexivity. }
  destruct models as [|first rest]; [|apply Hfirst].
  destruct (String.eqb_spec model ""); [contradiction | reflexivity].
Qed.

(** X21. The model that [ensureModel] returns is one of the configured
    models, whatever is asked for; when no model is configured it
    returns what was asked. *)
Theorem ensureModel_allowed (h : handler.Handler Token) (model : string) :
  let models := config.Models (config.OpenAI (handler.Config h)) in
  handler.ensureModel h model ∈ models
  \/ (models = [] /\ handler.ensureModel h model = model).
Proof.
  unfold handler.ensureModel.
  set (models := config.Models (config.OpenAI (handler.Config h))).
  cbv zeta. destruct (String.eqb_spec model "") as [->|Hne].
  { destruct models as [|first rest]; [right; auto|left; left]. }
  destruct (existsb (String.eqb model) models) eqn:E.
  { left. apply existsb_eqb, E. }
  destruct models as [|first rest]; [right; auto|left; left].
Qed.

(** X22. What [UpdatePreferences] answers is what the next requests use:
    when it answers with a model, which is not empty, and a temperature,
    [sessionPreferences] reads that model and that temperature from the
    session it has saved. *)
Theorem preferences_round_trip (h : handler.Handler Token)
    (c : handler.gin_Context) (code : Z) (model : string)
    (temperature : openai.float64) (cookie : handler.Cookie) :
  handler.UpdatePreferences strconv_ParseFloat h c
  = (handler.c_JSON_preferences code model temperature, cookie) ->
  model <> "" ->
  exists values,
    cookie = handler.written values
    /\ handler.sessionPreferences strconv_ParseFloat h (Some values)
       = (model, temperature).
Proof.
  unfold handler.UpdatePreferences.
  set (asked :=
    if String.eqb (strings_TrimSpace (handler.PostForm c "model")) ""
    then _ else _).
  destruct asked as [asked tempValue].
  destruct (handler.Session c) as [values|]; [|discriminate].
  set (m := handler.ensureModel h asked).
  set (t := handler.clampTemperature _).
  set (values' := <[handler.sessionTemperature := _]> _).
  destruct (handler.Save c values'); cbn [negb]; [|discriminate].
  destruct (handler.acceptsJSON c); [|discriminate].
  intros [= _ <- <- <-] Hne. exists values'. split; [reflexivity|].
  unfold handler.sessionPreferences, handler.string_at.
  subst values'. unfold handler.Values in *. rewrite lookup_insert_eq.
  rewrite lookup_insert_ne by discriminate.
  destruct (String.eqb_spec m "") as [E|_]; [contradiction|]. cbn [negb].
  rewrite lookup_insert_eq. cbn [default].
  subst m t. unfold id. rewrite ensureModel_twice.
  f_equal. apply clampTemperature_fixed; apply clampTemperature_bounds.
Qed.

(** The runs of [PostMessage]: it stops before any call of the service,
    or it calls [AppendMessage] with the role "user" and a content that
    is trimmed and not empty and, if that succeeds, [RunCompletion] with
    the preferences of the session. *)
Lemma PostMessage_run (h : handler.Handler Token) (c : handler.gin_Context)
    (w w' : World) (r : result handler.Response) :
  handler.PostMessage strconv_ParseFloat h c w = (r, w') ->
  (exists text, r = Ok (handler.c_String 400 text) /\ w' = w
                /\ text <> "openai error")
  \/ exists content ra w1,
       content <> "" /\ strings_TrimSpace content = content
       /\ AppendMessage (handler.userEmail (handler.Session c))
            (handler.Param_id c) "user" content w = (ra, w1)
       /\ ((exists e, ra = Err e /\ w' = w1
              /\ r = Ok (handler.c_String 500 "failed to save message"))
           \/ exists u rc,
                ra = Ok u
                /\ RunCompletion (handler.Chat h)
                     (handler.userEmail (handler.Session c))
                     (handler.Param_id c)
                     (fst (handler.sessionPreferences strconv_ParseFloat h
                             (handler.Session c)))
                     (snd (handler.sessionPreferences strconv_ParseFloat h
                             (handler.Session c))) w1 = (rc, w')
                /\ ((exists e, rc = Err e
                       /\ r = Ok (handler.c_String 400 "openai error"))
                    \/ exists a usage,
                         rc = Ok (a, usage)
                         /\ (r = Ok (handler.c_JSON_messages 200 u a usage)
                             \/ r = Ok (handler.c_Redirect 302
                                          ("/chat/" +:+ handler.Param_id c))))).
Proof.
  unfold handler.PostMessage.
  destruct (String.eqb (handler.Param_id c) "").
  { intros [= <- <-]. left. eexists. repeat split. discriminate. }
  set (form := strings_TrimSpace (handler.PostForm c "content")).
  assert (Hbound :
    forall bound,
      (if String.eqb form "" then
         match handler.BindContent c with
         | Some payload => Some (strings_TrimSpace payload)
         | None => None
         end
       else Some form) = Some bound ->
      strings_TrimSpace bound = bound).
  { intros bound. destruct (String.eqb form "").
    - destruct (handler.BindContent c); [|discriminate].
      intros [= <-]. apply TrimSpace_twice.
    - intros [= <-]. apply TrimSpace_twice. }
  destruct (if String.eqb form "" then _ else _) as [content|];
    [|intros [= <- <-]; left; eexists; repeat split; discriminate].
  specialize (Hbound content eq_refl).
  destruct (String.eqb_spec content "") as [|Hne];
    [intros [= <- <-]; left; eexists; repeat split; discriminate|].
  unfold bind at 1. unfold catch at 1.
  destruct (AppendMessage _ _ "user" content w) as [ra w1] eqn:EA.
  intros H. right. exists content, ra, w1.
  split; [exact Hne|]. split; [exact Hbound|]. split; [exact EA|].
  destruct ra as [u|e].
  2:{ left. injection H as <- <-. eauto. }
  right. exists u.
  destruct (handler.sessionPreferences strconv_ParseFloat h
              (handler.Session c)) as [model temperature].
  cbn [fst snd]. unfold bind, catch in H.
  destruct (RunCompletion _ _ _ model temperature w1) as [rc w2] eqn:ER.
  exists rc. destruct rc as [[a usage]|e].
  - destruct (handler.acceptsJSON c
              || strings_HasPrefix (handler.FullPath c) "/api/");
      injection H as <- <-; split; [reflexivity| |reflexivity|];
      (split; [reflexivity|]); right; exists a, usage; auto.
  - injection H as <- <-. split; [reflexivity|].
    split; [reflexivity|]. left. eauto.
Qed.

(** X23. [PostMessage] adds to the log of the chat of the route, and to
    no other log, at most two messages; the first one it adds has the
    role "user" and a content that is not empty and has no white space
    around it. *)
Theorem PostMessage_log (h : handler.Handler Token)
    (c : handler.gin_Context) (w : World) :
  let w' := snd (handler.PostMessage strconv_ParseFloat h c w) in
  (forall k, k <> handler.Param_id c ->
             raw_log (db w') k = raw_log (db w) k)
  /\ (raw_log (db w') (handler.Param_id c)
      = raw_log (db w) (handler.Param_id c)
      \/ exists payload content t rest,
           raw_log (db w') (handler.Param_id c)
           = (raw_log (db w) (handler.Param_id c) ++ payload :: rest)%list
           /\ (length rest <= 1)%nat
           /\ json_Marshal (mkMessage "user" content t) = Some payload
           /\ content <> ""
           /\ strings_TrimSpace content = content).
Proof.
  cbv zeta.
  destruct (handler.PostMessage strconv_ParseFloat h c w) as [r w'] eqn:E.
  cbn [snd]. apply PostMessage_run in E.
  destruct E as [(text & _ & -> & _)|
                 (content & ra & w1 & Hne & Htrim & EA & Hrest)];
    [split; auto|].
  apply AppendMessage_effect in EA.
  assert (Hcompl :
    forall rc, RunCompletion (handler.Chat h)
                 (handler.userEmail (handler.Session c)) (handler.Param_id c)
                 (fst (handler.sessionPreferences strconv_ParseFloat h
                         (handler.Session c)))
                 (snd (handler.sessionPreferences strconv_ParseFloat h
                         (handler.Session c))) w1 = (rc, w') ->
      (forall k, k <> handler.Param_id c ->
                 raw_log (db w') k = raw_log (db w1) k)
      /\ exists rest,
           raw_log (db w') (handler.Param_id c)
           = (raw_log (db w1) (handler.Param_id c) ++ rest)%list
           /\ (length rest <= 1)%nat).
  { intros rc ER. apply RunCompletion_effect in ER.
    destruct ER as [(e & _ & Hdb)|
                    (resp & usage & pa & ru & _ & _ & _ & Hst & _)].
    - rewrite Hdb. split; [auto|]. exists []. rewrite app_nil_r. auto.
    - apply stored_raw_log in Hst as (Ho & [Hs|Hs] & _).
      + split; [exact Ho|]. exists []. rewrite app_nil_r. auto.
      + split; [exact Ho|]. exists [pa]. auto. }
  destruct EA as [(e & -> & Hdb)|(pu & ru & _ & HM & Hst & ->)].
  - destruct Hrest as [(e' & _ & -> & _)|(u & rc & [=] & _)].
    rewrite Hdb. split; auto.
  - apply stored_raw_log in Hst as (Ho & Hs & Hok).
    destruct Hrest as [(e' & Hru & -> & _)|(u & rc & Hru & ER & _)].
    + split; [exact Ho|]. destruct Hs as [Hs|Hs]; [left; exact Hs|].
      right. exists pu, content, (now w), []. repeat split; auto.
    + destruct ru as [[]|e]; [|discriminate].
      specialize (Hok eq_refl).
      destruct (Hcompl rc ER) as (Ho' & rest & Hl & Hlen).
      split.
      * intros k Hk. rewrite (Ho' k Hk). apply Ho, Hk.
      * right. exists pu, content, (now w), rest.
        rewrite Hl, Hok, <- app_assoc. repeat split; auto.
Qed.

(** X24. When [PostMessage] answers with the two messages, the caller is
    the recorded owner of the chat and the log of the chat has grown by
    exactly these two messages, the user's first; the user's message has
    the role "user" and a content that is not empty and has no white
    space around it. *)
Theorem PostMessage_answer (h : handler.Handler Token)
    (c : handler.gin_Context) (w w' : World) (code : Z)
    (user assistant : Message) (usage : openai.Usage) :
  handler.PostMessage strconv_ParseFloat h c w
  = (Ok (handler.c_JSON_messages code user assistant usage), w') ->
  db w !! chatOwnerKey (handler.Param_id c)
  = Some (RString (handler.userEmail (handler.Session c)))
  /\ Role user = "user" /\ Content user <> ""
  /\ strings_TrimSpace (Content user) = Content user
  /\ exists pu pa,
       json_Marshal user = Some pu /\ json_Marshal assistant = Some pa
       /\ raw_log (db w') (handler.Param_id c)
          = (raw_log (db w) (handler.Param_id c) ++ [pu; pa])%list.
Proof.
  intros E. apply PostMessage_run in E.
  destruct E as [(text & [=] & _)|
                 (content & ra & w1 & Hne & Htrim & EA & Hrest)].
  destruct Hrest as [(e' & _ & _ & [=])|(u & rc & -> & ER & Hr)].
  destruct Hr as [(e & _ & [=])|(a & us & -> & [[= -> -> -> ->]|[=]])].
  apply AppendMessage_effect in EA.
  destruct EA as [(e & [=] & _)|(pu & ru & Ho & HM & Hst & Hu)].
  destruct ru as [[]|e]; [|discriminate]. injection Hu as ->.
  apply stored_raw_log in Hst as (_ & _ & Hlog). specialize (Hlog eq_refl).
  apply RunCompletion_effect in ER.
  destruct ER as [(e & [=] & _)|
                  (resp & us' & pa & ru & _ & _ & HMa & Hst & Ha)].
  destruct ru as [[]|e]; [|discriminate]. injection Ha as -> ->.
  apply stored_raw_log in Hst as (_ & _ & Hlog'). specialize (Hlog' eq_refl).
  cbn [Role Content]. repeat split; auto.
  exists pu, pa. split; [exact HM|]. split.
  - exact HMa.
  - rewrite Hlog', Hlog, <- app_assoc. reflexivity.
Qed.

(** X25. The answer "openai error" of [PostMessage] means that the
    user's message is in the log of the chat: the log has grown by that
    message, or by that message and the reply when it is the update of
    the summary after the reply that failed. *)
Theorem PostMessage_openai_error (h : handler.Handler Token)
    (c : handler.gin_Context) (w w' : World) (code : Z) :
  handler.PostMessage strconv_ParseFloat h c w
  = (Ok (handler.c_String code "openai error"), w') ->
  exists content t pu,
    json_Marshal (mkMessage "user" content t) = Some pu
    /\ content <> ""
    /\ (raw_log (db w') (handler.Param_id c)
        = (raw_log (db w) (handler.Param_id c) ++ [pu])%list
        \/ exists pa,
             raw_log (db w') (handler.Param_id c)
             = (raw_log (db w) (handler.Param_id c) ++ [pu; pa])%list).
Proof.
  intros E. apply PostMessage_run in E.
  destruct E as [(text & [= _ <-] & _ & Hx)|
                 (content & ra & w1 & Hne & Htrim & EA & Hrest)];
    [congruence|].
  destruct Hrest as [(e' & _ & _ & [=])|(u & rc & -> & ER & Hr)].
  destruct Hr as [(e & -> & _)|(a & us & _ & [[=]|[=]])].
  apply AppendMessage_effect in EA.
  destruct EA as [(e' & [=] & _)|(pu & ru & Ho & HM & Hst & Hu)].
  destruct ru as [[]|e']; [|discriminate].
  apply stored_raw_log in Hst as (_ & _ & Hlog). specialize (Hlog eq_refl).
  exists content, (now w), pu. split; [exact HM|]. split; [exact Hne|].
  apply RunCompletion_effect in ER.
  destruct ER as [(e' & _ & Hdb)|
                  (resp & us' & pa & ru & _ & _ & _ & Hst & _)].
  - left. rewrite Hdb. exact Hlog.
  - apply stored_raw_log in Hst as (_ & [Hs|Hs] & _).
    + left. rewrite Hs. exact Hlog.
    + right. exists pa. rewrite Hs, Hlog, <- app_assoc. reflexivity.
Qed.

(** X26. [PostMessage] on a chat whose recorded owner is not the user of
    the session writes nothing and answers with a text and the status
    400 or 500. *)
Theorem PostMessage_not_owner (h : handler.Handler Token)
    (c : handler.gin_Context) (w : World) :
  db w !! chatOwnerKey (handler.Param_id c)
  <> Some (RString (handler.userEmail (handler.Session c))) ->
  db (snd (handler.PostMessage strconv_ParseFloat h c w)) = db w
  /\ exists code text,
       fst (handler.PostMessage strconv_ParseFloat h c w)
       = Ok (handler.c_String code text)
       /\ (code = 400 \/ code = 500).
Proof.
  intros Hno.
  destruct (handler.PostMessage strconv_ParseFloat h c w) as [r w'] eqn:E.
  cbn [fst snd]. apply PostMessage_run in E.
  destruct E as [(text & -> & -> & _)|
                 (content & ra & w1 & Hne & Htrim & EA & Hrest)];
    [split; eauto|].
  apply AppendMessage_effect in EA.
  destruct EA as [(e & -> & Hdb)|(pu & ru & Ho & _)]; [|contradiction].
  destruct Hrest as [(e' & _ & -> & ->)|(u & rc & [=] & _)].
  split; eauto.
Qed.

(** A chat that [GetChat] answers for is owned by the caller. *)
Lemma GetChat_refused (user chatID : string) (w : World) :
  db w !! chatOwnerKey chatID <> Some (RString user) ->
  exists e, fst (GetChat user chatID w) = Err e.
Proof.
  intros Hno. destruct (GetChat user chatID w) as [[view|e] w'] eqn:E.
  - apply GetChat_Ok in E as (Ho & _). contradiction.
  - exists e. reflexivity.
Qed.

(** X27. The page that [ShowChat] renders is for the user of the
    session and shows a chat that the server records as owned by that
    user, with the summary and the messages that the server holds for
    it; when the route names a chat, it is that chat. *)
Theorem ShowChat_page (h : handler.Handler Token) (c : handler.gin_Context)
    (w w' : World) (code : Z) (instance user : string) (view : ChatView)
    (chats : list ChatSummary) (models : list string) (model : string)
    (temperature : openai.float64) (cookie : handler.Cookie) :
  handler.ShowChat strconv_ParseFloat h c w
  = (Ok (handler.c_HTML_chat code instance user view chats models model
           temperature, cookie), w') ->
  user = handler.userEmail (handler.Session c)
  /\ exists chatID,
       (handler.Param_id c <> "" -> chatID = handler.Param_id c)
       /\ db w' !! chatOwnerKey chatID = Some (RString user)
       /\ resolve (db w') chatID = Some (Summary view)
       /\ Messages view = log (db w') chatID.
Proof.
  unfold handler.ShowChat.
  set (session := handler.Session c).
  set (email := handler.userEmail session).
  set (chatID0 := if String.eqb (handler.Param_id c) "" then _ else _).
  unfold bind at 1.
  assert (Hshow :
    forall (chatID : string) (sc : option handler.Values * handler.Cookie)
           (w1 : World),
      (handler.Param_id c <> "" -> chatID = handler.Param_id c) ->
      (let '(session, cookie) :=
         if negb (String.eqb (handler.Param_id c) "")
         then let '(session', cookie') :=
                handler.setSessionChatID c (fst sc) chatID in
              (session', handler.later (snd sc) cookie')
         else (fst sc, snd sc) in
       let* r := catch (GetChat email chatID) in
       match r with
       | Err _ => ret (handler.c_String 400 "chat not found", cookie)
       | Ok view =>
           let* r := catch (ListChats email) in
           match r with
           | Err _ =>
               ret (handler.c_String 500 "failed to load chats", cookie)
           | Ok chats =>
               let '(model, temperature) :=
                 handler.sessionPreferences strconv_ParseFloat h session in
               ret (handler.c_HTML_chat 200
                      (config.InstanceName (handler.Config h)) email view
                      chats (config.Models (config.OpenAI (handler.Config h)))
                      model temperature, cookie)
           end
       end) w1
      = (Ok (handler.c_HTML_chat code instance user view chats models model
               temperature, cookie), w') ->
      user = email
      /\ exists chatID,
           (handler.Param_id c <> "" -> chatID = handler.Param_id c)
           /\ db w' !! chatOwnerKey chatID = Some (RString user)
           /\ resolve (db w') chatID = Some (Summary view)
           /\ Messages view = log (db w') chatID).
  { intros chatID sc w1 Hid.
    destruct (if negb (String.eqb (handler.Param_id c) "") then _ else _)
      as [session' cookie'].
    unfold bind at 1. unfold catch at 1.
    destruct (GetChat email chatID w1) as [[v|e] w2] eqn:EG;
      [|intros [=]].
    unfold bind at 1. unfold catch at 1.
    pose proof (ListChats_reads w2 email) as HL.
    destruct (ListChats email w2) as [[l|e] w3]; [|intros [=]].
    cbn [snd] in HL.
    destruct (handler.sessionPreferences strconv_ParseFloat h session')
      as [m t].
    intros [= _ _ <- <- _ _ _ _ _ <-]. split; [reflexivity|].
    exists chatID. split; [exact Hid|].
    pose proof (GetChat_reads email chatID w1) as HR.
    rewrite EG in HR. cbn [snd] in HR.
    apply GetChat_Ok in EG as (Ho & Hr & _ & Hm).
    rewrite HL, HR. auto. }
  destruct (String.eqb_spec chatID0 "") as [E0|Hne0].
  - unfold bind at 1. unfold catch at 1.
    destruct (EnsureChat email w) as [[summary|e] w1]; [|intros [=]].
    unfold ret at 1.
    destruct (handler.setSessionChatID c session (ID summary))
      as [session1 cookie1] eqn:ES.
    intros H.
    apply (Hshow (ID summary) (session1, cookie1) w1); [|exact H].
    intros Hp. exfalso. subst chatID0.
    destruct (String.eqb_spec (handler.Param_id c) ""); congruence.
  - unfold ret at 1. intros H.
    apply (Hshow chatID0 (session, handler.kept) w); [|exact H].
    intros Hp. subst chatID0.
    destruct (String.eqb_spec (handler.Param_id c) ""); congruence.
Qed.

(** X28. Asking [ShowChat] for a chat that the user does not own is
    answered with "chat not found", and the identifier is saved in the
    session before the check.  With that session a request that names
    no chat is answered with "chat not found" as well, for as long as the
    user does not own the chat, and nothing is written: no chat is
    created for the user. *)
Theorem ShowChat_foreign_chat (h : handler.Handler Token)
    (c : handler.gin_Context) (w : World) (values : handler.Values) :
  let values' :=
    <[handler.sessionChatID := handler.VString (handler.Param_id c)]>
      values in
  handler.Param_id c <> "" ->
  handler.Session c = Some values ->
  handler.Save c values' = true ->
  db w !! chatOwnerKey (handler.Param_id c)
  <> Some (RString (handler.userEmail (handler.Session c))) ->
  fst (handler.ShowChat strconv_ParseFloat h c w)
  = Ok (handler.c_String 400 "chat not found", handler.written values')
  /\ forall (c2 : handler.gin_Context) (w2 : World),
       handler.Param_id c2 = "" ->
       handler.Session c2 = Some values' ->
       db w2 !! chatOwnerKey (handler.Param_id c)
       <> Some (RString (handler.userEmail (handler.Session c2))) ->
       fst (handler.ShowChat strconv_ParseFloat h c2 w2)
       = Ok (handler.c_String 400 "chat not found", handler.kept)
         /\ db (snd (handler.ShowChat strconv_ParseFloat h c2 w2)) = db w2.
Proof.
  intros values' Hid HS Hsave Hno. split.
  - unfold handler.ShowChat. rewrite HS in Hno |- *.
    destruct (String.eqb_spec (handler.Param_id c) "") as [|_];
      [contradiction|].
    destruct (String.eqb_spec (handler.Param_id c) "") as [|_];
      [contradiction|].
    unfold bind at 1. unfold ret at 1. cbn [negb].
    unfold handler.setSessionChatID. fold values'. rewrite Hsave.
    cbn [handler.later]. unfold bind at 1. unfold catch at 1.
    destruct (GetChat_refused _ _ w Hno) as (e & He).
    destruct (GetChat _ _ w) as [rg w1]. cbn [fst] in He. subst rg.
    reflexivity.
  - intros c2 w2 Hp2 HS2 Hno2.
    assert (H2 : exists w3,
               handler.ShowChat strconv_ParseFloat h c2 w2
               = (Ok (handler.c_String 400 "chat not found", handler.kept),
                  w3)
               /\ db w3 = db w2).
    { unfold handler.ShowChat. rewrite HS2 in Hno2 |- *. rewrite Hp2.
      cbn [String.eqb negb handler.getSessionChatID fst].
      unfold handler.string_at. subst values'. unfold handler.Values in *.
      rewrite lookup_insert_eq. cbn [fst].
      destruct (String.eqb_spec (handler.Param_id c) "") as [|_];
        [contradiction|].
      unfold bind at 1. unfold ret at 1. unfold bind at 1.
      unfold catch at 1.
      destruct (GetChat_refused _ _ w2 Hno2) as (e & He).
      pose proof (GetChat_reads
                    (handler.userEmail
                       (Some (<[handler.sessionChatID :=
                                  handler.VString (handler.Param_id c)]>
                                values)))
                    (handler.Param_id c) w2) as HR.
      destruct (GetChat _ _ w2) as [rg w3]. cbn [fst snd] in He, HR.
      subst rg. exists w3. split; [reflexivity | exact HR]. }
    destruct H2 as (w3 & -> & Hdb). split; [reflexivity | exact Hdb].
Qed.

(** The session that a completed sign-in saves. *)
Lemma HandleOAuthCallback_written (h : handler.Handler Token)
    (provider : auth.Provider) (c : handler.gin_Context)
    (response : handler.Response) (values' : handler.Values) :
  handler.HandleOAuthCallback h provider c
  = (response, handler.written values') ->
  exists values token email,
    handler.Session c = Some values
    /\ handler.Query c "state" <> "" /\ handler.Query c "code" <> ""
    /\ handler.string_at values handler.sessionOAuthState
       = Some (handler.Query c "state")
    /\ handler.string_at values handler.sessionOAuthProvider = Some provider
    /\ auth.Exchange (handler.Auth h) provider (handler.Query c "code")
       = auth.value token
    /\ auth.FetchEmail (handler.Auth h) provider token = auth.value email
    /\ values' !! handler.sessionUserEmail = Some (handler.VString email)
    /\ values' !! handler.sessionOAuthState = Some (handler.VString "")
    /\ response = handler.c_Redirect 302 "/".
Proof.
  unfold handler.HandleOAuthCallback.
  destruct (handler.Session c) as [values|]; [|discriminate].
  destruct (String.eqb_spec (handler.Query c "state") "") as [|Hs];
    [discriminate|].
  destruct (String.eqb_spec (handler.Query c "code") "") as [|Hc];
    [discriminate|].
  cbn [orb].
  destruct (String.eqb_spec
              (default "" (handler.string_at values
                             handler.sessionOAuthState)) "") as [|Hss];
    [discriminate|].
  destruct (String.eqb_spec
              (default "" (handler.string_at values
                             handler.sessionOAuthProvider)) "") as [|Hsp];
    [discriminate|].
  cbn [orb].
  destruct (String.eqb_spec
              (default "" (handler.string_at values
                             handler.sessionOAuthState))
              (handler.Query c "state")) as [Es|]; [|discriminate].
  destruct (String.eqb_spec
              (default "" (handler.string_at values
                             handler.sessionOAuthProvider)) provider)
    as [Ep|]; [|discriminate].
  cbn [negb orb].
  destruct (auth.Exchange (handler.Auth h) provider (handler.Query c "code"))
    as [token|] eqn:EX; [|discriminate].
  destruct (auth.FetchEmail (handler.Auth h) provider token)
    as [email|] eqn:EF; [|discriminate].
  set (v3 := <[handler.sessionOAuthProvider := handler.VString ""]>
               (<[handler.sessionOAuthState := handler.VString ""]>
                  (<[handler.sessionUserEmail := handler.VString email]>
                     values))).
  set (v4 := match v3 !! handler.sessionTemperature with
             | None => _ | Some _ => v3 end).
  set (v5 := match v4 !! handler.sessionModel with
             | None => _ | Some _ => v4 end).
  destruct (handler.Save c v5); cbn [negb]; [|discriminate].
  intros [= <- <-]. exists values, token, email.
  assert (H3 : v3 !! handler.sessionUserEmail
               = Some (handler.VString email)
               /\ v3 !! handler.sessionOAuthState
                  = Some (handler.VString "")).
  { subst v3. unfold handler.Values in *. split.
    - rewrite !lookup_insert_ne by discriminate. apply lookup_insert_eq.
    - rewrite lookup_insert_ne by discriminate. apply lookup_insert_eq. }
  assert (H4 : v4 !! handler.sessionUserEmail
               = Some (handler.VString email)
               /\ v4 !! handler.sessionOAuthState
                  = Some (handler.VString "")).
  { subst v4. unfold handler.Values in *.
    destruct (v3 !! handler.sessionTemperature); [exact H3|].
    rewrite !lookup_insert_ne by discriminate. exact H3. }
  assert (H5 : v5 !! handler.sessionUserEmail
               = Some (handler.VString email)
               /\ v5 !! handler.sessionOAuthState
                  = Some (handler.VString "")).
  { subst v5. unfold handler.Values in *.
    destruct (v4 !! handler.sessionModel); [exact H4|].
    destruct (config.Models (config.OpenAI (handler.Config h)));
      [exact H4|].
    rewrite !lookup_insert_ne by discriminate. exact H4. }
  destruct H5 as [H5a H5b].
  assert (Hat : forall key v,
             default "" (handler.string_at values key) = v -> v <> "" ->
             handler.string_at values key = Some v).
  { intros key v Hd Hv. destruct (handler.string_at values key);
      cbn in Hd; congruence. }
  repeat split; auto; apply Hat; congruence.
Qed.

(** X29. [HandleOAuthCallback] signs a user in only when the state of
    the request is not empty and is the one kept in the session, for the
    same provider; the address it stores for the user is the one the
    provider gave for the code, and is not empty. *)
Theorem HandleOAuthCallback_login (h : handler.Handler Token)
    (provider : auth.Provider) (c : handler.gin_Context)
    (response : handler.Response) (values' : handler.Values) :
  handler.HandleOAuthCallback h provider c
  = (response, handler.written values') ->
  exists values token,
    handler.Session c = Some values
    /\ handler.Query c "state" <> ""
    /\ handler.string_at values handler.sessionOAuthState
       = Some (handler.Query c "state")
    /\ handler.string_at values handler.sessionOAuthProvider = Some provider
    /\ auth.Exchange (handler.Auth h) provider (handler.Query c "code")
       = auth.value token
    /\ auth.FetchEmail (handler.Auth h) provider token
       = auth.value (handler.userEmail (Some values'))
    /\ handler.userEmail (Some values') <> ""
    /\ handler.RequireAuth
         (handler.mkContext (handler.Param_id c) (handler.PostForm c)
            (handler.Query c) (handler.BindContent c)
            (handler.BindPreferences c) (handler.Accept c)
            (handler.FullPath c) (Some values') (handler.Save c)) = true.
Proof.
  intros H. apply HandleOAuthCallback_written in H
    as (values & token & email & HS & Hs & _ & Hst & Hp & EX & EF & Hu
        & _ & _).
  exists values, token.
  assert (He : handler.userEmail (Some values') = email).
  { unfold handler.userEmail, handler.string_at. rewrite Hu. reflexivity. }
  rewrite He. repeat split; auto.
  - apply FetchEmail_value in EF as [Hne _]. exact Hne.
  - unfold handler.RequireAuth. cbn [handler.Session]. rewrite Hu.
    reflexivity.
Qed.

(** X30. A sign-in is good for one callback: with the session that a
    completed sign-in has saved, every further callback is refused with
    the status 400 and leaves the session as it is. *)
Theorem HandleOAuthCallback_once (h : handler.Handler Token)
    (provider : auth.Provider) (c : handler.gin_Context)
    (response : handler.Response) (values' : handler.Values) :
  handler.HandleOAuthCallback h provider c
  = (response, handler.written values') ->
  forall (provider2 : auth.Provider) (c2 : handler.gin_Context),
    handler.Session c2 = Some values' ->
    exists text,
      handler.HandleOAuthCallback h provider2 c2
      = (handler.c_String 400 text, handler.kept).
Proof.
  intros H provider2 c2 HS2. apply HandleOAuthCallback_written in H
    as (values & token & email & _ & _ & _ & _ & _ & _ & _ & _ & Hst & _).
  unfold handler.HandleOAuthCallback. rewrite HS2.
  destruct (String.eqb (handler.Query c2 "state") ""
            || String.eqb (handler.Query c2 "code") "");
    [eexists; reflexivity|].
  unfold handler.string_at at 1. rewrite Hst. cbn [default String.eqb orb].
  eexists; reflexivity.
Qed.

End HandlerFacts.

(** * The properties above on sample runs *)

Module more_scenarios.
Import jsontext jsontext_facts samples requests.

Lemma world1_consistent : consistent (db world1).
Proof.
  assert (E : db world1
              = saved "u" "c0"
                  (match db world1 !! chatMetaKey "c0" with
                   | Some (RString p) => p
                   | _ => ""
                   end) ∅)
    by (vm_compute; reflexivity).
  rewrite E. apply consistent_saved; [apply consistent_empty|].
  intros s H. vm_compute in H. injection H as <-. reflexivity.
Qed.

Lemma only_the_owner_witness :
  (is_Ok (fst (GetChat "v" "c0" world1)) = false /\
   db (snd (GetChat "v" "c0" world1)) = db world1) /\
  (is_Ok (fst (AppendMessage "v" "c0" "user" "hi" world1)) = false /\
   db (snd (AppendMessage "v" "c0" "user" "hi" world1)) = db world1) /\
  (is_Ok (fst (RunCompletion fine "v" "c0" "model-x" half world1)) = false /\
   db (snd (RunCompletion fine "v" "c0" "model-x" half world1)) = db world1).
Proof.
  apply (only_the_owner fine world1 "v" "c0" "user" "hi" "model-x" half).
  intros E. vm_compute in E. discriminate E.
Defined.

Lemma RunCompletion_refuses_witness :
  RunCompletion fine "v" "c0" "model-x" half world1
  = (Err not_authorized, tick world1).
Proof.
  apply (RunCompletion_refuses fine world1 "v" "c0" "model-x" half).
  - reflexivity.
  - right. exists "u". split; [vm_compute; reflexivity | discriminate].
Defined.

Lemma GetChat_answer_witness :
  GetChat "u" "c0" world1
  = (Ok (mkView (mkSummary "c0" "New chat" 1000) []), world1).
Proof.
  rewrite (GetChat_answer world1 "u" "c0");
    [vm_compute; reflexivity | reflexivity | vm_compute; reflexivity].
Defined.

Lemma NewChat_summary_witness :
  let summary := mkSummary "c0" "New chat" 1000 in
  ID summary = uuid_src world0 (uuid_ctr world0) /\
  UpdatedAt summary = now world0 /\
  Title summary
  = (if decide (strings_TrimSpace "" = "") then "New chat" else "") /\
  uuid_ctr world1 = S (uuid_ctr world0) /\
  db world1 !! chatOwnerKey (ID summary) = Some (RString "u") /\
  hd_error (index (db world1) "u") = Some (ID summary).
Proof.
  apply (NewChat_summary world0 world1 "u" "").
  vm_compute. reflexivity.
Defined.

Lemma NewChat_then_read_witness :
  let summary := mkSummary "c0" "New chat" 1000 in
  let q := set_faults [] world1 in
  GetChat "u" (ID summary) q
  = (Ok (mkView summary (log (db world0) (ID summary))), q) /\
  (exists rest, ListChats "u" q = (Ok (summary :: rest), q)) /\
  EnsureChat "u" q = (Ok summary, q).
Proof.
  apply (NewChat_then_read world0 world1 "u" "").
  - vm_compute. reflexivity.
  - apply ChatSummary_round_trip.
  - intros v E. vm_compute in E. discriminate E.
Defined.

Lemma EnsureChat_twice_witness :
  EnsureChat "u" world1 = (Ok (mkSummary "c0" "New chat" 1000), world1).
Proof.
  apply (EnsureChat_twice world0 world1 "u").
  - reflexivity.
  - intros v E. vm_compute in E. discriminate E.
  - apply ChatSummary_round_trip.
  - vm_compute. reflexivity.
Defined.

Lemma ownership_is_kept_witness :
  db (snd (perform (CallNewChat "v" "mine") world1)) !! chatOwnerKey "c0"
  = db world1 !! chatOwnerKey "c0".
Proof.
  apply (ownership_is_kept (CallNewChat "v" "mine") world1 "c0").
  - apply world1_consistent.
  - vm_compute. discriminate.
Defined.

Lemma RunCompletion_request_witness :
  let other :=
    mkService
      (openai.mkClient "http://ai.local/v1" "other-key"
         (fun key request =>
            if String.eqb (openai.Model request) "model-x"
            then openai.replied 200
                   (Some (openai.mkResponse
                            [openai.mkMessage "assistant" "fine"]
                            (openai.mkUsage 7 1 8)))
            else openai.replied 404 None)) in
  RunCompletion other "u" "c0" "model-x" half world1
  = RunCompletion fine "u" "c0" "model-x" half world1.
Proof.
  cbv zeta.
  apply (RunCompletion_request fine _ world1 "u" "c0" "model-x" half);
    reflexivity.
Defined.

Lemma splitCSV_Join_witness :
  config.splitCSV (strings_Join ["model-x"; "model-y"] ",")
  = ["model-x"; "model-y"].
Proof.
  apply (splitCSV_Join ["model-x"; "model-y"]).
  assert (Hx : forall entry,
             entry = "model-x" \/ entry = "model-y" ->
             entry <> "" /\ (","%char ∉ list_ascii_of_string entry)
             /\ strings_TrimSpace entry = entry).
  { intros entry [->| ->];
      (split; [discriminate|]);
      (split; [|vm_compute; reflexivity]);
      intros H; apply list_elem_of_In in H; simpl in H;
      intuition discriminate. }
  constructor; [apply Hx; auto|]. constructor; [apply Hx; auto|].
  constructor.
Defined.

Lemma loadEnvFile_first_wins_witness :
  snd (config.loadEnvFile
         (config.scanned
            (["# PORT=1"; ""; "PORT"]
             ++ " PORT = '9090' " :: ["PORT=9091"])%list false)
         env0)
    !! "SESSION_KEY" = None
  /\ snd (config.loadEnvFile
            (config.scanned
               (["# PORT=1"; ""; "PORT"]
                ++ " PORT_2 = '9090' " :: ["PORT_2=9091"])%list true)
            env0)
       !! "PORT_2" = Some "9090".
Proof.
  split; [vm_compute; reflexivity|].
  apply (loadEnvFile_first_wins ["# PORT=1"; ""; "PORT"] ["PORT_2=9091"]
           " PORT_2 = '9090' " "PORT_2" "9090" true env0).
  - vm_compute. reflexivity.
  - repeat constructor; vm_compute; reflexivity.
  - vm_compute. reflexivity.
Defined.

Lemma Load_environment_wins_witness :
  exists cfg verdict,
    config.Load (Some "/srv/smartchat") (config.scanned dotenv false) env0
    = Some (cfg, verdict)
    /\ config.RedisURL cfg = "redis://env:6379/0"
    /\ config.Port cfg = "8080"
    /\ config.InstanceName cfg = "smartchat"
    /\ config.ClientID (config.OAuthGoogle cfg) = "a".
Proof.
  destruct (config.Load (Some "/srv/smartchat") (config.scanned dotenv false)
              env0) as [[cfg verdict]|] eqn:E;
    [|vm_compute in E; discriminate E].
  exists cfg, verdict. split; [reflexivity|].
  destruct (Load_environment_wins _ _ _ cfg verdict E)
    as (HP & HR & _).
  split; [apply HR; vm_compute; reflexivity|].
  split; [apply (HP ""); vm_compute; reflexivity|].
  vm_compute in E. injection E as <- _. split; reflexivity.
Defined.

Lemma Load_accepted_witness :
  exists cfg,
    config.Load (Some "/srv/smartchat") (config.scanned dotenv false) env0
    = Some (cfg, None)
    /\ config.Models (config.OpenAI cfg) = ["model-x"; "model-y"]
    /\ config.Port cfg <> ""
    /\ config.Models (config.OpenAI cfg) <> []
    /\ Forall (fun model =>
                 model <> "" /\ (","%char ∉ list_ascii_of_string model)
                 /\ strings_TrimSpace model = model)
              (config.Models (config.OpenAI cfg)).
Proof.
  destruct (config.Load (Some "/srv/smartchat") (config.scanned dotenv false)
              env0) as [[cfg verdict]|] eqn:E;
    [|vm_compute in E; discriminate E].
  assert (Hv : verdict = None)
    by (vm_compute in E; injection E as _ <-; reflexivity).
  subst verdict. exists cfg. split; [reflexivity|].
  split; [vm_compute in E; injection E as <-; reflexivity|].
  exact (Load_accepted _ _ _ cfg E).
Defined.

Lemma fetchGitHubEmail_address_witness :
  exists status emails entry,
    auth.Get (auth.GitHubConfig auth0) "token-1"
    = auth.responded status (Some emails)
    /\ 200 <= status <= 299
    /\ entry ∈ emails /\ auth.Email entry = "u@home"
    /\ strings_Contains "u@home" "@" = true
    /\ (auth.Primary entry && auth.Verified entry = true
        \/ Forall (fun e =>
                     auth.Primary e && auth.Verified e
                     && strings_Contains (auth.Email e) "@" = false)
                  emails).
Proof.
  apply (fetchGitHubEmail_address (auth.GitHubConfig auth0) "token-1").
  vm_compute. reflexivity.
Defined.

Lemma preferences_round_trip_witness :
  let c := preferences (session_of "u") " model-y " "2" in
  exists values,
    snd (handler.UpdatePreferences parse h0 c) = handler.written values
    /\ handler.sessionPreferences parse h0 (Some values)
       = ("model-y", PrimFloat.one).
Proof.
  cbv zeta.
  apply (preferences_round_trip parse h0
           (preferences (session_of "u") " model-y " "2") 200).
  - vm_compute. reflexivity.
  - discriminate.
Defined.

Lemma PostMessage_answer_witness :
  let c := post (session_of "u") "c0" "  hello  " in
  let user := mkMessage "user" "hello" 1001 in
  let assistant := mkMessage "assistant" "fine" 1003 in
  let w' := snd (handler.PostMessage parse h0 c world1) in
  db world1 !! chatOwnerKey (handler.Param_id c)
  = Some (RString (handler.userEmail (handler.Session c)))
  /\ Role user = "user" /\ Content user <> ""
  /\ strings_TrimSpace (Content user) = Content user
  /\ exists pu pa,
       json_Marshal user = Some pu /\ json_Marshal assistant = Some pa
       /\ raw_log (db w') (handler.Param_id c)
          = (raw_log (db world1) (handler.Param_id c) ++ [pu; pa])%list.
Proof.
  cbv zeta.
  apply (PostMessage_answer parse h0 (post (session_of "u") "c0" "  hello  ")
           world1 _ 200 _ _ (openai.mkUsage 7 1 8)).
  vm_compute. reflexivity.
Defined.

Lemma PostMessage_openai_error_witness :
  let c := post (session_of "u") "c0" "  hello  " in
  let w' := snd (handler.PostMessage parse h_down c world1) in
  exists content t pu,
    json_Marshal (mkMessage "user" content t) = Some pu
    /\ content <> ""
    /\ (raw_log (db w') (handler.Param_id c)
        = (raw_log (db world1) (handler.Param_id c) ++ [pu])%list
        \/ exists pa,
             raw_log (db w') (handler.Param_id c)
             = (raw_log (db world1) (handler.Param_id c) ++ [pu; pa])%list).
Proof.
  cbv zeta.
  apply (PostMessage_openai_error parse h_down
           (post (session_of "u") "c0" "  hello  ") world1 _ 400).
  vm_compute. reflexivity.
Defined.

Lemma PostMessage_not_owner_witness :
  let c := post (session_of "v") "c0" "hello" in
  db (snd (handler.PostMessage parse h0 c world1)) = db world1
  /\ exists code text,
       fst (handler.PostMessage parse h0 c world1)
       = Ok (handler.c_String code text)
       /\ (code = 400 \/ code = 500).
Proof.
  cbv zeta.
  apply (PostMessage_not_owner parse h0 (post (session_of "v") "c0" "hello")
           world1).
  intros E. vm_compute in E. discriminate E.
Defined.

Lemma ShowChat_page_witness :
  let c := page (session_of "u") "c0" in
  let view := mkView (mkSummary "c0" "New chat" 1000) [] in
  "u" = handler.userEmail (handler.Session c)
  /\ exists chatID,
       (handler.Param_id c <> "" -> chatID = handler.Param_id c)
       /\ db world1 !! chatOwnerKey chatID = Some (RString "u")
       /\ resolve (db world1) chatID = Some (Summary view)
       /\ Messages view = log (db world1) chatID.
Proof.
  cbv zeta.
  apply (ShowChat_page parse h0 (page (session_of "u") "c0") world1 world1
           200 "smartchat" "u" _ [mkSummary "c0" "New chat" 1000]
           ["model-x"; "model-y"] "model-x" handler.half
           (handler.written
              (<[handler.sessionChatID := handler.VString "c0"]>
                 (session_of "u")))).
  vm_compute. reflexivity.
Defined.

Lemma ShowChat_foreign_chat_witness :
  let c := page (session_of "v") "c0" in
  let values' :=
    <[handler.sessionChatID := handler.VString "c0"]> (session_of "v") in
  fst (handler.ShowChat parse h0 c world1)
  = Ok (handler.c_String 400 "chat not found", handler.written values')
  /\ forall (c2 : handler.gin_Context) (w2 : World),
       handler.Param_id c2 = "" ->
       handler.Session c2 = Some values' ->
       db w2 !! chatOwnerKey (handler.Param_id c)
       <> Some (RString (handler.userEmail (handler.Session c2))) ->
       fst (handler.ShowChat parse h0 c2 w2)
       = Ok (handler.c_String 400 "chat not found", handler.kept)
         /\ db (snd (handler.ShowChat parse h0 c2 w2)) = db w2.
Proof.
  cbv zeta.
  apply (ShowChat_foreign_chat parse h0 (page (session_of "v") "c0") world1
           (session_of "v")).
  - discriminate.
  - reflexivity.
  - reflexivity.
  - intros E. vm_compute in E. discriminate E.
Defined.

Lemma HandleOAuthCallback_login_witness :
  let c := callback pending "state-1" "code-1" in
  let values' := snd (handler.HandleOAuthCallback h0 "google" c) in
  exists signed_in,
    values' = handler.written signed_in
    /\ handler.userEmail (Some signed_in) = "u"
    /\ exists values token,
         handler.Session c = Some values
         /\ handler.Query c "state" <> ""
         /\ handler.string_at values handler.sessionOAuthState
            = Some (handler.Query c "state")
         /\ handler.string_at values handler.sessionOAuthProvider
            = Some "google"
         /\ auth.Exchange (handler.Auth h0) "google" (handler.Query c "code")
            = auth.value token
         /\ auth.FetchEmail (handler.Auth h0) "google" token
            = auth.value (handler.userEmail (Some signed_in))
         /\ handler.userEmail (Some signed_in) <> ""
         /\ handler.RequireAuth
              (handler.mkContext (handler.Param_id c) (handler.PostForm c)
                 (handler.Query c) (handler.BindContent c)
                 (handler.BindPreferences c) (handler.Accept c)
                 (handler.FullPath c) (Some signed_in) (handler.Save c))
            = true.
Proof.
  cbv zeta.
  destruct (handler.HandleOAuthCallback h0 "google"
              (callback pending "state-1" "code-1"))
    as [response [|signed_in]] eqn:E; [vm_compute in E; discriminate E|].
  exists signed_in. split; [reflexivity|].
  split; [vm_compute in E; injection E as _ <-; vm_compute; reflexivity|].
  exact (HandleOAuthCallback_login h0 "google" _ response signed_in E).
Defined.

Lemma HandleOAuthCallback_once_witness :
  let c := callback pending "state-1" "code-1" in
  exists signed_in text,
    snd (handler.HandleOAuthCallback h0 "google" c)
    = handler.written signed_in
    /\ handler.HandleOAuthCallback h0 "google"
         (callback signed_in "state-1" "code-1")
       = (handler.c_String 400 text, handler.kept).
Proof.
  cbv zeta.
  destruct (handler.HandleOAuthCallback h0 "google"
              (callback pending "state-1" "code-1"))
    as [response [|signed_in]] eqn:E; [vm_compute in E; discriminate E|].
  exists signed_in.
  destruct (HandleOAuthCallback_once h0 "google" _ response signed_in E
              "google" (callback signed_in "state-1" "code-1") eq_refl)
    as (text & H).
  exists text. split; [reflexivity | exact H].
Defined.

End more_scenarios.

(** * The service with the codec of [encoding/json] *)

Module go_scenarios.
Import gojson gojson_facts.
Import samples.

(** The sample identifiers are ASCII. *)
Lemma sample_uuid_single_byte (n : nat) : single_byte (sample_uuid n) = true.
Proof.
  unfold sample_uuid.
  assert (H : forall d, single_byte (NilEmpty.string_of_uint d) = true)
    by (induction d; [reflexivity | exact IHd ..]).
  destruct (Nat.to_uint n); try reflexivity; apply H.
Qed.

(** Only the first is "c0". *)
Lemma sample_uuid_fresh (n : nat) : (1 <= n)%nat -> sample_uuid n <> "c0".
Proof.
  intros Hn H. unfold sample_uuid in H.
  change (String "c" (NilZero.string_of_uint (Nat.to_uint n)) = "c0") in H.
  injection H as H.
  pose proof (DecimalNat.Unsigned.of_to n) as Ho.
  assert (Hnn : Nat.to_uint n <> Nil).
  { intros Hnil. rewrite Hnil in Ho. cbn in Ho. lia. }
  apply (f_equal NilZero.uint_of_string) in H.
  rewrite NilZero.usu in H by exact Hnn.
  injection H as H. rewrite H in Ho. cbn in Ho. lia.
Qed.

Lemma world0_well_formed : well_formed (db world0).
Proof.
  split; [|apply consistent_empty].
  intros user. unfold index. cbn [db world0]. rewrite lookup_empty.
  apply NoDup_nil_2.
Qed.

Lemma ran_well_formed (cs : list Call) : well_formed (db (run cs world0)).
Proof.
  apply run_well_formed; [exact gojson_laws | | exact world0_well_formed].
  intros n. apply json_text_single_byte, sample_uuid_single_byte.
Qed.

Lemma world1_well_formed : well_formed (db world1).
Proof.
  assert (E : db world1 = db (run [CallNewChat "u" ""] world0))
    by (vm_compute; reflexivity).
  rewrite E. apply ran_well_formed.
Qed.

Lemma world2_well_formed : well_formed (db world2).
Proof.
  assert (E : db world2
              = db (run [CallNewChat "u" ""; CallNewChat "u" "second"] world0))
    by (vm_compute; reflexivity).
  rewrite E. apply ran_well_formed.
Qed.

Lemma world1_chat_ok : chat_ok "u" "c0" (db world1).
Proof.
  split; [vm_compute; reflexivity|]. split.
  - exists (mkSummary "c0" "New chat" 1000). vm_compute. reflexivity.
  - intros v E. vm_compute in E. discriminate E.
Qed.

Lemma world1_index_list : list_key (db world1) (userChatsKey "u").
Proof. intros v E. vm_compute in E. discriminate E. Qed.

(** C2, the claim as stated fails: the index key of "u" holds a string;
    [NewChat] fails, and of its three writes the summary record and the
    ownership record are on the server while the index is as it was. *)
Lemma NewChat_two_of_three :
  let r := fst (NewChat "u" "" world0_blocked) in
  let w' := snd (NewChat "u" "" world0_blocked) in
  db world0_blocked !! chatMetaKey "c0" = None /\
  db world0_blocked !! chatOwnerKey "c0" = None /\
  r = Err redis_WrongType /\
  resolve (db w') "c0" = Some (mkSummary "c0" "New chat" 1000) /\
  db w' !! chatOwnerKey "c0" = Some (RString "u") /\
  db w' !! userChatsKey "u" = db world0_blocked !! userChatsKey "u" /\
  index (db w') "u" = [] /\
  db w' <> db world0_blocked.
Proof.
  cbv zeta. repeat split; try (vm_compute; reflexivity).
  intros H. apply (f_equal (fun d => d !! chatOwnerKey "c0")) in H.
  vm_compute in H. discriminate H.
Qed.

Lemma touch_title_witness :
  let w' := snd (touchChat "u" "c0" "  Hello, world  " world1) in
  let w2 := snd (AppendMessage "u" "c0" "user" "  Hello, world  " world1) in
  touchChat "u" "c0" "  Hello, world  " world1 = (Ok tt, w') /\
  (exists summary',
      resolve (db w') "c0" = Some summary' /\
      ID summary' = "c0" /\ Title summary' = "Hello, world") /\
  (forall cs,
    exists summary',
      resolve (db (run cs w2)) "c0" = Some summary' /\
      Title summary' = "Hello, world").
Proof.
  cbv zeta.
  destruct (touch_title world1 "u" "c0" "  Hello, world  "
              (mkSummary "c0" "New chat" 1000) gojson_laws
              (proj2 world1_well_formed))
    as (H1 & H2 & _); [vm_compute; reflexivity|].
  destruct (H2 eq_refl world1_index_list) as [w' E].
  rewrite E. cbn [snd]. split; [reflexivity|]. split.
  - destruct (H1 w' E) as (summary' & Hr & Hi & Ht & _).
    exists summary'. split; [exact Hr|]. split; [exact Hi|].
    destruct Ht as [Ht _]; [reflexivity | vm_compute; discriminate|].
    rewrite Ht by (vm_compute; reflexivity). vm_compute. reflexivity.
  - set (w2 := snd (AppendMessage "u" "c0" "user" "  Hello, world  " world1)).
    assert (E2 : db w2
                 = db (run [CallNewChat "u" "";
                            CallAppendMessage "u" "c0" "user"
                              "  Hello, world  "] world0))
      by (vm_compute; reflexivity).
    destruct (touch_title w2 "u" "c0" ""
                (mkSummary "c0" "Hello, world" 1002) gojson_laws)
      as (_ & _ & H3).
    + rewrite E2. apply ran_well_formed.
    + vm_compute. reflexivity.
    + apply H3.
      * cbn. discriminate.
      * intros n. apply sample_uuid_single_byte.
      * intros n Hn. apply sample_uuid_fresh. exact Hn.
Defined.

(** C4, the claim as stated fails: the owner appends a message whose
    content holds a byte that starts no UTF-8 encoding; the call succeeds
    and returns the message, and the message read back has the three
    bytes of U+FFFD in its place. *)
Lemma append_read_differs :
  let byte n := String (ascii_of_nat n) "" in
  let content := "a" +:+ byte 255%nat +:+ "b" in
  let stored :=
    "a" +:+ byte 239%nat +:+ byte 191%nat +:+ byte 189%nat +:+ "b" in
  let r := AppendMessage "u" "c0" "user" content world1 in
  log (db world1) "c0" = [] /\
  fst r = Ok (mkMessage "user" content 1001) /\
  Messages <$> (match fst (GetChat "u" "c0" (snd r)) with
                | Ok view => Some view
                | Err _ => None
                end)
  = Some [mkMessage "user" stored 1001] /\
  mkMessage "user" stored 1001 <> mkMessage "user" content 1001.
Proof.
  cbv zeta. repeat split; try (vm_compute; reflexivity).
  vm_compute. discriminate.
Qed.

Lemma append_order_witness :
  let rqs := [ReqAppend "user" "hello"; ReqCompletion fine "model-x" half;
              ReqAppend "user" "thanks"] in
  let msgs := [mkMessage "user" "hello" 1001;
               mkMessage "assistant" "fine" 1003;
               mkMessage "user" "thanks" 1005] in
  let w' := snd (serve_all "u" "c0" rqs world1) in
  serve_all "u" "c0" rqs world1 = (Ok msgs, w') /\
  length msgs = length rqs /\
  (exists summary,
      GetChat "u" "c0" (set_faults [] w')
      = (Ok (mkView summary ([] ++ msgs)), set_faults [] w')) /\
  (forall cs k, raw_log (db w') k `prefix_of` raw_log (db (run cs w')) k).
Proof.
  cbv zeta.
  assert (E : serve_all "u" "c0"
                [ReqAppend "user" "hello"; ReqCompletion fine "model-x" half;
                 ReqAppend "user" "thanks"] world1
              = (Ok [mkMessage "user" "hello" 1001;
                     mkMessage "assistant" "fine" 1003;
                     mkMessage "user" "thanks" 1005],
                 snd (serve_all "u" "c0"
                        [ReqAppend "user" "hello";
                         ReqCompletion fine "model-x" half;
                         ReqAppend "user" "thanks"] world1)))
    by (vm_compute; reflexivity).
  split; [exact E|].
  destruct (append_order world1 (set_faults [] world1) _ "u" "c0" _ _
              (mkView (mkSummary "c0" "New chat" 1000) []) gojson_laws
              ltac:(vm_compute; reflexivity) E)
    as (H1 & _ & H3 & H4).
  split; [exact H1|]. split; [|exact H4].
  apply H3. repeat (constructor; [split; vm_compute; reflexivity|]).
  constructor.
Defined.

Lemma index_recency_witness :
  let w1 := run [CallNewChat "u" ""; CallNewChat "u" "second";
                 CallAppendMessage "u" "c0" "user" "hi"] world0 in
  index (db w1) "u" = ["c0"; "c1"] /\
  (forall user, NoDup (index (db w1) user)) /\
  (exists w2,
      perform (CallNewChat "u" "third") w1 = (Ok ("u", "c2"), w2) /\
      index (db w2) "u"
      = "c2" :: filter (fun x => x <> "c2") (index (db w1) "u")) /\
  (exists w2,
      perform (CallAppendMessage "u" "c1" "user" "more") w1
      = (Ok ("u", "c1"), w2) /\
      index (db w2) "u"
      = "c1" :: filter (fun x => x <> "c1") (index (db w1) "u") /\
      NoDup (index (db w2) "u")).
Proof.
  cbv zeta. split; [vm_compute; reflexivity|].
  destruct (index_recency
              [CallNewChat "u" ""; CallNewChat "u" "second";
               CallAppendMessage "u" "c0" "user" "hi"] world0 gojson_laws
              sample_uuid_single_byte (proj2 world0_well_formed)
              (proj1 world0_well_formed))
    as (H1 & H2 & H3).
  destruct (H3 eq_refl) as [HN HA].
  split; [exact H1|]. split.
  - destruct (HN "u" "third") as [w2 E].
    { intros v E. vm_compute in E. discriminate E. }
    exists w2. split; [exact E|]. apply (H2 _ _ _ _ E).
  - destruct (HA "u" "c1" "user" "more") as [w2 E].
    { split; [vm_compute; reflexivity|]. split.
      - exists (mkSummary "c1" "second" 1001). vm_compute. reflexivity.
      - intros v E. vm_compute in E. discriminate E. }
    { intros v E. vm_compute in E. discriminate E. }
    exists w2. split; [exact E|].
    destruct (H2 _ _ _ _ E) as (Hf & Hn & _). auto.
Defined.

Lemma AppendMessage_any_role_witness :
  exists w' payload,
    AppendMessage "u" "c0" "system" "obey" world1
      = (Ok (mkMessage "system" "obey" 1001), w') /\
    json_Marshal (mkMessage "system" "obey" 1001) = Some payload /\
    raw_log (db w') "c0" = (raw_log (db world1) "c0" ++ [payload])%list /\
    log (db w') "c0"
    = (log (db world1) "c0" ++ [mkMessage "system" "obey" 1001])%list /\
    Role <$> last (log (db w') "c0") = Some "system".
Proof.
  destruct (AppendMessage_any_role world1 "u" "c0" "system" "obey" gojson_laws
              eq_refl world1_chat_ok world1_index_list)
    as (w' & payload & E & HM & Hraw & Hlog & Hrole).
  exists w', payload. split; [exact E|]. split; [exact HM|].
  split; [exact Hraw|]. split; [exact Hlog|]. apply Hrole. reflexivity.
Defined.

Lemma retouch_keeps_index_witness :
  let c1 := CallAppendMessage "u" "c0" "user" "hi" in
  let c2 := CallRunCompletion fine "u" "c0" "model-x" half in
  let w2 := snd (perform c1 world2) in
  let w3 := snd (perform c2 w2) in
  index (db world2) "u" = ["c1"; "c0"] /\
  index (db w3) "u" = index (db w2) "u" /\
  ("c0" ∈ index (db world2) "u" ->
   index (db w2) "u" ≡ₚ index (db world2) "u").
Proof.
  cbv zeta. split; [vm_compute; reflexivity|].
  apply (retouch_keeps_index
           (CallAppendMessage "u" "c0" "user" "hi")
           (CallRunCompletion fine "u" "c0" "model-x" half) world2).
  - exact gojson_laws.
  - vm_compute. reflexivity.
  - apply world2_well_formed.
  - apply world2_well_formed.
  - vm_compute. reflexivity.
  - vm_compute. reflexivity.
Defined.

End go_scenarios.
